(* ===== verification/_CoqProject ===== *)
-Q . S2P
Prelude.v
Number.v
ExactNumber.v
LoanParameters.v
LoanCalculator.v
AmortizationSpec.v
Platforms.v
App.v
EdgeCases.v
Annuity.v
Binary64.v
Formatters.v
Results.v
InputForm.v
Navigation.v
Render.v
