(* ===== verification/Prelude.v ===== *)
(** * Verification of the loan-amortization calculator

    The repository is one pure computation and two thin user interfaces
    around it.

    - The amortization engine, [LoanCalculator.calculate], written twice:
      [src/src/models/LoanCalculator.ts] (React Native) and
      [src/LoanCalculator/Models/LoanCalculator.swift] (SwiftUI).  From a
      principal, an annual percentage rate, a term in years and a payment
      frequency it computes the level payment with the annuity formula and
      then walks the schedule one period at a time, clamping the principal
      portion to [0, balance] and forcing the last period to clear the
      balance.
    - The parameter model: [LoanParameters.ts] / [LoanParameters.swift]
      (payment-frequency enum with raw values 12, 26, 52, labels, defaults).
    - The React Native app: [App.tsx] (three tabs, one keyed screen),
      [LoanCalculatorScreen.tsx] (holds the parameters, calls the engine),
      [LoanInputForm.tsx] (turns user input into parameters through
      [mobile/src/utils/formatters.ts]) and [LoanResults.tsx] (summary,
      progress bar, first and final payments).
    - The SwiftUI app: [ContentView.swift] (three tabs, one [@State] per
      tab), [LoanCalculatorView.swift], [LoanBreakdownView.swift].

    The engine is called by both screens on every render with the current
    parameters; the form changes the parameters; the tabs decide which
    parameters are current.

    ** Layout of the development

    - [Prelude] (this file): the [num_scope] notation scope, list lemmas on
      left folds, snoc and [firstn] of [seq], string appends, the [loan]
      hint and rewrite databases, the [inv_bool] tactic.
    - [Number]: the interface [Number] of the numeric operations the two
      sources call (JavaScript [number] / Swift [Double]: [+ - * /],
      [Math.max], [Math.min], [Math.pow], [Math.round], Swift's
      [.rounded()], [===], [<=]) and Swift's generic [max]/[min].
    - [ExactNumber]: the instance of [Number] on [Q] (exact rationals,
      [Qeq] as equality, [Proper] instances, the two roundings).
    - [LoanParameters]: [PaymentFrequency], [LoanParameters],
      [createDefaultLoanParameters], labels, [getAllPaymentFrequencies].
    - [LoanCalculator]: [AmortizationPayment], [LoanResult], one loop
      iteration [payment_step] (TS lines 50-74), the TS [for] loop
      [payment_loop] (guard and fuel), [calculate]; the Swift variant
      [calculate_swift].  Theorems for every instance of [Number], floating
      point included.
    - [AmortizationSpec]: the abstract contract [amortizes] of a schedule,
      its consequences, and the refinement theorem that [calculate] over
      [Q] meets it.
    - [Platforms]: the TS and Swift engines agree over [Q].
    - [App]: the three configurations of [loanConfigs] and the engine's
      payments on them (against the spec's scenarios).
    - [EdgeCases]: the engine on a zero rate (straight-line schedule) and
      on a loan amount of at most 0 (all-zero rows and totals).
    - [Annuity]: with a positive rate the level payment amortizes the
      principal exactly; the balance before each payment is the present
      value of the payments left.
    - [Binary64]: the instance of [Number] on IEEE binary64 ([SpecFloat] of
      the Standard Library, precision 53, [emax] 1024): JavaScript's
      [number] and Swift's [Double], with [Math.max]/[Math.min] as
      ECMAScript defines them on NaN and signed zeros, [Math.round] and
      [rounded()] on finite values, and [Math.pow] as a parameter [fpow]
      (ECMAScript only asks for an approximation); [cr_pow] is the
      correctly rounded [pow] used for concrete runs.
    - [Formatters]: [formatCurrency], [formatPercentage], [parseCurrency],
      [parsePercentage], with the JavaScript runtime pieces they call
      ([parseFloat], [Number.prototype.toFixed], the en-US USD
      [Intl.NumberFormat]) written out over strings.
    - [Results]: the state and the derived values of [LoanResults] and of
      [LoanBreakdownView], the rows the panel shows, [PaymentRow].
    - [InputForm]: the handlers of [LoanInputForm] as a step function
      [form_step], the screen's [reachable] states, and runs of the term
      stepper.
    - [Navigation]: the React app as a state machine [app_step] (tab switch
      with keyed remount, form input, section toggles) and the SwiftUI app
      as [swift_step] (per-tab state, selection).
    - [Render]: what the React Native screens draw, as a view tree [Node]
      (View, Text, TextInput, TouchableOpacity, Picker, the progress fill)
      whose handlers carry the events [form_step], [results_step] and
      [app_step] interpret: [render_form] (LoanInputForm.tsx),
      [render_results] and [render_payment_row] (LoanResults.tsx),
      [render_screen] (LoanCalculatorScreen.tsx), [render_app] (App.tsx).

    ** What the theorems show (claims C1-C40, see each file)

    Over every arithmetic: the shape of the result (rows numbered 1..n,
    totals equal to the in-order sums of the rows, the zero result for a
    non-positive count, termination of the loop).  Over exact arithmetic:
    the schedule refines [amortizes] (last balance exactly 0, balances
    non-increasing and non-negative, principal conserved, [totalPaid =
    principal + totalInterest]); the two engines agree; a non-positive
    rate gives a straight-line schedule without interest (negative rates
    are not honoured), a non-positive amount an all-zero one, and a
    positive rate a schedule whose every row pays exactly
    [periodicPayment], the payment whose [n] discounted values sum to the
    principal, with principal < n * payment, payment <= principal *
    (1 + rate per period) and a positive total interest.  (The payments of the app's configurations, which differ
    from the spec's scenarios 1 and 2, are lemmas of [App].)
    For the interface: currency and
    percentage texts round-trip through the parsers (to the cent, sign
    lost; to 0.0005); the interest share is in [0, 1]; the panel shows
    rows #1..#3 and #n, the last printing "$0.00"; every state the React
    app can reach keeps an amount of at least 0 and a term in [1, 40] and
    shows a schedule that ends at 0; every amount text is accepted and
    stored as a finite amount >= 0, while any decimal rate (negative or
    above 100 %) can be typed in from any reachable state; the SwiftUI
    breakdown's Principal + Interest equals Total paid exactly when the
    amount is >= 0; typing back the displayed amount rounds it to the cent
    and leaves the screen unchanged;
    leaving a tab resets the React screen but not the SwiftUI one, whose
    tabs accumulate exactly their own edits.  Liveness: from any state the
    stepper reaches every term in [1, 40] within 79 presses, and from every
    reachable React state every tab with every term is reachable.
    Over IEEE doubles, for every [pow]: the last balance is exactly +0 or
    NaN; no row holds a negative amount; a NaN payment (a rate of 1000000 % overflows [pow]) makes every
    total and row NaN; wherever the payment count is a finite double below
    2^63 in magnitude, the TS and Swift engines are bit-identical, NaN and
    signed zeros elsewhere included.  (With the correctly rounded [pow],
    the vehicle loan's last payment differs from its quoted payment by the
    rounding residue: a lemma of [Binary64].)
    What is drawn: a digit 0-4 typed after the displayed amount changes
    the stored amount but not the screen; the term label always prints a
    whole number of years; the progress label reads between 0.0 and 100.0;
    pressing a tab highlights exactly that tab and shows its title.

    ** Bounds and fuel

    The TS loop [for (paymentNumber = 1; paymentNumber <= n; ...)] is
    modelled with its guard and an explicit fuel; [calculate] gives it
    [n + 1] units, and [payment_loop_terminates] shows that any fuel of at
    least [n] computes the fold over [1..n], i.e. the loop leaves through
    its own guard.  The counter is a natural number: the source's counter
    is a [number] exact below 2^53, far beyond the at most 2080 payments
    the form allows (proved in [InputForm]).  [Z_digits] takes
    [log2 n] units of fuel, enough for the decimal digits of [n].

    ** Not modelled

    [Math.pow]'s result on doubles (a parameter; no ECMAScript or libm
    contract fixes it), [Math.round]/[rounded()] on NaN, infinities and
    counts from 2^63 on ([d_round] puts a placeholder 0 there: the TS
    engine would go on with a NaN count and Swift's [Int(...)] would trap;
    the engine comparison excludes these inputs and the form's stepper
    keeps the term finite), and
    the formatters and the form over doubles (they are modelled over [Q]).
    Layout and styles ([StyleSheet.create]), the progress width string
    [`${share * 100}%`] and any number JavaScript prints outside the
    integers ([Number::toString] on fractions; such texts are [None] in
    [Render]); the rendered residential and commercial results are not
    evaluated concretely (their exact schedules have denominators like
    [1200^360]), so the theorems about them are proved for every result.  Foundation's [NumberFormatter] and SwiftUI's [Stepper] (library
    behaviour; Swift edits carry the value they write).  [toFixed] above
    [10^21] (the [ToString] fallback) and a rate field holding [Infinity],
    which the exact model cannot represent ([form_step] returns [None]). *)

From Stdlib Require Import List Lia ZArith String.
Import ListNotations.

Declare Scope num_scope.
Delimit Scope num_scope with num.

Create HintDb loan.
Create Rewrite HintDb loan.

(** ** Left folds with an accumulator, as the source's [+=] loops compute them *)

Section Folds.
Context {A B : Type}.

Lemma fold_left_snoc (f : A -> B -> A) (l : list B) (x : B) (a : A) :
  fold_left f (l ++ [x]) a = f (fold_left f l a) x.
Proof. now rewrite fold_left_app. Qed.

Lemma map_snoc (g : B -> A) (l : list B) (x : B) :
  map g (l ++ [x]) = map g l ++ [g x].
Proof. now rewrite map_app. Qed.
End Folds.

Lemma last_snoc {A : Type} (l : list A) (x d : A) : last (l ++ [x]) d = x.
Proof.
  induction l as [|y l IH]; [reflexivity|].
  simpl. destruct (l ++ [x]) eqn:E; [destruct l; discriminate|exact IH].
Qed.

Lemma seq_snoc (s n : nat) : seq s (S n) = seq s n ++ [s + n].
Proof. now rewrite seq_S. Qed.

Lemma firstn_seq (k s n : nat) : firstn k (seq s n) = seq s (Nat.min k n).
Proof.
  revert k s; induction n as [|n IH]; intros k s; [now rewrite firstn_nil, Nat.min_0_r|].
  destruct k as [|k]; [reflexivity|]. cbn [seq firstn Nat.min]. now rewrite IH.
Qed.

#[export] Hint Rewrite @fold_left_snoc @map_snoc @last_snoc length_app : loan.

(** ** Appending strings *)

Lemma string_app_nil_r (s : string) : (s ++ EmptyString)%string = s.
Proof. induction s as [|c s IH]; simpl; [reflexivity|now rewrite IH]. Qed.

Lemma string_app_assoc (a b c : string) : (a ++ b ++ c)%string = ((a ++ b) ++ c)%string.
Proof. induction a as [|x a IH]; simpl; [reflexivity|now rewrite IH]. Qed.

Lemma string_length_app (a b : string) :
  String.length (a ++ b) = (String.length a + String.length b)%nat.
Proof. induction a as [|x a IH]; simpl; [reflexivity|now rewrite IH]. Qed.

#[export] Hint Rewrite string_app_nil_r string_length_app : loan.

(** ** Options *)

Lemma Some_inj {A : Type} (a b : A) : Some a = Some b -> a = b.
Proof. now intros [= ->]. Qed.

(** [inv_bool] turns the boolean tests the sources use into propositions. *)
Ltac inv_bool :=
  repeat match goal with
  | H : Z.leb _ _ = true |- _ => apply Z.leb_le in H
  | H : Z.leb _ _ = false |- _ => apply Z.leb_gt in H
  | H : Z.eqb _ _ = true |- _ => apply Z.eqb_eq in H
  | H : Z.eqb _ _ = false |- _ => apply Z.eqb_neq in H
  | H : Nat.eqb _ _ = true |- _ => apply Nat.eqb_eq in H
  | H : Nat.eqb _ _ = false |- _ => apply Nat.eqb_neq in H
  end.
