(* ===== verification/Number.v ===== *)
(** The numeric interface the engine is written against.

    Both sources compute with IEEE doubles (JavaScript [number], Swift
    [Double]) and call a handful of operations on them.  [Number] names
    exactly those operations, so that [LoanCalculator] is one definition
    that can be run with exact rationals ([ExactNumber]) or with any other
    arithmetic.  Integer-valued results ([Math.round], Swift's
    [Int(x.rounded())]) are returned as [Z], which is how the code uses
    them: as a payment count. *)

From Stdlib Require Import ZArith.
From S2P Require Import Prelude.

Class Number (A : Type) := {
  num_add : A -> A -> A;            (** [x + y] *)
  num_sub : A -> A -> A;            (** [x - y] *)
  num_mul : A -> A -> A;            (** [x * y] *)
  num_div : A -> A -> A;            (** [x / y] *)
  num_max : A -> A -> A;            (** JavaScript [Math.max(x, y)] *)
  num_min : A -> A -> A;            (** JavaScript [Math.min(x, y)] *)
  num_pow : A -> Z -> A;            (** [Math.pow(x, n)] / [pow(x, Double(n))] at an integer [n] *)
  num_round : A -> Z;               (** JavaScript [Math.round(x)]: halves go up *)
  num_rounded : A -> Z;             (** Swift [Int(x.rounded())]: halves go away from zero *)
  num_of_Z : Z -> A;                (** an integer literal or [Double(n)] *)
  num_eqb : A -> A -> bool;         (** [x === y], Swift [x == y] *)
  num_leb : A -> A -> bool;         (** [x <= y] *)
  num_ltb : A -> A -> bool          (** [x < y] *)
}.

Infix "+!" := num_add (at level 50, left associativity) : num_scope.
Infix "-!" := num_sub (at level 50, left associativity) : num_scope.
Infix "*!" := num_mul (at level 40, left associativity) : num_scope.
Infix "/!" := num_div (at level 40, left associativity) : num_scope.

Section Derived.
Context {A : Type} `{Number A}.
Local Open Scope num_scope.

(** A decimal literal [m * 10^-e] of the source, e.g. [5.75] is
    [num_lit 575 2]: the exact quotient rounded once, which is what the
    parser of either language produces for literals of this size. *)
Definition num_lit (m : Z) (e : nat) : A := num_of_Z m /! num_of_Z (10 ^ Z.of_nat e).

(** Swift's generic [max(x, y)] is [y >= x ? y : x] and [min(x, y)] is
    [y < x ? y : x] (Swift standard library, [Comparable]). *)
Definition swift_max (x y : A) : A := if num_leb x y then y else x.
Definition swift_min (x y : A) : A := if num_ltb y x then y else x.
End Derived.
