(* ===== verification/ExactNumber.v ===== *)
(** Exact arithmetic: the instance of [Number] on the rationals [Q].

    A double is a rational number; running the engine on [Q] computes what
    the source would compute if no operation rounded.  The field operations
    normalize their result with [Qred] (same value, smaller fraction), so
    that schedules of a few dozen rows still evaluate.  Equality is [Qeq]
    ([==]), coarser than Leibniz equality on [Q]'s fraction
    representations, so every operation comes with its [Proper] instance
    and results are compared up to [==]. *)

From Stdlib Require Import QArith Qround Qpower Qminmax ZArith Lqa Lia.
From Stdlib Require Import Morphisms.
From S2P Require Import Prelude Number.

Local Open Scope Q_scope.

(** Division, normalized like [Qplus'] and [Qmult'] of [Qreduction]. *)
Definition Qdiv' (x y : Q) : Q := Qred (x / y).

(** [Math.round]: the closest integer, halves towards +infinity. *)
Definition js_round (x : Q) : Z := Qfloor (x + (1 # 2)).

(** Swift [rounded()] ([.toNearestOrAwayFromZero]): halves away from 0. *)
Definition swift_rounded (x : Q) : Z :=
  if Qle_bool 0 x then Qfloor (x + (1 # 2)) else Z.opp (Qfloor (- x + (1 # 2))).

#[export] Instance Q_Number : Number Q := {
  num_add := Qplus';
  num_sub := Qminus';
  num_mul := Qmult';
  num_div := Qdiv';
  num_max := Qmax;
  num_min := Qmin;
  num_pow := Qpower;
  num_round := js_round;
  num_rounded := swift_rounded;
  num_of_Z := inject_Z;
  num_eqb := Qeq_bool;
  num_leb := Qle_bool;
  num_ltb := fun x y => negb (Qle_bool y x)
}.

(** ** Compatibility of the operations with [==] *)

Lemma Qdiv'_correct (x y : Q) : Qdiv' x y == x / y.
Proof. apply Qred_correct. Qed.

#[export] Instance Qdiv'_Proper : Proper (Qeq ==> Qeq ==> Qeq) Qdiv'.
Proof. intros x x' Ex y y' Ey. rewrite !Qdiv'_correct. now rewrite Ex, Ey. Qed.

#[export] Instance js_round_Proper : Proper (Qeq ==> eq) js_round.
Proof. intros x y E. unfold js_round. apply Qfloor_comp. now rewrite E. Qed.

#[export] Instance Qle_bool_Proper : Proper (Qeq ==> Qeq ==> eq) Qle_bool.
Proof.
  intros x x' Ex y y' Ey.
  destruct (Qle_bool x y) eqn:B1, (Qle_bool x' y') eqn:B2; auto;
    apply Qle_bool_iff in B1 || apply Qle_bool_iff in B2;
    [ rewrite Ex, Ey in B1 | rewrite <- Ex, <- Ey in B2 ];
    apply Qle_bool_iff in B1 || apply Qle_bool_iff in B2; congruence.
Qed.

#[export] Instance Qeq_bool_Proper : Proper (Qeq ==> Qeq ==> eq) Qeq_bool.
Proof.
  intros x x' Ex y y' Ey.
  destruct (Qeq_bool x y) eqn:B1, (Qeq_bool x' y') eqn:B2; auto;
    apply Qeq_bool_iff in B1 || apply Qeq_bool_iff in B2;
    [ rewrite Ex, Ey in B1 | rewrite <- Ex, <- Ey in B2 ];
    apply Qeq_bool_iff in B1 || apply Qeq_bool_iff in B2; congruence.
Qed.

#[export] Instance swift_rounded_Proper : Proper (Qeq ==> eq) swift_rounded.
Proof.
  intros x y E. unfold swift_rounded. rewrite E.
  destruct (Qle_bool 0 y); [|apply f_equal]; apply Qfloor_comp; now rewrite E.
Qed.

(** ** The two roundings *)

Lemma Qfloor_half_nonneg (x : Q) : 0 <= x -> (0 <= Qfloor (x + (1 # 2)))%Z.
Proof.
  intros Hx. change 0%Z with (Qfloor 0). apply Qfloor_resp_le.
  unfold Qle in *; simpl in *; lia.
Qed.

Lemma Qfloor_half_bounds (y : Q) :
  y - (1 # 2) < inject_Z (Qfloor (y + (1 # 2))) <= y + (1 # 2).
Proof.
  pose proof (Qlt_floor (y + (1 # 2))). pose proof (Qfloor_le (y + (1 # 2))).
  rewrite inject_Z_plus in *. change (inject_Z 1) with 1 in *. split; lra.
Qed.


(** The floor of a value in [[c, c + 1)] is [c]. *)
Lemma Qfloor_unique (y : Q) (c : Z) : inject_Z c <= y < inject_Z c + 1 -> Qfloor y = c.
Proof.
  intros [Hl Hu]. apply Z.le_antisymm.
  - pose proof (Qfloor_le y) as Hf.
    assert (inject_Z (Qfloor y) < inject_Z (c + 1)) as H
      by (rewrite inject_Z_plus; change (inject_Z 1) with 1; lra).
    rewrite <- Zlt_Qlt in H. lia.
  - rewrite <- (Qfloor_Z c). now apply Qfloor_resp_le.
Qed.

(** [Math.round] of a value between two integers lies between them. *)
Lemma js_round_between (a b : Z) (x : Q) :
  inject_Z a <= x <= inject_Z b -> (a <= js_round x <= b)%Z.
Proof.
  intros [Ha Hb]. unfold js_round. split.
  - rewrite <- (Qfloor_Z a). apply Qfloor_resp_le. lra.
  - pose proof (Qfloor_le (x + (1 # 2))) as Hf.
    assert (inject_Z (Qfloor (x + (1 # 2))) < inject_Z (b + 1)) as Hl
      by (rewrite inject_Z_plus; change (inject_Z 1) with 1; lra).
    rewrite <- Zlt_Qlt in Hl. lia.
Qed.

(** On non-negative arguments [Math.round] and Swift's [rounded()] agree. *)
Lemma swift_rounded_nonneg (x : Q) : 0 <= x -> swift_rounded x = js_round x.
Proof.
  intros Hx. unfold swift_rounded, js_round.
  now rewrite (proj2 (Qle_bool_iff 0 x) Hx).
Qed.

(** On negative arguments both are [<= 0] (they differ at [-k - 1/2]). *)
Lemma js_round_neg (x : Q) : x < 0 -> (js_round x <= 0)%Z.
Proof.
  intros Hx. unfold js_round.
  destruct (Z.lt_ge_cases (Qfloor (x + (1 # 2))) 1) as [Hl|Hl]; [lia|].
  exfalso. pose proof (Qfloor_le (x + (1 # 2))).
  rewrite Zle_Qle in Hl. change (inject_Z 1) with 1 in Hl. lra.
Qed.

Lemma swift_rounded_neg (x : Q) : x < 0 -> (swift_rounded x <= 0)%Z.
Proof.
  intros Hx. unfold swift_rounded.
  destruct (Qle_bool 0 x) eqn:B.
  - apply Qle_bool_iff in B. lra.
  - assert (0 <= - x) as Hn by lra.
    pose proof (Qfloor_half_nonneg (- x) Hn). lia.
Qed.

(** ** Normalizing the instance's operations to the plain field operations *)

#[export] Existing Instance Q.max_compat.
#[export] Existing Instance Q.min_compat.

Create Rewrite HintDb qnorm.
#[export] Hint Rewrite Qplus'_correct Qminus'_correct Qmult'_correct Qdiv'_correct : qnorm.

(** The running totals of the source add with [Qplus']; up to [==] that
    is the plain sum, and a left fold of sums is the initial value plus the
    sum of the list. *)
Lemma fold_left_Qplus' (l : list Q) (a a' : Q) :
  a == a' -> List.fold_left Qplus' l a == List.fold_left Qplus l a'.
Proof.
  revert a a'; induction l as [|x l IH]; intros a a' E; simpl; [exact E|].
  apply IH. rewrite Qplus'_correct, E. reflexivity.
Qed.

Lemma fold_left_Qplus_acc (l : list Q) (a : Q) :
  List.fold_left Qplus l a == a + List.fold_left Qplus l 0.
Proof.
  revert a; induction l as [|x l IH]; intros a; simpl; [ring|].
  rewrite IH, (IH (0 + x)). ring.
Qed.

(** ** Swift's [max] and [min] are [Qmax] and [Qmin] on [Q] *)

Lemma swift_max_Q (x y : Q) : swift_max x y == Qmax x y.
Proof.
  unfold swift_max; cbn. destruct (Qle_bool x y) eqn:E.
  - apply Qle_bool_iff in E. now rewrite Q.max_r.
  - assert (y <= x) as E'.
    { apply Qnot_lt_le. intros L. apply Qlt_le_weak, Qle_bool_iff in L. congruence. }
    now rewrite Q.max_l.
Qed.

Lemma swift_min_Q (x y : Q) : swift_min x y == Qmin x y.
Proof.
  unfold swift_min; cbn. destruct (Qle_bool x y) eqn:E; cbn.
  - apply Qle_bool_iff in E. now rewrite Q.min_l.
  - assert (y <= x) as E'.
    { apply Qnot_lt_le. intros L. apply Qlt_le_weak, Qle_bool_iff in L. congruence. }
    now rewrite Q.min_r.
Qed.

#[export] Instance swift_max_Proper : Proper (Qeq ==> Qeq ==> Qeq) (@swift_max Q _).
Proof. intros x x' Ex y y' Ey. rewrite !swift_max_Q, Ex, Ey. reflexivity. Qed.

#[export] Instance swift_min_Proper : Proper (Qeq ==> Qeq ==> Qeq) (@swift_min Q _).
Proof. intros x x' Ex y y' Ey. rewrite !swift_min_Q, Ex, Ey. reflexivity. Qed.
