(* ===== verification/LoanParameters.v ===== *)
(** The input of the engine: [src/src/models/LoanParameters.ts] and
    [src/LoanCalculator/Models/LoanParameters.swift].  The payment frequency
    is an enum whose raw value is the number of payments per year. *)

From Stdlib Require Import ZArith String List EquivDec.
From S2P Require Import Prelude Number.
Import ListNotations.

Module LoanParameters.

(** [enum PaymentFrequency { MONTHLY = 12, BI_WEEKLY = 26, WEEKLY = 52 }] *)
Inductive PaymentFrequency : Type :=
| MONTHLY
| BI_WEEKLY
| WEEKLY.

#[export] Instance PaymentFrequency_EqDec : EqDec PaymentFrequency eq.
Proof. intros f g; unfold complement, equiv; destruct f, g; (left; reflexivity) || (right; discriminate). Defined.

(** The enum's raw value ([rawValue] in Swift, the number itself in TS). *)
Definition rawValue (f : PaymentFrequency) : Z :=
  match f with
  | MONTHLY => 12
  | BI_WEEKLY => 26
  | WEEKLY => 52
  end.

(** Swift's synthesized [PaymentFrequency(rawValue:)], used by [Codable]. *)
Definition PaymentFrequency_of_rawValue (z : Z) : option PaymentFrequency :=
  if Z.eqb z 12 then Some MONTHLY
  else if Z.eqb z 26 then Some BI_WEEKLY
  else if Z.eqb z 52 then Some WEEKLY
  else None.

(** TS [getPaymentFrequencyLabel]: a [switch] on the number, with a
    [default] branch. *)
Definition getPaymentFrequencyLabel (frequency : Z) : string :=
  if Z.eqb frequency 12 then "Monthly"
  else if Z.eqb frequency 26 then "Bi-Weekly"
  else if Z.eqb frequency 52 then "Weekly"
  else "Monthly".

(** Swift [var label: String]. *)
Definition label (f : PaymentFrequency) : string :=
  match f with
  | MONTHLY => "Monthly"
  | BI_WEEKLY => "Bi-Weekly"
  | WEEKLY => "Weekly"
  end.

(** TS [getAllPaymentFrequencies], Swift [PaymentFrequency.allCases]. *)
Definition getAllPaymentFrequencies : list PaymentFrequency :=
  [MONTHLY; BI_WEEKLY; WEEKLY].

Section Params.
Context {A : Type} `{Number A}.
Local Open Scope num_scope.

Record LoanParameters : Type := {
  loanAmount : A;
  interestRate : A;
  termYears : A;
  paymentsPerYear : PaymentFrequency
}.

(** TS [createDefaultLoanParameters] with its default arguments
    (an omitted argument is [None]); the Swift [init] has the same
    defaults. *)
Definition createDefaultLoanParameters
  (loanAmount0 interestRate0 termYears0 : option A)
  (paymentsPerYear0 : option PaymentFrequency) : LoanParameters :=
  {| loanAmount := match loanAmount0 with Some v => v | None => num_of_Z 350000 end;
     interestRate := match interestRate0 with Some v => v | None => num_lit 55 1 end;
     termYears := match termYears0 with Some v => v | None => num_of_Z 30 end;
     paymentsPerYear := match paymentsPerYear0 with Some v => v | None => MONTHLY end |}.
End Params.

Arguments LoanParameters : clear implicits.

End LoanParameters.
