(* ===== verification/LoanCalculator.v ===== *)
(** The amortization engine: [LoanCalculator.calculate] of
    [src/src/models/LoanCalculator.ts] and
    [src/LoanCalculator/Models/LoanCalculator.swift], written once against
    the [Number] interface.  The TS [for] loop is [payment_loop] (guard and
    fuel), the Swift [for ... in 1...n] loop is [swift_loop] (a fold over
    the range); both run the same iteration body [payment_step], which is
    parameterized by the [max]/[min] of the language.

    The theorems of this file hold for every [Number]: they use no law of
    the arithmetic, so they hold for IEEE doubles as well. *)

From Stdlib Require Import ZArith List Lia QArith.
From S2P Require Import Prelude Number ExactNumber LoanParameters.
Import ListNotations LoanParameters.

Module LoanCalculator.
Section Engine.
Context {A : Type} `{Number A}.
Local Open Scope num_scope.

(** [interface AmortizationPayment] / [struct AmortizationPayment] *)
Record AmortizationPayment : Type := {
  id : nat;
  paymentNumber : nat;
  paymentAmount : A;
  interestPaid : A;
  principalPaid : A;
  remainingBalance : A
  }.

(** [interface LoanResult] / [struct LoanResult] *)
Record LoanResult : Type := {
  periodicPayment : A;
  totalInterest : A;
  totalPaid : A;
  schedule : list AmortizationPayment
  }.

(** The four variables the loop updates ([let remainingBalance],
    [const schedule], [let totalInterest], [let totalPaid]). *)
Record LoopState : Type := {
  st_remainingBalance : A;
  st_totalInterest : A;
  st_totalPaid : A;
  st_schedule : list AmortizationPayment
  }.

(** The early return for [numberOfPayments <= 0]. *)
Definition zero_result : LoanResult :=
  {| periodicPayment := num_of_Z 0; totalInterest := num_of_Z 0;
     totalPaid := num_of_Z 0; schedule := [] |}.

(** Lines 37-42: the level payment, straight-line when the rate is 0. *)
Definition level_payment (principal ratePerPeriod : A) (numberOfPayments : Z) : A :=
  if num_eqb ratePerPeriod (num_of_Z 0) then principal /! num_of_Z numberOfPayments
  else
    let factor := num_pow (num_of_Z 1 +! ratePerPeriod) numberOfPayments in
    principal *! (ratePerPeriod *! factor) /! (factor -! num_of_Z 1).

(** Lines 44-47: the state before the first iteration. *)
Definition initial_state (principal : A) : LoopState :=
  {| st_remainingBalance := principal; st_totalInterest := num_of_Z 0;
     st_totalPaid := num_of_Z 0; st_schedule := [] |}.

(** Lines 50-74: one iteration, for payment number [paymentNumber].
    [vmax]/[vmin] are the language's [max]/[min]. *)
Definition payment_step (vmax vmin : A -> A -> A) (numberOfPayments : Z)
    (ratePerPeriod paymentAmount : A) (s : LoopState) (paymentNumber : nat)
    : LoopState :=
  let remainingBalance0 := st_remainingBalance s in
  let interestPayment := remainingBalance0 *! ratePerPeriod in
  let principalPayment0 := paymentAmount -! interestPayment in
  let principalPayment1 :=
    vmin (vmax principalPayment0 (num_of_Z 0)) remainingBalance0 in
  let principalPayment :=
    if Z.eqb (Z.of_nat paymentNumber) numberOfPayments
    then remainingBalance0 else principalPayment1 in
  let actualPayment := principalPayment +! vmax interestPayment (num_of_Z 0) in
  let remainingBalance1 := remainingBalance0 -! principalPayment in
  let remainingBalance := vmax remainingBalance1 (num_of_Z 0) in
  {| st_remainingBalance := remainingBalance;
     st_totalInterest := st_totalInterest s +! vmax interestPayment (num_of_Z 0);
     st_totalPaid := st_totalPaid s +! actualPayment;
     st_schedule := st_schedule s ++
       [ {| id := paymentNumber;
            paymentNumber := paymentNumber;
            paymentAmount := actualPayment;
            interestPaid := vmax interestPayment (num_of_Z 0);
            principalPaid := principalPayment;
            remainingBalance := remainingBalance |} ] |}.

(** Line 49: [for (paymentNumber = 1; paymentNumber <= numberOfPayments;
    paymentNumber++)], with [fuel] bounding the number of tests of the
    guard. *)
Fixpoint payment_loop (fuel : nat) (numberOfPayments : Z)
    (ratePerPeriod paymentAmount : A) (paymentNumber : nat) (s : LoopState)
    : LoopState :=
  match fuel with
  | O => s
  | S fuel' =>
      if Z.leb (Z.of_nat paymentNumber) numberOfPayments
      then payment_loop fuel' numberOfPayments ratePerPeriod paymentAmount
             (S paymentNumber)
             (payment_step num_max num_min numberOfPayments ratePerPeriod
                paymentAmount s paymentNumber)
      else s
  end.

(** [LoanCalculator.calculate] (TS, lines 20-83). *)
Definition calculate (parameters : LoanParameters A) : LoanResult :=
  let principal := num_max (loanAmount parameters) (num_of_Z 0) in
  let ppy := num_of_Z (rawValue (paymentsPerYear parameters)) in
  let numberOfPayments := num_round (termYears parameters *! ppy) in
  if Z.leb numberOfPayments 0 then zero_result
  else
    let ratePerPeriod := interestRate parameters /! num_of_Z 100 /! ppy in
    let paymentAmount := level_payment principal ratePerPeriod numberOfPayments in
    let final :=
      payment_loop (S (Z.to_nat numberOfPayments)) numberOfPayments
        ratePerPeriod paymentAmount 1 (initial_state principal) in
    {| periodicPayment := paymentAmount;
       totalInterest := st_totalInterest final;
       totalPaid := st_totalPaid final;
       schedule := st_schedule final |}.

(** Swift line 49: [for paymentNumber in 1...numberOfPayments]. *)
Definition swift_loop (numberOfPayments : Z) (ratePerPeriod paymentAmount : A)
    (s : LoopState) : LoopState :=
  fold_left
    (payment_step swift_max swift_min numberOfPayments ratePerPeriod paymentAmount)
    (seq 1 (Z.to_nat numberOfPayments)) s.

(** [LoanCalculator.calculate(for:)] (Swift, lines 20-84). *)
Definition calculate_swift (parameters : LoanParameters A) : LoanResult :=
  let principal := swift_max (loanAmount parameters) (num_of_Z 0) in
  let ppy := num_of_Z (rawValue (paymentsPerYear parameters)) in
  let numberOfPayments := num_rounded (termYears parameters *! ppy) in
  if negb (Z.ltb 0 numberOfPayments) then zero_result
  else
    let ratePerPeriod := interestRate parameters /! num_of_Z 100 /! ppy in
    let paymentAmount := level_payment principal ratePerPeriod numberOfPayments in
    let final := swift_loop numberOfPayments ratePerPeriod paymentAmount
                   (initial_state principal) in
    {| periodicPayment := paymentAmount;
       totalInterest := st_totalInterest final;
       totalPaid := st_totalPaid final;
       schedule := st_schedule final |}.

(** The payment count both implementations derive from the parameters. *)
Definition payment_count (parameters : LoanParameters A) : Z :=
  num_round (termYears parameters *! num_of_Z (rawValue (paymentsPerYear parameters))).

End Engine.

Arguments AmortizationPayment : clear implicits.
Arguments LoanResult : clear implicits.
Arguments LoopState : clear implicits.

(** ** The shape of the result, for every arithmetic *)

Section Shape.
Context {A : Type} `{Number A}.
Local Open Scope num_scope.

(** One run of the iteration body over the payment numbers [ks] appends
    one row per number, numbered by it, and adds each row's interest and
    payment to the running totals in order. *)
Lemma payment_steps_shape (vmax vmin : A -> A -> A) (n : Z) (r pmt : A)
    (ks : list nat) (s : LoopState A) :
  exists rows,
    st_schedule (fold_left (payment_step vmax vmin n r pmt) ks s) = st_schedule s ++ rows
    /\ map paymentNumber rows = ks /\ map id rows = ks
    /\ st_totalInterest (fold_left (payment_step vmax vmin n r pmt) ks s)
       = fold_left num_add (map interestPaid rows) (st_totalInterest s)
    /\ st_totalPaid (fold_left (payment_step vmax vmin n r pmt) ks s)
       = fold_left num_add (map paymentAmount rows) (st_totalPaid s).
Proof.
  revert s; induction ks as [|k ks IH]; intros s.
  - exists []. simpl. rewrite app_nil_r. auto.
  - destruct (IH (payment_step vmax vmin n r pmt s k))
      as (rows & Hs & Hn & Hd & Hi & Hp).
    eexists (_ :: rows). cbn [fold_left map]. rewrite Hs, Hn, Hd, Hi, Hp.
    split; [cbn [payment_step st_schedule]; rewrite <- app_assoc; reflexivity|].
    repeat split; reflexivity.
Qed.

(** The TS loop run from payment number [k] with enough fuel is the
    iteration body folded over [k .. n]. *)
Lemma payment_loop_fold (fuel : nat) (n : Z) (r pmt : A) (k : nat) (s : LoopState A) :
  (1 <= k)%nat -> (Z.to_nat n + 1 <= fuel + k)%nat ->
  payment_loop fuel n r pmt k s
  = fold_left (payment_step num_max num_min n r pmt) (seq k (Z.to_nat n + 1 - k)) s.
Proof.
  revert k s; induction fuel as [|fuel IH]; intros k s Hk Hf; simpl.
  - now replace (Z.to_nat n + 1 - k)%nat with 0%nat by lia.
  - destruct (Z.leb (Z.of_nat k) n) eqn:G; inv_bool.
    + replace (Z.to_nat n + 1 - k)%nat with (S (Z.to_nat n + 1 - S k)) by lia.
      simpl. apply IH; lia.
    + now replace (Z.to_nat n + 1 - k)%nat with 0%nat by lia.
Qed.

(** C7 (termination): the TS [for] loop leaves through its own guard
    after exactly [n] iterations: with any fuel of at least [n] it
    computes the iteration body folded over the payment numbers [1..n]. *)
Theorem payment_loop_terminates (fuel : nat) (n : Z) (r pmt : A) (s : LoopState A) :
  (Z.to_nat n <= fuel)%nat ->
  payment_loop fuel n r pmt 1 s
  = fold_left (payment_step num_max num_min n r pmt) (seq 1 (Z.to_nat n)) s.
Proof.
  intros Hf. rewrite payment_loop_fold by lia.
  now rewrite Nat.add_sub.
Qed.

End Shape.

(** [unfold_calculate p] exposes the two branches of [calculate p] and
    replaces the TS loop by its fold. *)
Ltac unfold_calculate p :=
  unfold calculate, payment_count;
  destruct (Z.leb (num_round (num_mul (termYears p) (num_of_Z (rawValue (paymentsPerYear p))))) 0)
    eqn:G; inv_bool;
  [ | rewrite payment_loop_fold, Nat.add_sub by lia ].

Section Claims.
Context {A : Type} `{Number A}.
Local Open Scope num_scope.

(** C2 (functional): the schedule has one row per payment, numbered
    [1, 2, ..., n] in order (field [paymentNumber] and [id]), where [n]
    is [Math.round(termYears * paymentsPerYear)], or no row at all when
    that is not positive.  In particular its length is [max n 0]. *)
Theorem calculate_schedule_numbering (p : LoanParameters A) :
  map paymentNumber (schedule (calculate p)) = seq 1 (Z.to_nat (payment_count p))
  /\ map id (schedule (calculate p)) = seq 1 (Z.to_nat (payment_count p)).
Proof.
  unfold_calculate p.
  - unfold payment_count. now replace (Z.to_nat _) with 0%nat by lia.
  - edestruct payment_steps_shape as (rows & Hs & Hn & Hd & _).
    cbn [schedule]. rewrite Hs. auto.
Qed.

(** C5 (functional): [totalInterest] and [totalPaid] are exactly the sums
    of the rows' [interestPaid] and [paymentAmount], added from 0 in
    schedule order, as the loop's [+=] does; this holds bit for bit in
    any arithmetic, floating point included. *)
Theorem calculate_totals_are_sums (p : LoanParameters A) :
  totalInterest (calculate p)
    = fold_left num_add (map interestPaid (schedule (calculate p))) (num_of_Z 0)
  /\ totalPaid (calculate p)
    = fold_left num_add (map paymentAmount (schedule (calculate p))) (num_of_Z 0).
Proof.
  unfold_calculate p.
  - auto.
  - edestruct payment_steps_shape as (rows & Hs & _ & _ & Hi & Hp).
    cbn [schedule totalInterest totalPaid]. rewrite Hs, Hi, Hp. auto.
Qed.

(** C8 (error): a payment count [Math.round(termYears * paymentsPerYear)]
    that is not positive takes the early return: zero payment, zero
    totals, empty schedule. *)
Theorem calculate_zero_result (p : LoanParameters A) :
  (payment_count p <= 0)%Z -> calculate p = zero_result.
Proof.
  unfold payment_count, calculate. intros Hn.
  now rewrite (proj2 (Z.leb_le _ _) Hn).
Qed.

(** The payment [calculate] reports is the level payment of lines 37-42,
    computed before the loop and never adjusted by it. *)
Lemma calculate_periodicPayment (p : LoanParameters A) :
  (0 < payment_count p)%Z ->
  periodicPayment (calculate p)
  = level_payment (num_max (loanAmount p) (num_of_Z 0))
      (interestRate p /! num_of_Z 100 /! num_of_Z (rawValue (paymentsPerYear p)))
      (payment_count p).
Proof.
  unfold payment_count, calculate. intros Hn.
  now rewrite (proj2 (Z.leb_gt _ _) Hn).
Qed.

End Claims.

(** ** Witnesses over exact arithmetic *)

(** Spec scenario 5: a term of 0 years. *)
Definition zero_term_loan : LoanParameters Q :=
  {| loanAmount := 45000; interestRate := 725 # 100; termYears := 0;
     paymentsPerYear := MONTHLY |}.

Lemma calculate_zero_result_witness :
  (payment_count zero_term_loan <= 0)%Z /\ calculate zero_term_loan = zero_result.
Proof.
  split; [vm_compute; congruence|].
  apply calculate_zero_result. vm_compute. congruence.
Defined.

Lemma payment_loop_terminates_witness :
  (Z.to_nat 3 <= 5)%nat /\
  payment_loop 5 3 (1 # 100) (34002 # 100) 1 (initial_state (1000 : Q))
  = fold_left (payment_step num_max num_min 3 (1 # 100) (34002 # 100))
      (seq 1 (Z.to_nat 3)) (initial_state (1000 : Q)).
Proof.
  split; [simpl; lia|].
  apply payment_loop_terminates. simpl. lia.
Defined.

End LoanCalculator.
