(* ===== verification/AmortizationSpec.v ===== *)
(** The contract of an amortization schedule and the proof that the engine
    meets it in exact arithmetic.

    [amortizes rate k b rows] says what a schedule that starts at payment
    number [k] with outstanding balance [b] promises: each row charges the
    interest [max(balance * rate, 0)] of the balance it starts from, pays a
    principal portion between 0 and that balance, pays in total principal
    plus interest, leaves the balance reduced by exactly the principal
    portion, and the last row clears the balance.  The consequences a
    client of [calculate] relies on (final balance 0, monotone balances,
    conservation of principal, [totalPaid = principal + totalInterest]) are
    proved from the contract alone; [calculate_refines_spec] discharges it
    for the TS engine over [Q].  With a rate of at most 0 the clamps
    [Math.max(interestPayment, 0)] of lines 57, 63 and 70 make every row
    interest-free: a negative rate is not honoured. *)

From Stdlib Require Import QArith Qminmax Qreduction Lqa Lia List ZArith.
From S2P Require Import Prelude Number ExactNumber LoanParameters LoanCalculator.
Import ListNotations LoanParameters LoanCalculator.
Local Open Scope num_scope.

Local Open Scope Q_scope.

Module AmortizationSpec.

Abbreviation Row := (AmortizationPayment Q).

(** One row, starting from balance [b], for payment number [k]. *)
Definition row_ok (rate b : Q) (k : nat) (row : Row) : Prop :=
  paymentNumber row = k
  /\ interestPaid row == Qmax (b * rate) 0
  /\ 0 <= principalPaid row <= b
  /\ paymentAmount row == principalPaid row + interestPaid row
  /\ remainingBalance row == b - principalPaid row.

Inductive amortizes (rate : Q) : nat -> Q -> list Row -> Prop :=
| am_last k b row :
    row_ok rate b k row -> principalPaid row == b ->
    amortizes rate k b [row]
| am_cons k b row rows :
    row_ok rate b k row ->
    amortizes rate (S k) (remainingBalance row) rows ->
    amortizes rate k b (row :: rows).

(** Balances that never increase and never go below 0, starting at [b]. *)
Fixpoint nonincreasing_from (b : Q) (l : list Q) : Prop :=
  match l with
  | [] => True
  | x :: l' => 0 <= x /\ x <= b /\ nonincreasing_from x l'
  end.

(** The last row of a schedule, if any ([schedule[schedule.length - 1]]). *)
Definition final_row (rows : list Row) : option Row := last (map Some rows) None.

(** The values the engine starts from ([principal], [ratePerPeriod]). *)
Definition principal_of (p : LoanParameters Q) : Q :=
  num_max (loanAmount p) (num_of_Z 0).

Definition rate_per_period (p : LoanParameters Q) : Q :=
  num_div (num_div (interestRate p) (num_of_Z 100))
    (num_of_Z (rawValue (paymentsPerYear p))).

(** ** Consequences of the contract *)

Lemma amortizes_final_row rate k b rows :
  amortizes rate k b rows -> exists row, final_row rows = Some row /\ remainingBalance row == 0.
Proof.
  unfold final_row.
  induction 1 as [k b row (_ & _ & _ & _ & Hb) Hp|k b row rows Hr Ha IH].
  - exists row. split; [reflexivity|]. rewrite Hb, Hp. ring.
  - destruct rows; [inversion Ha|exact IH].
Qed.

Lemma amortizes_nonincreasing rate k b rows :
  amortizes rate k b rows -> nonincreasing_from b (map remainingBalance rows).
Proof.
  induction 1 as [k b row (_ & _ & Hp & _ & Hb) _
                 |k b row rows (_ & _ & Hp & _ & Hb) Ha IH]; simpl;
    (split; [|split]); try (rewrite Hb; lra); [exact I|exact IH].
Qed.

Lemma amortizes_principal_sum rate k b rows :
  amortizes rate k b rows -> fold_left Qplus (map principalPaid rows) 0 == b.
Proof.
  induction 1 as [k b row _ Hp|k b row rows (_ & _ & _ & _ & Hb) Ha IH];
    simpl; try rewrite (fold_left_Qplus_acc _ (0 + _)).
  - rewrite Hp. ring.
  - rewrite IH, Hb. ring.
Qed.

Lemma amortizes_payment_sum rate k b rows :
  amortizes rate k b rows ->
  fold_left Qplus (map paymentAmount rows) 0
  == fold_left Qplus (map principalPaid rows) 0
     + fold_left Qplus (map interestPaid rows) 0.
Proof.
  induction 1 as [k b row (_ & _ & _ & Hpay & _) _
                 |k b row rows (_ & _ & _ & Hpay & _) Ha IH];
    simpl; try rewrite !(fold_left_Qplus_acc _ (0 + _)); rewrite Hpay;
    [|rewrite IH]; ring.
Qed.

(** ** One iteration of the engine over [Q] *)

Lemma payment_step_row (n : Z) (r pmt : Q) (s : LoopState Q) (k : nat) :
  0 <= st_remainingBalance s ->
  exists row,
    st_schedule (payment_step num_max num_min n r pmt s k) = st_schedule s ++ [row]
    /\ row_ok r (st_remainingBalance s) k row
    /\ st_remainingBalance (payment_step num_max num_min n r pmt s k) = remainingBalance row
    /\ (Z.of_nat k = n -> principalPaid row == st_remainingBalance s).
Proof.
  destruct s as [b ti tp sc]; cbn [st_remainingBalance]; intros Hb.
  eexists. split; [reflexivity|].
  unfold row_ok, payment_step.
  cbn [st_remainingBalance st_schedule paymentNumber interestPaid principalPaid
       paymentAmount remainingBalance num_max num_min num_sub num_mul num_add
       num_of_Z Q_Number].
  split; [|split; [reflexivity|]];
    destruct (Z.of_nat k =? n)%Z eqn:G;
    rewrite ?Qmult'_correct, ?Qplus'_correct, ?Qminus'_correct;
    change (inject_Z 0) with 0.
  - repeat split; try reflexivity; try lra. apply Q.max_l. lra.
  - assert (Hpp : 0 <= Qmin (Qmax (pmt - b * r) 0) b <= b).
    { split; [apply Q.min_glb; [apply Q.le_max_r|exact Hb]|apply Q.le_min_r]. }
    repeat split; try reflexivity; try apply Hpp.
    apply Q.max_l. lra.
  - reflexivity.
  - intros E. apply Z.eqb_neq in G. contradiction.
Qed.

(** The iterations [k .. n] of the engine, from any state with a
    non-negative balance, append a schedule that amortizes that balance. *)
Lemma payment_steps_amortize (n : Z) (r pmt : Q) (m k : nat) (s : LoopState Q) :
  (1 <= m)%nat -> (k + m - 1 = Z.to_nat n)%nat -> (0 < n)%Z ->
  0 <= st_remainingBalance s ->
  exists rows,
    st_schedule (fold_left (payment_step num_max num_min n r pmt) (seq k m) s)
    = st_schedule s ++ rows
    /\ amortizes r k (st_remainingBalance s) rows.
Proof.
  revert k s; induction m as [|m IH]; intros k s Hm Hk Hn Hb; [lia|].
  destruct (payment_step_row n r pmt s k Hb) as (row & Hs & Hok & Hrb & Hlast).
  cbn [seq fold_left].
  destruct m as [|m].
  - exists [row]. cbn [seq fold_left]. split; [exact Hs|].
    apply am_last; [exact Hok|apply Hlast; lia].
  - assert (Hb' : 0 <= st_remainingBalance (payment_step num_max num_min n r pmt s k)).
    { rewrite Hrb. destruct Hok as (_ & _ & Hp & _ & Hr). rewrite Hr. lra. }
    destruct (IH (S k) _ ltac:(lia) ltac:(lia) Hn Hb') as (rows & Hs' & Ha).
    exists (row :: rows). split.
    + rewrite Hs', Hs, <- app_assoc. reflexivity.
    + apply am_cons; [exact Hok|]. rewrite <- Hrb. exact Ha.
Qed.

(** ** The engine meets the contract *)

Lemma amortizes_interest_nonneg rate k b rows :
  amortizes rate k b rows -> 0 <= fold_left Qplus (map interestPaid rows) 0.
Proof.
  induction 1 as [k b row (_ & Hi & _) _|k b row rows (_ & Hi & _) Ha IH];
    simpl; try rewrite (fold_left_Qplus_acc _ (0 + _));
    rewrite Hi; pose proof (Q.le_max_r (b * rate) 0); lra.
Qed.

(** At a rate of at most 0 no row charges interest: the balance a row
    starts from is never negative, so [max(balance * rate, 0)] is 0. *)
Lemma amortizes_no_interest rate k b rows :
  rate <= 0 -> amortizes rate k b rows ->
  Forall (fun row => interestPaid row == 0 /\ paymentAmount row == principalPaid row) rows.
Proof.
  intros Hr. induction 1 as [k b row (_ & Hi & Hb & Hpay & _) _
                           |k b row rows (_ & Hi & Hb & Hpay & _) _ IH];
    [constructor; [|constructor]|constructor; [|exact IH]];
    (assert (H0 : 0 <= b * - rate) by (apply Qmult_le_0_compat; lra);
     setoid_replace (b * - rate) with (- (b * rate)) in H0 by ring;
     assert (Hz : interestPaid row == 0) by (rewrite Hi; apply Q.max_r; lra);
     split; [exact Hz|rewrite Hpay, Hz; ring]).
Qed.

Lemma fold_left_Qplus_zeros (l : list Q) :
  Forall (fun x => x == 0) l -> fold_left Qplus l 0 == 0.
Proof.
  induction 1 as [|x l Hx _ IH]; [reflexivity|].
  cbn [fold_left]. rewrite (fold_left_Qplus_acc _ (0 + x)), IH, Hx. reflexivity.
Qed.

Lemma rate_per_period_nonpos (p : LoanParameters Q) :
  interestRate p <= 0 -> rate_per_period p <= 0.
Proof.
  intros H. unfold rate_per_period. cbn [num_div num_of_Z Q_Number].
  rewrite !Qdiv'_correct.
  apply Qle_shift_div_r; [destruct (paymentsPerYear p); reflexivity|rewrite Qmult_0_l].
  apply Qle_shift_div_r; [reflexivity|rewrite Qmult_0_l; exact H].
Qed.

(** [empty_run Hn] rewrites [calculate p] to its early return, given
    [Hn : payment_count p <= 0]. *)
Ltac empty_run Hn :=
  unfold calculate, payment_count in *; rewrite (proj2 (Z.leb_le _ _) Hn).

(** C1 (refinement): in exact arithmetic, whenever the payment count is
    positive, the schedule [calculate] returns amortizes the clamped
    principal [max(loanAmount, 0)] at [ratePerPeriod], starting from
    payment number 1: every row charges [max(balance * rate, 0)], pays a
    principal portion in [0, balance] and their sum, reduces the balance
    by exactly that portion, and the last row clears it. *)
Theorem calculate_refines_spec (p : LoanParameters Q) :
  (0 < payment_count p)%Z ->
  amortizes (rate_per_period p) 1 (principal_of p) (schedule (calculate p)).
Proof.
  intros Hn. unfold payment_count in Hn. unfold_calculate p; [lia|].
  set (n := num_round (termYears p *! num_of_Z (rawValue (paymentsPerYear p)))) in *.
  destruct (payment_steps_amortize n (rate_per_period p)
              (level_payment (principal_of p) (rate_per_period p) n)
              (Z.to_nat n) 1 (initial_state (principal_of p)))
    as (rows & Hs & Ha); [lia|lia|exact Hn|apply Q.le_max_r|].
  exact (eq_ind_r (amortizes _ 1 _) Ha Hs).
Qed.

(** What one run of the engine produces when the payment count is
    positive: a schedule meeting the contract, and totals that are the
    engine's in-order sums of its rows. *)
Lemma calculate_run (p : LoanParameters Q) :
  (0 < payment_count p)%Z ->
  amortizes (rate_per_period p) 1 (principal_of p) (schedule (calculate p))
  /\ totalInterest (calculate p)
     == fold_left Qplus (map interestPaid (schedule (calculate p))) 0
  /\ totalPaid (calculate p)
     == fold_left Qplus (map paymentAmount (schedule (calculate p))) 0.
Proof.
  intros Hn. unfold payment_count in Hn. unfold_calculate p; [lia|].
  set (n := num_round (termYears p *! num_of_Z (rawValue (paymentsPerYear p)))) in *.
  fold (principal_of p) (rate_per_period p).
  set (pmt := level_payment (principal_of p) (rate_per_period p) n).
  destruct (payment_steps_amortize n (rate_per_period p) pmt
              (Z.to_nat n) 1 (initial_state (principal_of p)))
    as (rows & Hs & Ha); [lia|lia|exact Hn|apply Q.le_max_r|].
  destruct (payment_steps_shape num_max num_min n (rate_per_period p) pmt
              (seq 1 (Z.to_nat n)) (initial_state (principal_of p)))
    as (rows' & Hs' & _ & _ & Hi & Hp).
  cbn [schedule totalInterest totalPaid]. rewrite Hs, Hi, Hp.
  rewrite Hs in Hs'. cbn [st_schedule initial_state app] in Hs'. subst rows'.
  split; [exact Ha|split; apply fold_left_Qplus'; reflexivity].
Qed.

(** What the borrower pays in total: the principal and the interest. *)
Lemma total_paid_split (p : LoanParameters Q) :
  (0 < payment_count p)%Z ->
  totalPaid (calculate p) == principal_of p + totalInterest (calculate p).
Proof.
  intros Hn. destruct (calculate_run p Hn) as (Ha & Hi & Hp).
  rewrite Hp, Hi, (amortizes_payment_sum _ _ _ _ Ha),
    (amortizes_principal_sum _ _ _ _ Ha).
  reflexivity.
Qed.

(** C3 (invariant): in exact arithmetic a positive payment count gives a
    non-empty schedule whose last row leaves a remaining balance of
    exactly 0. *)
Theorem calculate_final_balance_zero (p : LoanParameters Q) :
  (0 < payment_count p)%Z ->
  exists row, final_row (schedule (calculate p)) = Some row /\ remainingBalance row == 0.
Proof.
  intros Hn. eapply amortizes_final_row, (proj1 (calculate_run p Hn)).
Qed.

(** C4 (invariant): the remaining balances, read in schedule order and
    starting from the principal, never increase and never go below 0. *)
Theorem calculate_balances_nonincreasing (p : LoanParameters Q) :
  nonincreasing_from (principal_of p)
    (map remainingBalance (schedule (calculate p))).
Proof.
  destruct (Z.lt_ge_cases 0 (payment_count p)) as [Hn|Hn].
  - eapply amortizes_nonincreasing, (proj1 (calculate_run p Hn)).
  - now empty_run Hn.
Qed.

(** C6 (invariant): the principal portions of the rows add up to the
    principal [max(loanAmount, 0)]: the schedule repays the loan, no more
    and no less. *)
Theorem calculate_principal_conservation (p : LoanParameters Q) :
  (0 < payment_count p)%Z ->
  fold_left Qplus (map principalPaid (schedule (calculate p))) 0 == principal_of p.
Proof.
  intros Hn. eapply amortizes_principal_sum, (proj1 (calculate_run p Hn)).
Qed.

(** C9 (functional): what the borrower pays in total is the principal
    plus the total interest. *)
Theorem calculate_total_paid (p : LoanParameters Q) :
  (0 < payment_count p)%Z ->
  totalPaid (calculate p) == principal_of p + totalInterest (calculate p).
Proof. exact (total_paid_split p). Qed.

(** C30 (functional): a rate of at most 0, which the form lets through,
    is not honoured either way: the engine charges no interest on any row
    ([Math.max(interestPayment, 0)] with a balance that is never
    negative), so every row pays exactly its principal portion, the total
    interest is 0 and the total paid is the principal: a negative rate
    does not reduce what the borrower repays. *)
Theorem nonpositive_rate_no_interest (p : LoanParameters Q) :
  interestRate p <= 0 -> (0 < payment_count p)%Z ->
  Forall (fun row => interestPaid row == 0 /\ paymentAmount row == principalPaid row)
    (schedule (calculate p))
  /\ totalInterest (calculate p) == 0 /\ totalPaid (calculate p) == principal_of p.
Proof.
  intros Hr Hn. destruct (calculate_run p Hn) as (Ha & Hi & _).
  pose proof (amortizes_no_interest _ _ _ _ (rate_per_period_nonpos p Hr) Ha) as Hz.
  assert (HI : totalInterest (calculate p) == 0).
  { rewrite Hi. apply fold_left_Qplus_zeros, Forall_map.
    eapply Forall_impl; [|exact Hz]. now intros row [H _]. }
  split; [exact Hz|]. split; [exact HI|]. rewrite (total_paid_split p Hn), HI. ring.
Qed.

End AmortizationSpec.

(** ** Witnesses: 1000 at 12% a year, paid monthly for a quarter *)

Definition quarter_loan : LoanParameters Q :=
  {| loanAmount := 1000; interestRate := 12; termYears := 1 # 4;
     paymentsPerYear := MONTHLY |}.

Lemma calculate_refines_spec_witness :
  (0 < payment_count quarter_loan)%Z /\
  AmortizationSpec.amortizes (AmortizationSpec.rate_per_period quarter_loan) 1
    (AmortizationSpec.principal_of quarter_loan) (schedule (calculate quarter_loan)).
Proof.
  split; [vm_compute; reflexivity|].
  apply AmortizationSpec.calculate_refines_spec. vm_compute. reflexivity.
Defined.

Lemma calculate_final_balance_zero_witness :
  (0 < payment_count quarter_loan)%Z /\
  exists row, AmortizationSpec.final_row (schedule (calculate quarter_loan)) = Some row
              /\ remainingBalance row == 0.
Proof.
  split; [vm_compute; reflexivity|].
  apply AmortizationSpec.calculate_final_balance_zero. vm_compute. reflexivity.
Defined.

Lemma calculate_principal_conservation_witness :
  (0 < payment_count quarter_loan)%Z /\
  fold_left Qplus (map principalPaid (schedule (calculate quarter_loan))) 0
  == AmortizationSpec.principal_of quarter_loan.
Proof.
  split; [vm_compute; reflexivity|].
  apply AmortizationSpec.calculate_principal_conservation. vm_compute. reflexivity.
Defined.

(** The quarter-year loan at a rate of -12%. *)
Definition quarter_loan_negative : LoanParameters Q :=
  {| loanAmount := 1000; interestRate := -12; termYears := 1 # 4;
     paymentsPerYear := MONTHLY |}.

Lemma nonpositive_rate_no_interest_witness :
  interestRate quarter_loan_negative <= 0 /\ (0 < payment_count quarter_loan_negative)%Z /\
  totalInterest (calculate quarter_loan_negative) == 0
  /\ totalPaid (calculate quarter_loan_negative) == AmortizationSpec.principal_of quarter_loan_negative.
Proof.
  assert (Hr : interestRate quarter_loan_negative <= 0) by discriminate.
  assert (Hn : (0 < payment_count quarter_loan_negative)%Z) by (vm_compute; reflexivity).
  split; [exact Hr|]. split; [exact Hn|].
  exact (proj2 (AmortizationSpec.nonpositive_rate_no_interest _ Hr Hn)).
Defined.

Lemma calculate_total_paid_witness :
  (0 < payment_count quarter_loan)%Z /\
  totalPaid (calculate quarter_loan)
  == AmortizationSpec.principal_of quarter_loan + totalInterest (calculate quarter_loan).
Proof.
  split; [vm_compute; reflexivity|].
  apply AmortizationSpec.calculate_total_paid. vm_compute. reflexivity.
Defined.
