(* ===== verification/Platforms.v ===== *)
(** The two implementations of the engine agree in exact arithmetic.

    [calculate] (TS) and [calculate_swift] (Swift) differ in three places:
    [Math.round] rounds halves up, Swift's [rounded()] away from zero; the
    guard is [n <= 0] in TS and [n > 0] in Swift; and [Math.max]/[Math.min]
    are replaced by Swift's [max]/[min] ([y >= x ? y : x], [y < x ? y : x]).
    Over [Q] none of these is observable: the results are equal field by
    field up to [==].  Results are compared with the equivalences
    [row_eqv] and [result_eqv], for which the operations are [Proper]. *)

From Stdlib Require Import QArith Qminmax Qreduction Lqa Lia List ZArith.
From Stdlib Require Import Morphisms RelationClasses.
From S2P Require Import Prelude Number ExactNumber LoanParameters LoanCalculator.
Import ListNotations LoanParameters LoanCalculator.
Local Open Scope num_scope.

Local Open Scope Q_scope.

Module Platforms.

Abbreviation Row := (AmortizationPayment Q).

Definition row_eqv (a b : Row) : Prop :=
  id a = id b /\ paymentNumber a = paymentNumber b
  /\ paymentAmount a == paymentAmount b /\ interestPaid a == interestPaid b
  /\ principalPaid a == principalPaid b /\ remainingBalance a == remainingBalance b.

Definition result_eqv (r1 r2 : LoanResult Q) : Prop :=
  periodicPayment r1 == periodicPayment r2
  /\ totalInterest r1 == totalInterest r2
  /\ totalPaid r1 == totalPaid r2
  /\ Forall2 row_eqv (schedule r1) (schedule r2).

Definition state_eqv (s1 s2 : LoopState Q) : Prop :=
  st_remainingBalance s1 == st_remainingBalance s2
  /\ st_totalInterest s1 == st_totalInterest s2
  /\ st_totalPaid s1 == st_totalPaid s2
  /\ Forall2 row_eqv (st_schedule s1) (st_schedule s2).

#[export] Instance row_eqv_Equivalence : Equivalence row_eqv.
Proof.
  split.
  - intros a. repeat split; reflexivity.
  - intros a b (H1 & H2 & H3 & H4 & H5 & H6). repeat split; symmetry; assumption.
  - intros a b c (H1 & H2 & H3 & H4 & H5 & H6) (G1 & G2 & G3 & G4 & G5 & G6).
    repeat split; etransitivity; eassumption.
Qed.

(** ** One iteration and the loop *)

Lemma payment_step_equiv (n : Z) (r pmt1 pmt2 : Q) (s1 s2 : LoopState Q) (k : nat) :
  pmt1 == pmt2 -> state_eqv s1 s2 ->
  state_eqv (payment_step num_max num_min n r pmt1 s1 k)
            (payment_step swift_max swift_min n r pmt2 s2 k).
Proof.
  destruct s1 as [b1 i1 t1 c1], s2 as [b2 i2 t2 c2].
  intros Hpmt (Hb & Hi & Ht & Hc). unfold state_eqv, payment_step.
  cbn [st_remainingBalance st_totalInterest st_totalPaid st_schedule
       num_max num_min num_sub num_mul num_add num_of_Z Q_Number] in *.
  destruct (Z.of_nat k =? n)%Z;
    (split; [|split; [|split]]);
    [ | | | apply Forall2_app; [exact Hc|apply Forall2_cons; [|apply Forall2_nil]]
    | | | | apply Forall2_app; [exact Hc|apply Forall2_cons; [|apply Forall2_nil]] ];
    unfold row_eqv; cbn [id paymentNumber paymentAmount interestPaid
                          principalPaid remainingBalance];
    repeat split; rewrite ?swift_min_Q, ?swift_max_Q, ?Hb, ?Hi, ?Ht, ?Hpmt; reflexivity.
Qed.

Lemma payment_steps_equiv (n : Z) (r pmt1 pmt2 : Q) (ks : list nat) (s1 s2 : LoopState Q) :
  pmt1 == pmt2 -> state_eqv s1 s2 ->
  state_eqv (fold_left (payment_step num_max num_min n r pmt1) ks s1)
            (fold_left (payment_step swift_max swift_min n r pmt2) ks s2).
Proof.
  intros Hp. revert s1 s2; induction ks as [|k ks IH]; intros s1 s2 Hs; [exact Hs|].
  apply IH, payment_step_equiv; assumption.
Qed.

#[export] Instance level_payment_Proper :
  Proper (Qeq ==> eq ==> eq ==> Qeq) (@level_payment Q _).
Proof.
  intros p p' Ep r r' <- n n' <-. unfold level_payment.
  destruct (num_eqb r (num_of_Z 0)); cbn -[Qdiv' Qmult' Qplus' Qminus' Qpower]; now rewrite Ep.
Qed.

(** The TS guard [n <= 0] on [Math.round(x)] and the Swift guard [n > 0]
    on [rounded()] select the same branch, with the same [n]. *)
Lemma payment_count_guards (x : Q) :
  (js_round x <=? 0)%Z = negb (0 <? swift_rounded x)%Z
  /\ ((0 < js_round x)%Z -> swift_rounded x = js_round x).
Proof.
  destruct (Qlt_le_dec x 0) as [Hx|Hx].
  - pose proof (js_round_neg x Hx). pose proof (swift_rounded_neg x Hx).
    split; [|lia]. apply Z.leb_le in H. rewrite H. symmetry.
    apply negb_true_iff, Z.ltb_ge. lia.
  - rewrite (swift_rounded_nonneg x Hx). split; [|reflexivity].
    destruct (Z.leb_spec (js_round x) 0); destruct (Z.ltb_spec 0 (js_round x));
      cbn; lia || reflexivity.
Qed.

(** The two engines over [Q], field by field and row by row. *)
Lemma engines_agree (p : LoanParameters Q) :
  result_eqv (calculate p) (calculate_swift p).
Proof.
  unfold calculate, calculate_swift.
  set (x := num_mul (termYears p) (num_of_Z (rawValue (paymentsPerYear p)))).
  destruct (payment_count_guards x) as [Hg Heq].
  cbn [num_round num_rounded Q_Number]. rewrite <- Hg.
  destruct (Z.leb_spec (js_round x) 0) as [Hle|Hlt].
  - repeat split; try reflexivity; constructor.
  - rewrite (Heq Hlt). rewrite payment_loop_fold, Nat.add_sub by lia.
    unfold swift_loop.
    assert (Hp : num_max (loanAmount p) (num_of_Z 0)
                 == swift_max (loanAmount p) (num_of_Z 0)).
    { rewrite swift_max_Q. reflexivity. }
    destruct (payment_steps_equiv (js_round x)
      (interestRate p /! num_of_Z 100 /! num_of_Z (rawValue (paymentsPerYear p)))%num
      (level_payment (num_max (loanAmount p) (num_of_Z 0))
         (interestRate p /! num_of_Z 100 /! num_of_Z (rawValue (paymentsPerYear p)))%num
         (js_round x))
      (level_payment (swift_max (loanAmount p) (num_of_Z 0))
         (interestRate p /! num_of_Z 100 /! num_of_Z (rawValue (paymentsPerYear p)))%num
         (js_round x))
      (seq 1 (Z.to_nat (js_round x)))
      (initial_state (num_max (loanAmount p) (num_of_Z 0)))
      (initial_state (swift_max (loanAmount p) (num_of_Z 0))))
      as (Hb & Hi & Ht & Hc).
    + now rewrite Hp.
    + repeat split; cbn [initial_state st_remainingBalance st_totalInterest
                          st_totalPaid st_schedule]; try reflexivity; [exact Hp|constructor].
    + repeat split; cbn [periodicPayment totalInterest totalPaid schedule];
        [rewrite Hp; reflexivity|exact Hi|exact Ht|exact Hc].
Qed.

(** C10 (equivalence): in exact arithmetic the React Native engine
    ([LoanCalculator.ts]) and the SwiftUI engine ([LoanCalculator.swift])
    return the same result for every input: same payment, same totals,
    and schedules equal row by row. *)
Theorem calculate_swift_equiv (p : LoanParameters Q) :
  result_eqv (calculate p) (calculate_swift p).
Proof. exact (engines_agree p). Qed.

End Platforms.
