(* ===== verification/App.v ===== *)
(** The three loan types the apps offer: [loanConfigs] of [src/App.tsx]
    (React Native) and the three [@State] parameters of
    [src/LoanCalculator/ContentView.swift] (SwiftUI), and the engine's
    results on them in exact arithmetic. *)

From Stdlib Require Import QArith ZArith String List Lia EquivDec.
From S2P Require Import Prelude Number ExactNumber LoanParameters LoanCalculator.
Import ListNotations LoanParameters LoanCalculator.

Module App.

(** [type LoanType = 'residential' | 'commercial' | 'vehicle'] *)
Inductive LoanType : Type :=
| residential
| commercial
| vehicle.

#[export] Instance LoanType_EqDec : EqDec LoanType eq.
Proof. intros s t; unfold complement, equiv; destruct s, t; (left; reflexivity) || (right; discriminate). Defined.

Section Configs.
Context {A : Type} `{Number A}.

Record LoanConfig : Type := {
  title : string;
  description : string;
  parameters : LoanParameters A
}.

(** [const loanConfigs] (App.tsx lines 12-28); the same parameters
    initialise [residentialParameters], [commercialParameters] and
    [vehicleParameters] in ContentView.swift. *)
Definition loanConfigs (t : LoanType) : LoanConfig :=
  match t with
  | residential =>
      {| title := "Residential Loan";
         description := "Calculate payments for a residential mortgage.";
         parameters := createDefaultLoanParameters (Some (num_of_Z 450000))
                         (Some (num_lit 575 2)) (Some (num_of_Z 30)) (Some MONTHLY) |}
  | commercial =>
      {| title := "Commercial Loan";
         description := "Estimate repayments on a commercial property loan.";
         parameters := createDefaultLoanParameters (Some (num_of_Z 750000))
                         (Some (num_lit 65 1)) (Some (num_of_Z 20)) (Some MONTHLY) |}
  | vehicle =>
      {| title := "Vehicle Loan";
         description := "Plan out payments on a vehicle purchase.";
         parameters := createDefaultLoanParameters (Some (num_of_Z 45000))
                         (Some (num_lit 725 2)) (Some (num_of_Z 6)) (Some MONTHLY) |}
  end.
End Configs.

Arguments LoanConfig : clear implicits.

Local Open Scope Q_scope.

(** The configured parameters over exact arithmetic. *)
Definition config_parameters (t : LoanType) : LoanParameters Q :=
  parameters (loanConfigs t).

(** The residential mortgage of the app (450 000 at
    5.75% over 30 years, monthly) has 360 payments of 2626.07..2626.08;
    the spec's scenario 1 gives 2626.69. *)
Theorem residential_payment :
  payment_count (config_parameters residential) = 360%Z
  /\ 262607 # 100 < periodicPayment (calculate (config_parameters residential))
  /\ periodicPayment (calculate (config_parameters residential)) < 262608 # 100.
Proof.
  assert (Hn : payment_count (config_parameters residential) = 360%Z)
    by (vm_compute; reflexivity).
  rewrite calculate_periodicPayment by lia. rewrite Hn.
  split; [reflexivity|]. split; vm_compute; reflexivity.
Qed.

(** The vehicle loan of the app (45 000 at 7.25% over
    6 years, monthly) has 72 payments of 772.61..772.62; the spec's
    scenario 2 gives 766.87. *)
Theorem vehicle_payment :
  payment_count (config_parameters vehicle) = 72%Z
  /\ 77261 # 100 < periodicPayment (calculate (config_parameters vehicle))
  /\ periodicPayment (calculate (config_parameters vehicle)) < 77262 # 100.
Proof.
  assert (Hn : payment_count (config_parameters vehicle) = 72%Z)
    by (vm_compute; reflexivity).
  rewrite calculate_periodicPayment by lia. rewrite Hn.
  split; [reflexivity|]. split; vm_compute; reflexivity.
Qed.

(** Spec scenario 3: 100 000 at 0% over 10 years is paid in 120 equal
    instalments of 100000/120 = 833.33... *)
Definition interest_free : LoanParameters Q :=
  {| loanAmount := 100000; interestRate := 0; termYears := 10;
     paymentsPerYear := MONTHLY |}.

End App.
