(* ===== verification/EdgeCases.v ===== *)
(** The engine on the two degenerate inputs the spec lists among its
    testable properties, over exact arithmetic.

    - A zero interest rate takes the straight-line branch of
      [level_payment] ([principal / numberOfPayments], LoanCalculator.ts
      lines 37-38): every row then charges no interest and repays the same
      principal, the last one included, since its forced payoff
      (line 57) is exactly what is left, one more instalment.
    - A loan amount of at most 0 is clamped to a principal of 0 (line 21):
      every row, if there are any, is all zeros, and so are the totals.

    The zero-rate argument follows the loop iteration by iteration with
    the invariant "before payment [k] the balance is [(n - k + 1) * d]",
    [d = principal / n]; the zero-amount argument is a consequence of the
    contract [amortizes]. *)

From Stdlib Require Import QArith Qminmax Qreduction Lqa Lia List ZArith.
From S2P Require Import Prelude Number ExactNumber LoanParameters LoanCalculator AmortizationSpec App.
Import ListNotations LoanParameters LoanCalculator AmortizationSpec App.

Module EdgeCases.

Local Open Scope Q_scope.

Abbreviation Row := (AmortizationPayment Q).

(** A row that moves no money. *)
Definition zero_row (row : Row) : Prop :=
  paymentAmount row == 0 /\ interestPaid row == 0
  /\ principalPaid row == 0 /\ remainingBalance row == 0.

(** A row of a straight-line schedule with instalment [d]. *)
Definition straight_row (d : Q) (row : Row) : Prop :=
  interestPaid row == 0 /\ principalPaid row == d.

(** ** Sums of zeros *)

Lemma fold_left_Qplus_zero (f : Row -> Q) (rows : list Row) :
  Forall (fun row => f row == 0) rows -> fold_left Qplus (map f rows) 0 == 0.
Proof.
  induction 1 as [|row rows Hr _ IH]; [reflexivity|].
  cbn [map fold_left]. rewrite fold_left_Qplus_acc, IH, Hr. reflexivity.
Qed.

(** ** A loan amount of at most 0 *)

Lemma amortizes_zero_rows rate k b rows :
  amortizes rate k b rows -> b == 0 -> Forall zero_row rows.
Proof.
  induction 1 as [k b row (_ & Hi & Hp & Hpay & Hb) _
                 |k b row rows (_ & Hi & Hp & Hpay & Hb) _ IH]; intros H0;
    assert (Hz : zero_row row)
      by (unfold zero_row; rewrite H0, Qmult_0_l, Q.max_id in Hi;
          rewrite H0 in Hp, Hb; repeat split; lra).
  - apply Forall_cons; [exact Hz|apply Forall_nil].
  - constructor; [exact Hz|]. apply IH. apply Hz.
Qed.

(** ** A zero rate *)

(** One iteration of a straight-line schedule: before payment [k] the
    balance is [(n - k + 1) * d]; the row repays [d] without interest and
    leaves [(n - k) * d]. *)
Lemma zero_rate_step (n : Z) (r d : Q) (s : LoopState Q) (k : nat) :
  r == 0 -> 0 <= d -> (1 <= Z.of_nat k <= n)%Z ->
  st_remainingBalance s == inject_Z (n - Z.of_nat k + 1) * d ->
  exists row,
    st_schedule (payment_step num_max num_min n r d s k) = st_schedule s ++ [row]
    /\ straight_row d row
    /\ st_remainingBalance (payment_step num_max num_min n r d s k)
       == inject_Z (n - Z.of_nat k) * d.
Proof.
  destruct s as [b ti tp sc]; cbn [st_remainingBalance]. intros Hr Hd Hk Hb.
  assert (Hm : 0 <= inject_Z (n - Z.of_nat k) * d)
    by (apply Qmult_le_0_compat; [change 0 with (inject_Z 0); rewrite <- Zle_Qle; lia|exact Hd]).
  assert (Hb' : b == inject_Z (n - Z.of_nat k) * d + d)
    by (rewrite Hb, inject_Z_plus; change (inject_Z 1) with 1; ring).
  eexists. split; [reflexivity|]. unfold straight_row, payment_step.
  cbn [st_remainingBalance interestPaid principalPaid num_max num_min num_sub
       num_mul num_add num_of_Z Q_Number].
  destruct (Z.of_nat k =? n)%Z eqn:G;
    rewrite ?Qmult'_correct, ?Qplus'_correct, ?Qminus'_correct, Hr, Qmult_0_r;
    change (inject_Z 0) with 0; rewrite Q.max_id.
  - apply Z.eqb_eq in G. rewrite G, Z.sub_diag in *. change (inject_Z 0) with 0 in *.
    repeat split; rewrite ?Hb'; try ring. rewrite Q.max_r; [ring|lra].
  - rewrite (Q.max_l (d - 0) 0), (Q.min_l (d - 0) b) by lra.
    repeat split; try ring. rewrite Q.max_l by lra. rewrite Hb'. ring.
Qed.

Lemma zero_rate_steps (n : Z) (r d : Q) (m k : nat) (s : LoopState Q) :
  r == 0 -> 0 <= d -> (1 <= k)%nat -> (Z.of_nat (k + m) = n + 1)%Z ->
  st_remainingBalance s == inject_Z (n - Z.of_nat k + 1) * d ->
  exists rows,
    st_schedule (fold_left (payment_step num_max num_min n r d) (seq k m) s)
    = st_schedule s ++ rows
    /\ Forall (straight_row d) rows.
Proof.
  intros Hr Hd. revert k s; induction m as [|m IH]; intros k s Hk Hn Hb.
  - exists []. now rewrite app_nil_r.
  - destruct (zero_rate_step n r d s k Hr Hd ltac:(lia) Hb) as (row & Hs & Hrow & Hb').
    cbn [seq fold_left].
    destruct (IH (S k) (payment_step num_max num_min n r d s k) ltac:(lia) ltac:(lia))
      as (rows & Hs' & Hf).
    { rewrite Hb'. replace (n - Z.of_nat (S k) + 1)%Z with (n - Z.of_nat k)%Z by lia.
      reflexivity. }
    exists (row :: rows). split; [rewrite Hs', Hs, <- app_assoc; reflexivity|].
    constructor; assumption.
Qed.

(** The rate per period is 0 exactly when the annual rate is. *)
Lemma rate_per_period_zero (p : LoanParameters Q) :
  interestRate p == 0 -> rate_per_period p == 0.
Proof.
  intros H. unfold rate_per_period. cbn [num_div num_of_Z Q_Number].
  rewrite !Qdiv'_correct, H. reflexivity.
Qed.

(** The schedule of a zero-rate loan with a positive payment count. *)
Lemma zero_rate_schedule (p : LoanParameters Q) :
  interestRate p == 0 -> (0 < payment_count p)%Z ->
  Forall (straight_row (principal_of p / inject_Z (payment_count p))) (schedule (calculate p)).
Proof.
  intros H0 Hn. pose proof (rate_per_period_zero p H0) as Hr.
  pose proof (Q.le_max_r (loanAmount p) 0) as HP.
  unfold payment_count in *. unfold_calculate p; [lia|].
  fold (principal_of p) (rate_per_period p) in *. cbn [schedule].
  set (n := num_round (num_mul (termYears p) (num_of_Z (rawValue (paymentsPerYear p))))) in *.
  assert (Hpmt : level_payment (principal_of p) (rate_per_period p) n
                 = Qdiv' (principal_of p) (inject_Z n)).
  { unfold level_payment. cbn [num_eqb num_of_Z Q_Number]. change (inject_Z 0) with 0.
    now rewrite (proj2 (Qeq_bool_iff _ _) Hr). }
  assert (Hn0 : ~ inject_Z n == 0)
    by (intros E; apply (inject_Z_injective n 0) in E; lia).
  assert (Hd : 0 <= principal_of p / inject_Z n).
  { apply Qle_shift_div_l; [change 0 with (inject_Z 0); rewrite <- Zlt_Qlt; lia|].
    rewrite Qmult_0_l. exact HP. }
  rewrite Hpmt.
  destruct (zero_rate_steps n (rate_per_period p) (Qdiv' (principal_of p) (inject_Z n))
              (Z.to_nat n) 1 (initial_state (principal_of p)) Hr
              ltac:(rewrite Qdiv'_correct; exact Hd) ltac:(lia) ltac:(lia))
    as (rows & Hs & Hf).
  { cbn [initial_state st_remainingBalance]. rewrite Qdiv'_correct.
    replace (n - Z.of_nat 1 + 1)%Z with n by lia. field. exact Hn0. }
  cbn [initial_state st_schedule app] in Hs. rewrite Hs.
  eapply Forall_impl; [|exact Hf]. intros row [Hi0 Hpp].
  split; [exact Hi0|]. rewrite Hpp, Qdiv'_correct. reflexivity.
Qed.

(** ** Properties *)

(** C25 (functional): with a zero interest rate every row of the schedule
    charges no interest and repays the same principal
    [max(loanAmount, 0) / n], the last row included, and the total interest
    is 0 (spec, testable properties and scenario 3). *)
Theorem zero_rate_straight_line (p : LoanParameters Q) :
  interestRate p == 0 ->
  Forall (straight_row (principal_of p / inject_Z (payment_count p))) (schedule (calculate p))
  /\ totalInterest (calculate p) == 0.
Proof.
  intros H0. destruct (Z.lt_ge_cases 0 (payment_count p)) as [Hn|Hn].
  2:{ empty_run Hn.
      split; [constructor|reflexivity]. }
  destruct (calculate_run p Hn) as (_ & Hi & _).
  pose proof (zero_rate_schedule p H0 Hn) as Hs.
  split; [exact Hs|]. rewrite Hi. apply fold_left_Qplus_zero.
  eapply Forall_impl; [|exact Hs]. intros row [Hi0 _]. exact Hi0.
Qed.

(** C26 (error): a loan amount of at most 0 is clamped to 0: the totals
    are 0 and every row of the schedule, if there is any, moves no money
    (spec, error handling and scenario 4). *)
Theorem zero_amount_result (p : LoanParameters Q) :
  loanAmount p <= 0 ->
  totalInterest (calculate p) == 0 /\ totalPaid (calculate p) == 0
  /\ Forall zero_row (schedule (calculate p)).
Proof.
  intros Ha. destruct (Z.lt_ge_cases 0 (payment_count p)) as [Hn|Hn].
  - destruct (calculate_run p Hn) as (Hrun & Hi & Hp).
    assert (H0 : principal_of p == 0)
      by (unfold principal_of; cbn [num_max num_of_Z Q_Number]; now apply Q.max_r).
    pose proof (amortizes_zero_rows _ _ _ _ Hrun H0) as Hz.
    rewrite Hi, Hp. split; [|split; [|exact Hz]]; apply fold_left_Qplus_zero;
      eapply Forall_impl; try exact Hz; intros row Hr; apply Hr.
  - empty_run Hn.
    split; [reflexivity|split; [reflexivity|constructor]].
Qed.

End EdgeCases.

(** Spec scenario 3, the interest-free loan of [App]. *)
Lemma zero_rate_straight_line_witness :
  (interestRate interest_free == 0)%Q
  /\ Forall (EdgeCases.straight_row (principal_of interest_free
                                      / inject_Z (payment_count interest_free)))
       (schedule (LoanCalculator.calculate interest_free))
  /\ (totalInterest (LoanCalculator.calculate interest_free) == 0)%Q.
Proof.
  assert (H : (interestRate interest_free == 0)%Q) by reflexivity.
  split; [exact H|]. exact (EdgeCases.zero_rate_straight_line interest_free H).
Defined.

(** Spec scenario 4: the residential configuration with an amount of 0. *)
Definition no_amount : LoanParameters Q :=
  {| loanAmount := 0; interestRate := interestRate (config_parameters residential);
     termYears := 30; paymentsPerYear := MONTHLY |}.

Lemma zero_amount_result_witness :
  (loanAmount no_amount <= 0)%Q
  /\ (totalInterest (LoanCalculator.calculate no_amount) == 0)%Q
  /\ (totalPaid (LoanCalculator.calculate no_amount) == 0)%Q
  /\ Forall EdgeCases.zero_row (schedule (LoanCalculator.calculate no_amount)).
Proof.
  assert (H : (loanAmount no_amount <= 0)%Q) by discriminate.
  split; [exact H|]. exact (EdgeCases.zero_amount_result no_amount H).
Defined.
