(* ===== verification/Annuity.v ===== *)
(** The level payment is exact: over exact arithmetic and a positive rate,
    every row of the schedule pays exactly [periodicPayment].

    [level_payment] (LoanCalculator.ts lines 39-41) is the annuity payment
    [pmt = P * r * f / (f - 1)] with [f = (1 + r)^n].  Before payment [k],
    with [m = n - k + 1] payments left, the balance is the present value
    of [m] payments, [annuity_balance m = pmt * (y_m - 1) / (r * y_m)]
    with [y_m = (1 + r)^m]: the interest [balance * r] is
    [pmt * (y_m - 1) / y_m], the principal portion [pmt / y_m] lies in
    [0, balance], so neither clamp of lines 54-55 changes it, and what is
    left is [annuity_balance (m - 1)].  With one payment left the forced
    payoff of line 57 is that same principal portion.  Hence every row
    pays [pmt]: the difference between [periodicPayment] and the last
    row's [paymentAmount] that the spec's design notes mention can only
    come from floating-point rounding.

    The same balance identity shows what [periodicPayment] is: the payment
    whose [n] values discounted by [(1 + r)^k] ([present_value]) sum to
    the principal, hence more than [principal / n] and at most
    [principal * (1 + r)], with a positive total interest. *)

From Stdlib Require Import QArith Qpower Qminmax Qreduction Lqa Lia List ZArith.
From S2P Require Import Prelude Number ExactNumber LoanParameters LoanCalculator AmortizationSpec.
Import ListNotations LoanParameters LoanCalculator AmortizationSpec.

Module Annuity.

Local Open Scope Q_scope.

Abbreviation Row := (AmortizationPayment Q).

(** Every row of [rows] pays exactly [pmt]. *)
Definition pays_level (pmt : Q) (rows : list Row) : Prop :=
  Forall (fun row => paymentAmount row == pmt) rows.

Section Schedule.
Variables (r pmt : Q).
Hypothesis Hr : 0 < r.
Hypothesis Hpmt : 0 <= pmt.

(** [(1 + r)^m] *)
Definition growth (m : nat) : Q := Qpower (1 + r) (Z.of_nat m).

(** The present value of [m] payments of [pmt] at rate [r]. *)
Definition annuity_balance (m : nat) : Q :=
  pmt * (growth m - 1) / (r * growth m).

(** The present value of [m] payments of [pmt], the [k]-th discounted by
    [(1 + r)^k]: [sum_(k = 1 .. m) pmt / (1 + r)^k]. *)
Fixpoint present_value (m : nat) : Q :=
  match m with
  | O => 0
  | S m' => present_value m' + pmt / growth (S m')
  end.

Lemma growth_0 : growth 0 == 1.
Proof. reflexivity. Qed.

Lemma growth_succ (m : nat) : growth (S m) == growth m * (1 + r).
Proof.
  unfold growth. rewrite Nat2Z.inj_succ, <- Z.add_1_r, Qpower_plus' by lia.
  reflexivity.
Qed.

Lemma growth_ge (m : nat) : (1 <= m)%nat -> 1 + r <= growth m.
Proof.
  induction m as [|m IH]; intros Hm; [lia|].
  rewrite growth_succ. destruct m as [|m].
  - rewrite growth_0. lra.
  - specialize (IH ltac:(lia)).
    assert (0 <= (growth (S m) - 1) * (1 + r)) by (apply Qmult_le_0_compat; lra).
    lra.
Qed.

Lemma growth_pos (m : nat) : 0 < growth m.
Proof. destruct m as [|m]; [reflexivity|]. pose proof (growth_ge (S m) ltac:(lia)). lra. Qed.

(** One payment with [S m] payments left: no clamp binds, the row pays
    [pmt], and [m] payments' worth is left. *)
Lemma annuity_step (n : Z) (s : LoopState Q) (k m : nat) :
  (Z.of_nat k + Z.of_nat m = n)%Z ->
  st_remainingBalance s == annuity_balance (S m) ->
  exists row,
    st_schedule (payment_step num_max num_min n r pmt s k) = st_schedule s ++ [row]
    /\ paymentAmount row == pmt
    /\ st_remainingBalance (payment_step num_max num_min n r pmt s k) == annuity_balance m.
Proof.
  destruct s as [b ti tp sc]; cbn [st_remainingBalance]. intros Hk Hb.
  pose proof (growth_pos m) as Hy. set (y := growth m) in *.
  assert (Hy1 : 1 <= y).
  { destruct m as [|m]; [unfold y; rewrite growth_0; lra|]. pose proof (growth_ge (S m) ltac:(lia)); unfold y; lra. }
  assert (Hb' : b == pmt * (y * (1 + r) - 1) / (r * (y * (1 + r))))
    by (rewrite Hb; unfold annuity_balance; now rewrite growth_succ).
  (* the principal portion and its bounds *)
  assert (Hpp : pmt - b * r == pmt / (y * (1 + r))) by (rewrite Hb'; field; lra).
  assert (Hpp0 : 0 <= pmt / (y * (1 + r)))
    by (apply Qle_shift_div_l; [nra|]; rewrite Qmult_0_l; exact Hpmt).
  assert (Hppb : pmt / (y * (1 + r)) <= b).
  { rewrite Hb'. apply Qle_shift_div_l; [nra|].
    assert (Hq : pmt / (y * (1 + r)) * (r * (y * (1 + r))) == pmt * r) by (field; lra).
    rewrite Hq. assert (0 <= pmt * (y * (1 + r) - 1 - r)) by (apply Qmult_le_0_compat; nra).
    lra. }
  assert (Hint : 0 <= b * r) by (rewrite Hb'; apply Qmult_le_0_compat; [|lra];
    apply Qle_shift_div_l; [nra|]; rewrite Qmult_0_l; apply Qmult_le_0_compat; nra).
  assert (Hleft : b - pmt / (y * (1 + r)) == annuity_balance m)
    by (rewrite Hb'; unfold annuity_balance; fold y; field; lra).
  eexists. split; [reflexivity|]. unfold payment_step.
  cbn [st_remainingBalance paymentAmount num_max num_min num_sub num_mul num_add
       num_of_Z Q_Number].
  destruct (Z.of_nat k =? n)%Z eqn:G;
    rewrite ?Qmult'_correct, ?Qplus'_correct, ?Qminus'_correct;
    change (inject_Z 0) with 0; rewrite (Q.max_l (b * r) 0) by exact Hint.
  - apply Z.eqb_eq in G. assert (m = 0%nat) as -> by lia.
    assert (Hl0 : annuity_balance 0 == 0) by (unfold annuity_balance; rewrite growth_0; field; lra).
    rewrite Hl0 in Hleft. split.
    + assert (b == pmt / (y * (1 + r))) by lra. lra.
    + rewrite Q.max_r, Hl0; [reflexivity|lra].
  - rewrite Hpp, (Q.max_l _ 0 Hpp0), (Q.min_l _ b Hppb). split; [lra|].
    rewrite Q.max_l; [exact Hleft|]. rewrite Hleft. unfold annuity_balance.
    fold y. apply Qle_shift_div_l; [nra|]. rewrite Qmult_0_l. apply Qmult_le_0_compat; lra.
Qed.

Lemma annuity_steps (n : Z) (m k : nat) (s : LoopState Q) :
  (Z.of_nat k + Z.of_nat m = n + 1)%Z ->
  st_remainingBalance s == annuity_balance m ->
  exists rows,
    st_schedule (fold_left (payment_step num_max num_min n r pmt) (seq k m) s)
    = st_schedule s ++ rows
    /\ pays_level pmt rows /\ length rows = m.
Proof.
  revert k s; induction m as [|m IH]; intros k s Hk Hb.
  - exists []. split; [now rewrite app_nil_r|split; [constructor|reflexivity]].
  - destruct (annuity_step n s k m ltac:(lia) Hb) as (row & Hs & Hrow & Hb').
    cbn [seq fold_left].
    destruct (IH (S k) (payment_step num_max num_min n r pmt s k) ltac:(lia) Hb')
      as (rows & Hs' & Hf & Hl).
    exists (row :: rows). split; [rewrite Hs', Hs, <- app_assoc; reflexivity|].
    split; [constructor; assumption|cbn; now rewrite Hl].
Qed.

(** The geometric sum in closed form. *)
Lemma present_value_annuity (m : nat) : present_value m == annuity_balance m.
Proof.
  induction m as [|m IH]; cbn [present_value].
  - unfold annuity_balance. rewrite growth_0. field. lra.
  - rewrite IH. unfold annuity_balance. rewrite growth_succ.
    pose proof (growth_pos m). field. lra.
Qed.

(** Every discounted payment is below [pmt], so [m] of them are worth
    less than [m * pmt]. *)
Lemma present_value_lt (m : nat) :
  0 < pmt -> (1 <= m)%nat -> present_value m < inject_Z (Z.of_nat m) * pmt.
Proof.
  intros Hp. induction m as [|m IH]; intros Hm; [lia|]. cbn [present_value].
  pose proof (growth_ge (S m) ltac:(lia)) as Hg.
  assert (Ht : pmt / growth (S m) < pmt).
  { apply Qlt_shift_div_r; [lra|]. nra. }
  rewrite Nat2Z.inj_succ, <- Z.add_1_r, inject_Z_plus. change (inject_Z 1) with 1.
  destruct m as [|m].
  - cbn [present_value]. change (inject_Z (Z.of_nat 0)) with 0. lra.
  - specialize (IH ltac:(lia)). lra.
Qed.

(** The first payment alone is worth [pmt / (1 + r)]. *)
Lemma present_value_first (m : nat) :
  0 <= pmt -> (1 <= m)%nat -> pmt / (1 + r) <= present_value m.
Proof.
  intros Hp. induction m as [|m IH]; intros Hm; [lia|]. cbn [present_value].
  pose proof (growth_pos (S m)) as Hg.
  assert (0 <= pmt / growth (S m)) by (apply Qle_shift_div_l; [exact Hg|lra]).
  destruct m as [|m].
  - cbn [present_value]. change (growth 1) with (1 + r). lra.
  - specialize (IH ltac:(lia)). lra.
Qed.

End Schedule.

(** ** The engine's schedule *)

Lemma fold_left_Qplus_const (c : Q) (rows : list Row) :
  pays_level c rows ->
  fold_left Qplus (map paymentAmount rows) 0 == inject_Z (Z.of_nat (length rows)) * c.
Proof.
  induction 1 as [|row rows Hr _ IH]; [cbn; ring|].
  cbn [map fold_left length]. rewrite fold_left_Qplus_acc, IH, Hr, Nat2Z.inj_succ, <- Z.add_1_r,
    inject_Z_plus. change (inject_Z 1) with 1. ring.
Qed.

Lemma rate_per_period_pos (p : LoanParameters Q) :
  0 < interestRate p -> 0 < rate_per_period p.
Proof.
  intros H. unfold rate_per_period. cbn [num_div num_of_Z Q_Number].
  rewrite !Qdiv'_correct.
  apply Qlt_shift_div_l; [destruct (paymentsPerYear p); reflexivity|rewrite Qmult_0_l].
  apply Qlt_shift_div_l; [reflexivity|rewrite Qmult_0_l; exact H].
Qed.

(** The code's level payment with a positive rate: non-negative, and the
    present value of [n] such payments is the principal. *)
Lemma level_payment_annuity (P r : Q) (n : Z) :
  0 <= P -> 0 < r -> (0 < n)%Z ->
  0 <= level_payment P r n
  /\ P == annuity_balance r (level_payment P r n) (Z.to_nat n).
Proof.
  intros HP Hr Hn. unfold level_payment.
  cbn [num_eqb num_pow num_add num_sub num_mul num_div num_of_Z Q_Number].
  replace (Qeq_bool r (inject_Z 0)) with false
    by (symmetry; apply not_true_iff_false; intros E; apply Qeq_bool_iff in E;
        change (inject_Z 0) with 0 in E; lra).
  pose proof (growth_ge r Hr (Z.to_nat n) ltac:(lia)) as Hf.
  unfold annuity_balance, growth in *. rewrite Z2Nat.id in * by lia.
  rewrite Qdiv'_correct, !Qmult'_correct, Qminus'_correct, Qplus'_correct.
  change (inject_Z 1) with 1.
  set (f := Qpower (1 + r) n) in *.
  split.
  - apply Qle_shift_div_l; [lra|]. rewrite Qmult_0_l.
    apply Qmult_le_0_compat; [exact HP|]. apply Qmult_le_0_compat; lra.
  - field. repeat split; lra.
Qed.

(** The schedule of a loan with a positive rate and payment count. *)
Lemma annuity_schedule (p : LoanParameters Q) :
  0 < interestRate p -> (0 < payment_count p)%Z ->
  pays_level (periodicPayment (calculate p)) (schedule (calculate p))
  /\ length (schedule (calculate p)) = Z.to_nat (payment_count p).
Proof.
  intros Hi Hn. pose proof (rate_per_period_pos p Hi) as Hr.
  pose proof (Q.le_max_r (loanAmount p) 0) as HP.
  unfold payment_count in *. unfold_calculate p; [lia|].
  fold (principal_of p) (rate_per_period p) in *. cbn [schedule periodicPayment].
  set (n := num_round (num_mul (termYears p) (num_of_Z (rawValue (paymentsPerYear p))))) in *.
  destruct (level_payment_annuity (principal_of p) (rate_per_period p) n HP Hr Hn)
    as (Hpmt & HPV).
  destruct (annuity_steps (rate_per_period p) (level_payment (principal_of p) (rate_per_period p) n)
              Hr Hpmt n (Z.to_nat n) 1 (initial_state (principal_of p)) ltac:(lia) HPV)
    as (rows & Hs & Hf & Hl).
  cbn [initial_state st_schedule app] in Hs. rewrite Hs. split; assumption.
Qed.

(** With a positive rate the total paid is [n] level payments. *)
Lemma total_paid_level (p : LoanParameters Q) :
  0 < interestRate p -> (0 < payment_count p)%Z ->
  totalPaid (calculate p) == inject_Z (payment_count p) * periodicPayment (calculate p).
Proof.
  intros Hi Hn. destruct (annuity_schedule p Hi Hn) as (Hf & Hl).
  destruct (calculate_run p Hn) as (_ & _ & Htot).
  rewrite Htot, (fold_left_Qplus_const _ _ Hf), Hl, Z2Nat.id by lia.
  reflexivity.
Qed.

(** The quoted payment is the code's level payment, of which [n] are
    worth the principal. *)
Lemma payment_annuity (p : LoanParameters Q) :
  0 < interestRate p -> (0 < payment_count p)%Z ->
  0 <= periodicPayment (calculate p)
  /\ principal_of p == present_value (rate_per_period p) (periodicPayment (calculate p))
                        (Z.to_nat (payment_count p)).
Proof.
  intros Hi Hn. pose proof (rate_per_period_pos p Hi) as Hr.
  rewrite calculate_periodicPayment by exact Hn. fold (principal_of p) (rate_per_period p).
  destruct (level_payment_annuity (principal_of p) (rate_per_period p) (payment_count p)
              (Q.le_max_r _ _) Hr Hn) as (H0 & HPV).
  split; [exact H0|]. rewrite present_value_annuity by exact Hr. exact HPV.
Qed.

(** C11 (functional): with a positive rate, the quoted payment is the
    annuity of finance: the principal is the sum of the [n] payments
    discounted at [ratePerPeriod], [P = sum_(k = 1 .. n) pmt / (1 + r)^k]
    (the equation the spec's formula solves for [pmt]). *)
Theorem payment_present_value (p : LoanParameters Q) :
  0 < interestRate p -> (0 < payment_count p)%Z ->
  principal_of p == present_value (rate_per_period p) (periodicPayment (calculate p))
                      (Z.to_nat (payment_count p)).
Proof. intros Hi Hn. exact (proj2 (payment_annuity p Hi Hn)). Qed.

(** C12 (bounds): with a positive rate and a positive amount, the quoted
    payment lies strictly above the straight-line share [P / n] and at
    most at [P * (1 + r)] (reached with one payment), and the loan costs
    interest: [totalInterest > 0]. *)
Theorem payment_bounds (p : LoanParameters Q) :
  0 < interestRate p -> (0 < payment_count p)%Z -> 0 < loanAmount p ->
  principal_of p < inject_Z (payment_count p) * periodicPayment (calculate p)
  /\ periodicPayment (calculate p) <= principal_of p * (1 + rate_per_period p)
  /\ 0 < totalInterest (calculate p).
Proof.
  intros Hi Hn Ha. pose proof (rate_per_period_pos p Hi) as Hr.
  destruct (payment_annuity p Hi Hn) as (H0 & HPV).
  assert (HP : principal_of p == loanAmount p)
    by (unfold principal_of; cbn [num_max num_of_Z Q_Number]; apply Q.max_l;
        change (inject_Z 0) with 0; lra).
  set (pmt := periodicPayment (calculate p)) in *.
  assert (Hpos : 0 < pmt).
  { destruct (Qle_lt_or_eq _ _ H0) as [Hlt|Heq]; [exact Hlt|exfalso].
    rewrite present_value_annuity in HPV by exact Hr. unfold annuity_balance in HPV.
    rewrite <- Heq in HPV.
    assert (principal_of p == 0) by (rewrite HPV; unfold Qdiv; ring).
    lra. }
  assert (Hlt : principal_of p < inject_Z (payment_count p) * pmt).
  { rewrite HPV. rewrite <- (Z2Nat.id (payment_count p)) at 2 by lia.
    apply present_value_lt; [exact Hr|exact Hpos|lia]. }
  split; [exact Hlt|]. split.
  - assert (Hf : pmt / (1 + rate_per_period p)
                 <= present_value (rate_per_period p) pmt (Z.to_nat (payment_count p)))
      by (apply present_value_first; first [exact Hr | exact H0 | lia]).
    rewrite <- HPV in Hf. apply (Qmult_le_compat_r _ _ (1 + rate_per_period p)) in Hf; [|lra].
    setoid_replace (pmt / (1 + rate_per_period p) * (1 + rate_per_period p)) with pmt in Hf
      by (field; lra).
    exact Hf.
  - pose proof (total_paid_split p Hn) as Hs. rewrite (total_paid_level p Hi Hn) in Hs.
    fold pmt in Hs. lra.
Qed.

(** C27 (functional): over exact arithmetic and a positive interest rate,
    every row of the schedule pays exactly [periodicPayment], the last row
    included, and [totalPaid] is [n * periodicPayment]: the level payment
    amortizes the principal exactly, the clamps never bind and the forced
    payoff of the last period changes nothing. *)
Theorem annuity_payments_exact (p : LoanParameters Q) :
  0 < interestRate p -> (0 < payment_count p)%Z ->
  pays_level (periodicPayment (calculate p)) (schedule (calculate p))
  /\ totalPaid (calculate p) == inject_Z (payment_count p) * periodicPayment (calculate p).
Proof.
  intros Hi Hn. split; [exact (proj1 (annuity_schedule p Hi Hn))|].
  exact (total_paid_level p Hi Hn).
Qed.

End Annuity.

(** The quarter-year loan of [AmortizationSpec] (1000 at 12%, three
    payments). *)
Lemma payment_present_value_witness :
  (0 < interestRate quarter_loan)%Q /\ (0 < payment_count quarter_loan)%Z
  /\ (AmortizationSpec.principal_of quarter_loan
      == Annuity.present_value (AmortizationSpec.rate_per_period quarter_loan)
           (periodicPayment (LoanCalculator.calculate quarter_loan))
           (Z.to_nat (payment_count quarter_loan)))%Q.
Proof.
  assert (Hi : (0 < interestRate quarter_loan)%Q) by reflexivity.
  assert (Hn : (0 < payment_count quarter_loan)%Z) by (vm_compute; reflexivity).
  split; [exact Hi|]. split; [exact Hn|].
  exact (Annuity.payment_present_value quarter_loan Hi Hn).
Defined.

Lemma payment_bounds_witness :
  (0 < interestRate quarter_loan)%Q /\ (0 < payment_count quarter_loan)%Z
  /\ (0 < loanAmount quarter_loan)%Q
  /\ (0 < totalInterest (LoanCalculator.calculate quarter_loan))%Q.
Proof.
  assert (Hi : (0 < interestRate quarter_loan)%Q) by reflexivity.
  assert (Hn : (0 < payment_count quarter_loan)%Z) by (vm_compute; reflexivity).
  assert (Ha : (0 < loanAmount quarter_loan)%Q) by reflexivity.
  split; [exact Hi|]. split; [exact Hn|]. split; [exact Ha|].
  exact (proj2 (proj2 (Annuity.payment_bounds quarter_loan Hi Hn Ha))).
Defined.

(** The quarter-year loan of [AmortizationSpec] (rate 12%, three payments). *)
Lemma annuity_payments_exact_witness :
  (0 < interestRate quarter_loan)%Q /\ (0 < payment_count quarter_loan)%Z
  /\ Annuity.pays_level (periodicPayment (LoanCalculator.calculate quarter_loan))
       (schedule (LoanCalculator.calculate quarter_loan)).
Proof.
  assert (Hi : (0 < interestRate quarter_loan)%Q) by reflexivity.
  assert (Hn : (0 < payment_count quarter_loan)%Z) by (vm_compute; reflexivity).
  split; [exact Hi|]. split; [exact Hn|].
  exact (proj1 (Annuity.annuity_payments_exact quarter_loan Hi Hn)).
Defined.
