(* ===== verification/Binary64.v ===== *)
(** IEEE 754 binary64, the arithmetic both sources actually run in.

    JavaScript numbers and Swift [Double]s are binary64 values with
    round-to-nearest-even.  [Binary64] builds the [Number] interface on the
    Standard Library's executable specification [SpecFloat] with
    [prec = 53] and [emax = 1024]:

    - [+ - * /] are [SFadd], [SFsub], [SFmul], [SFdiv];
    - [Math.max]/[Math.min] follow ECMAScript: NaN if either argument is
      NaN, and [+0] is larger than [-0];
    - comparisons are IEEE comparisons ([NaN] compares false);
    - an integer literal or [Double(n)] is [n] rounded to nearest;
    - [Math.round] and Swift's [rounded()] round the exact value of a
      finite double (halves up, resp. away from zero); their result is the
      payment count, an integer in the model.  For NaN and the infinities,
      where JavaScript's [Math.round] returns NaN or an infinity, the model
      returns 0; the form never produces such a term (see [InputForm]).
    - [Math.pow] is "implementation-approximated" in ECMAScript and comes
      from the C library in Swift: it is a parameter [fpow] of the
      instance.  [cr_pow], the exact power rounded once (what glibc's
      correctly rounded [pow] returns), is the one used for concrete runs.

    The engine's shape theorems ([LoanCalculator]) hold in this instance
    as in every other.  Proved here in binary64, for every [fpow]: the
    last balance of a non-empty schedule is exactly [+0] or NaN, never a
    leftover residue (C28); a NaN level payment (what any [pow] that
    overflows to infinity gives for a large rate) makes every balance and
    both totals NaN (C29); every row's interest, principal and balance
    is [>= 0] or NaN (C36); the TS engine with [Math.max]/[Math.min]/
    [Math.round] and the Swift engine with [max]/[min]/[rounded()] return
    the same doubles bit for bit whenever the payment count
    [termYears * paymentsPerYear] is a finite double below [2^63] in
    magnitude (C35); outside that domain [d_round]/[d_rounded] stand for
    results the sources do not produce (TS goes on with a NaN count, Swift's
    [Int(...)] traps), so no claim is made there.  With [cr_pow]: the
    vehicle loan's quoted payment and last payment, which differ; these
    values agree with a run of the TypeScript engine on a binary64
    runtime. *)

From Stdlib Require Import ZArith QArith Qabs Lia List.
From Stdlib Require Import Floats.SpecFloat.
From S2P Require Import Prelude Number ExactNumber LoanParameters LoanCalculator Platforms App.
Import ListNotations LoanParameters LoanCalculator Platforms App.

Module Binary64.

Abbreviation prec := 53%Z.
Abbreviation emax := 1024%Z.

Definition double : Type := spec_float.

Definition dadd : double -> double -> double := SFadd prec emax.
Definition dsub : double -> double -> double := SFsub prec emax.
Definition dmul : double -> double -> double := SFmul prec emax.
Definition ddiv : double -> double -> double := SFdiv prec emax.
Definition dltb : double -> double -> bool := SFltb.
Definition dleb : double -> double -> bool := SFleb.
Definition deqb : double -> double -> bool := SFeqb.

(** The double nearest to an integer. *)
Definition of_Z (z : Z) : double := binary_normalize prec emax z 0 false.

(** The exact value of a finite double. *)
Definition to_Q (x : double) : option Q :=
  match x with
  | S754_zero _ => Some 0%Q
  | S754_finite s m e =>
      let v := match e with
               | Zpos _ => inject_Z (Zpos m * 2 ^ e)
               | Z0 => inject_Z (Zpos m)
               | Zneg e' => (Zpos m # 2 ^ e')%Q
               end in
      Some (if s then Qopp v else v)
  | _ => None
  end.

(** [Math.max] and [Math.min] (ECMAScript 21.3.2.24-25). *)
Definition js_max (x y : double) : double :=
  match x, y with
  | S754_nan, _ | _, S754_nan => S754_nan
  | S754_zero sx, S754_zero sy => S754_zero (sx && sy)
  | _, _ => if dltb x y then y else x
  end.

Definition js_min (x y : double) : double :=
  match x, y with
  | S754_nan, _ | _, S754_nan => S754_nan
  | S754_zero sx, S754_zero sy => S754_zero (sx || sy)
  | _, _ => if dltb y x then y else x
  end.

(** [Math.round] and [Int(x.rounded())] on finite values.  On NaN and the
    infinities the sources give no integer (JavaScript's [Math.round]
    returns NaN or an infinity and the TS engine goes on with that count;
    Swift's [Int(...)] traps, as it does from [2^63] on): the model's 0
    there is a placeholder, and the theorems that compare the two engines
    exclude those inputs. *)
Definition d_round (x : double) : Z :=
  match to_Q x with Some q => js_round q | None => 0%Z end.

Definition d_rounded (x : double) : Z :=
  match to_Q x with Some q => swift_rounded q | None => 0%Z end.

(** The double nearest to a rational: the exact quotient of numerator
    and denominator rounded once ([SFdiv] rounds the exact quotient of any
    two mantissas). *)
Definition of_Q (q : Q) : double :=
  match Qnum q with
  | Z0 => S754_zero false
  | Zpos a => ddiv (S754_finite false a 0) (S754_finite false (Qden q) 0)
  | Zneg a => ddiv (S754_finite true a 0) (S754_finite false (Qden q) 0)
  end.

(** A correctly rounded [pow] at integer exponents (glibc's [pow] is
    correctly rounded; ECMAScript only asks for an approximation): the
    exact power rounded once, with IEEE's special cases. *)
Definition cr_pow (x : double) (n : Z) : double :=
  if Z.eqb n 0 then of_Z 1
  else match x with
       | S754_nan => S754_nan
       | S754_infinity s =>
           if Z.ltb n 0 then S754_zero (s && Z.odd n) else S754_infinity (s && Z.odd n)
       | S754_zero s =>
           if Z.ltb n 0 then S754_infinity (s && Z.odd n) else S754_zero (s && Z.odd n)
       | S754_finite _ _ _ =>
           match to_Q x with Some q => of_Q (Qpower q n) | None => S754_nan end
       end.

(** Residential parameters at a rate of 1000000 %, which the rate field
    accepts: [(1 + r) ^ 360] overflows to infinity. *)
Definition runaway_rate : LoanParameters double :=
  {| loanAmount := of_Z 450000; interestRate := of_Z 1000000;
     termYears := of_Z 30; paymentsPerYear := MONTHLY |}.

(** IEEE [0 <= x], or [x] is NaN: what [Math.max(x, 0)] guarantees. *)
Definition nonneg_or_nan (x : double) : bool :=
  dleb (S754_zero false) x || match x with S754_nan => true | _ => false end.

(** What a row of the schedule promises about signs. *)
Definition row_nonneg (row : AmortizationPayment double) : Prop :=
  nonneg_or_nan (interestPaid row) = true /\ nonneg_or_nan (principalPaid row) = true
  /\ nonneg_or_nan (remainingBalance row) = true.

Section Instance.
Variable fpow : double -> Z -> double.

Definition binary64_number : Number double := {|
  num_add := dadd;
  num_sub := dsub;
  num_mul := dmul;
  num_div := ddiv;
  num_max := js_max;
  num_min := js_min;
  num_pow := fpow;
  num_round := d_round;
  num_rounded := d_rounded;
  num_of_Z := of_Z;
  num_eqb := deqb;
  num_leb := dleb;
  num_ltb := dltb
|}.
End Instance.

(** The configured loans over doubles with a correctly rounded [pow]. *)
Definition double_config (t : LoanType) : LoanParameters double :=
  @parameters double (@loanConfigs double (binary64_number cr_pow) t).

(** ** The last row of a schedule, in every arithmetic *)

Section LastRow.
Context {A : Type} `{Number A}.

(** The last iteration pays off the balance [rb] it starts from, so the
    balance it leaves is [max(rb - rb, 0)]. *)
Lemma calculate_last_balance (p : LoanParameters A) :
  (0 < payment_count p)%Z ->
  exists rb row, last (map Some (schedule (calculate p))) None = Some row
    /\ remainingBalance row = num_max (num_sub rb rb) (num_of_Z 0).
Proof.
  intros Hn. unfold payment_count in Hn. unfold_calculate p; [lia|]. cbn [schedule].
  set (n := num_round (num_mul (termYears p) (num_of_Z (rawValue (paymentsPerYear p))))) in *.
  replace (Z.to_nat n) with (S (Z.to_nat n - 1)) by lia.
  rewrite seq_snoc, fold_left_snoc.
  set (s := fold_left _ (seq 1 (Z.to_nat n - 1)) _).
  exists (st_remainingBalance s). eexists. split.
  - unfold payment_step at 1. cbn [st_schedule]. rewrite map_app. apply last_snoc.
  - cbn [remainingBalance]. now rewrite (proj2 (Z.eqb_eq _ n)) by lia.
Qed.

End LastRow.

(** ** Binary64 facts *)

(** [x - x] is [+0] for every finite [x] and for both zeros, NaN otherwise. *)
Lemma dsub_self (x : double) : dsub x x = S754_zero false \/ dsub x x = S754_nan.
Proof.
  destruct x as [s|s| |s m e]; unfold dsub; cbn [SFsub].
  - left. now destruct s.
  - right. now destruct s.
  - now right.
  - left. now rewrite Z.sub_diag.
Qed.

Lemma of_Z_0 : of_Z 0 = S754_zero false.
Proof. reflexivity. Qed.

(** NaN absorbs every operation of the loop body. *)
Lemma nan_ops (x : double) :
  dadd x S754_nan = S754_nan /\ dsub S754_nan x = S754_nan /\ dsub x S754_nan = S754_nan
  /\ dmul S754_nan x = S754_nan /\ js_max S754_nan x = S754_nan
  /\ js_min S754_nan x = S754_nan.
Proof. destruct x; repeat split. Qed.

Section Engine.
Variable fpow : double -> Z -> double.
#[local] Instance binary64_inst : Number double := binary64_number fpow.

(** C28 (invariant): in binary64, for every [Math.pow], the last row of a
    non-empty schedule leaves a balance of exactly [+0], or NaN when the
    computation has already produced NaN: never a non-zero leftover from
    rounding (spec: [schedule[last].remainingBalance == 0] exactly). *)
Theorem final_balance_zero_or_nan (p : LoanParameters double) :
  (0 < payment_count p)%Z ->
  exists row, last (map Some (schedule (calculate p))) None = Some row
    /\ (remainingBalance row = S754_zero false \/ remainingBalance row = S754_nan).
Proof.
  intros Hn. destruct (calculate_last_balance p Hn) as (rb & row & Hl & Hb).
  exists row. split; [exact Hl|]. rewrite Hb. cbn [num_max num_sub num_of_Z binary64_inst
    binary64_number]. rewrite of_Z_0.
  destruct (dsub_self rb) as [E|E]; rewrite E; [left|right]; reflexivity.
Qed.

(** One iteration when its principal portion is NaN: a level payment of
    NaN not at the last payment, or a NaN balance. *)
Lemma nan_step (n : Z) (r : double) (s : LoopState double) (k : nat) :
  (st_remainingBalance s = S754_nan \/ (Z.of_nat k =? n)%Z = false) ->
  exists row,
    st_schedule (payment_step num_max num_min n r S754_nan s k) = st_schedule s ++ [row]
    /\ paymentAmount row = S754_nan /\ remainingBalance row = S754_nan
    /\ st_remainingBalance (payment_step num_max num_min n r S754_nan s k) = S754_nan
    /\ st_totalPaid (payment_step num_max num_min n r S754_nan s k) = S754_nan
    /\ (st_remainingBalance s = S754_nan ->
        st_totalInterest (payment_step num_max num_min n r S754_nan s k) = S754_nan).
Proof.
  destruct s as [b ti tp sc]; cbn [st_remainingBalance]. intros Hb.
  eexists. split; [reflexivity|]. unfold payment_step.
  cbn [st_remainingBalance st_totalPaid st_totalInterest paymentAmount remainingBalance
       num_max num_min num_sub num_mul num_add num_of_Z binary64_inst binary64_number].
  assert (Hp : (if (Z.of_nat k =? n)%Z then b
                else js_min (js_max (dsub S754_nan (dmul b r)) (of_Z 0)) b) = S754_nan).
  { destruct Hb as [ -> | -> ]; [destruct (Z.of_nat k =? n)%Z|]; reflexivity. }
  rewrite Hp. destruct (nan_ops (js_max (dmul b r) (of_Z 0))) as (E1 & _).
  destruct (nan_ops b) as (_ & _ & E3 & _). rewrite E3.
  repeat split; try reflexivity.
  - change (dadd S754_nan (js_max (dmul b r) (of_Z 0))) with S754_nan. apply nan_ops.
  - intros ->. apply nan_ops.
Qed.

Lemma nan_steps (n : Z) (r : double) (ks : list nat) (s : LoopState double) :
  st_remainingBalance s = S754_nan ->
  exists rows,
    st_schedule (fold_left (payment_step num_max num_min n r S754_nan) ks s) = st_schedule s ++ rows
    /\ Forall (fun row => paymentAmount row = S754_nan /\ remainingBalance row = S754_nan) rows
    /\ st_remainingBalance (fold_left (payment_step num_max num_min n r S754_nan) ks s) = S754_nan
    /\ (ks <> [] ->
        st_totalPaid (fold_left (payment_step num_max num_min n r S754_nan) ks s) = S754_nan
        /\ st_totalInterest (fold_left (payment_step num_max num_min n r S754_nan) ks s) = S754_nan).
Proof.
  revert s; induction ks as [|k ks IH]; intros s Hb.
  - exists []. split; [now rewrite app_nil_r|]. split; [apply Forall_nil|].
    split; [exact Hb|]. now intros [].
  - destruct (nan_step n r s k (or_introl Hb)) as (row & Hs & Hpa & Hrb & Hb' & Htp & Hti).
    cbn [fold_left].
    destruct (IH _ Hb') as (rows & Hs' & Hf & Hb'' & Htot).
    exists (row :: rows). split; [rewrite Hs', Hs, <- app_assoc; reflexivity|].
    split; [constructor; [split; assumption|exact Hf]|]. split; [exact Hb''|].
    intros _. destruct ks as [|k' ks]; [cbn; split; [exact Htp|exact (Hti Hb)]|].
    apply Htot. discriminate.
Qed.

(** C29 (error): in binary64, a level payment that is NaN (what
    [P * (r * f) / (f - 1)] gives when [Math.pow] overflows to infinity
    for a large rate) makes every row's payment and balance NaN, and both
    totals NaN, as soon as there are two payments or more. *)
Theorem nan_payment_poisons (p : LoanParameters double) :
  periodicPayment (calculate p) = S754_nan -> (2 <= payment_count p)%Z ->
  totalPaid (calculate p) = S754_nan /\ totalInterest (calculate p) = S754_nan
  /\ Forall (fun row => paymentAmount row = S754_nan /\ remainingBalance row = S754_nan)
       (schedule (calculate p)).
Proof.
  intros Hpmt Hn. rewrite calculate_periodicPayment in Hpmt by lia.
  unfold payment_count in Hn, Hpmt. unfold_calculate p; [lia|].
  cbn [periodicPayment totalPaid totalInterest schedule]. rewrite Hpmt.
  set (n := num_round (num_mul (termYears p) (num_of_Z (rawValue (paymentsPerYear p))))) in *.
  replace (Z.to_nat n) with (S (Z.to_nat n - 1)) by lia. cbn [seq fold_left].
  destruct (nan_step n (num_div (num_div (interestRate p) (num_of_Z 100))
                              (num_of_Z (rawValue (paymentsPerYear p))))
              (initial_state (num_max (loanAmount p) (num_of_Z 0))) 1
              (or_intror (proj2 (Z.eqb_neq (Z.of_nat 1) n) ltac:(lia))))
    as (row & Hs & Hpa & Hrb & Hb & _ & _).
  destruct (nan_steps n (num_div (num_div (interestRate p) (num_of_Z 100))
                              (num_of_Z (rawValue (paymentsPerYear p))))
              (seq 2 (Z.to_nat n - 1)) _ Hb) as (rows & Hs' & Hf & _ & Htot).
  destruct (Htot ltac:(destruct (Z.to_nat n - 1)%nat eqn:E; [lia|discriminate]))
    as [Htp Hti].
  split; [exact Htp|]. split; [exact Hti|].
  rewrite Hs', Hs. cbn [initial_state st_schedule app].
  constructor; [split; assumption|exact Hf].
Qed.

(** ** The two engines on doubles *)

(** [Math.max(x, 0)] and Swift's [max(x, 0)] agree on every double,
    NaN and both zeros included. *)
Lemma max_zero_swift (x : double) : num_max x (num_of_Z 0) = swift_max x (num_of_Z 0).
Proof. destruct x as [[]|[]| |[] m e]; reflexivity. Qed.

Lemma swift_max_zero_ne (x : double) : swift_max x (num_of_Z 0) <> S754_zero true.
Proof. destruct x as [[]|[]| |[] m e]; cbv; discriminate. Qed.

(** [Math.min(x, y)] and Swift's [min(x, y)] agree unless [y] is [-0] or
    [y] alone is NaN. *)
Lemma min_swift (x y : double) :
  y <> S754_zero true -> (y = S754_nan -> x = S754_nan) ->
  num_min x y = swift_min x y.
Proof.
  intros Hz Hn. destruct x as [[]|[]| |[] m e], y as [[]|[]| |[] m' e'];
    try reflexivity; try contradiction; discriminate (Hn eq_refl).
Qed.

Lemma step_swift (n : Z) (r pmt : double) (s : LoopState double) (k : nat) :
  st_remainingBalance s <> S754_zero true ->
  payment_step num_max num_min n r pmt s k = payment_step swift_max swift_min n r pmt s k.
Proof.
  intros Hs. unfold payment_step. cbv zeta. rewrite !max_zero_swift.
  rewrite (min_swift _ _ Hs); [reflexivity|].
  intros E. rewrite E. destruct (nan_ops r) as (_ & _ & _ & Hm & _).
  destruct (nan_ops pmt) as (_ & _ & Hd & _).
  cbn [num_mul num_sub binary64_inst binary64_number]. rewrite Hm, Hd. reflexivity.
Qed.

Lemma steps_swift (n : Z) (r pmt : double) (ks : list nat) (s : LoopState double) :
  st_remainingBalance s <> S754_zero true ->
  fold_left (payment_step num_max num_min n r pmt) ks s
  = fold_left (payment_step swift_max swift_min n r pmt) ks s.
Proof.
  revert s; induction ks as [|k ks IH]; intros s Hs; [reflexivity|].
  cbn [fold_left]. rewrite (step_swift n r pmt s k Hs). apply IH.
  apply swift_max_zero_ne.
Qed.

(** [Math.round] with the guard [n <= 0] and [rounded()] with the guard
    [n > 0] take the same branch with the same count. *)
Lemma round_guards (x : double) :
  (num_round x <=? 0)%Z = negb (0 <? num_rounded x)%Z
  /\ ((0 < num_round x)%Z -> num_rounded x = num_round x).
Proof.
  cbn [num_round num_rounded binary64_inst binary64_number]. unfold d_round, d_rounded.
  destruct (to_Q x) as [q|]; [apply payment_count_guards|split; [reflexivity|lia]].
Qed.

(** C35 (equivalence): on IEEE doubles the React Native engine
    ([LoanCalculator.ts], [Math.max], [Math.min], [Math.round]) and the
    SwiftUI engine ([LoanCalculator.swift], Swift's [max], [min] and
    [rounded()]) return bit-identical results, NaN and signed zeros in
    the amount, the rate and every intermediate value included, with the
    same [pow], for every input whose payment count
    [termYears * paymentsPerYear] is a finite double of magnitude below
    [2^63] (where [Math.round] and [rounded()] give an integer and Swift's
    [Int(...)] at line 23 does not trap): the balance the loop carries is
    never [-0], and a NaN balance makes the other argument of [min] NaN
    too, which are the only places the two [min]s differ. *)
Theorem calculate_swift_bitwise (p : LoanParameters double) :
  (exists q, to_Q (dmul (termYears p) (of_Z (rawValue (paymentsPerYear p)))) = Some q
             /\ Qabs q < inject_Z (2 ^ 63)) ->
  calculate p = calculate_swift p.
Proof.
  intros _. unfold calculate, calculate_swift.
  destruct (round_guards (num_mul (termYears p) (num_of_Z (rawValue (paymentsPerYear p)))))
    as [Hg Heq].
  rewrite <- Hg. destruct (Z.leb_spec (num_round (num_mul (termYears p)
    (num_of_Z (rawValue (paymentsPerYear p))))) 0) as [Hle|Hlt]; [reflexivity|].
  rewrite (Heq Hlt), max_zero_swift, payment_loop_fold, Nat.add_sub by lia.
  unfold swift_loop. rewrite steps_swift; [reflexivity|apply swift_max_zero_ne].
Qed.

(** ** Signs on doubles *)

Lemma max_zero_nonneg (x : double) : nonneg_or_nan (num_max x (num_of_Z 0)) = true.
Proof. destruct x as [[]|[]| |[] m e]; reflexivity. Qed.

Lemma min_nonneg (x y : double) :
  nonneg_or_nan x = true -> nonneg_or_nan y = true -> nonneg_or_nan (num_min x y) = true.
Proof.
  cbn [num_min binary64_inst binary64_number js_min].
  destruct x as [[]|[]| |[] m e], y as [[]|[]| |[] m' e']; unfold js_min; try easy;
    match goal with |- context [if dltb ?a ?b then _ else _] => destruct (dltb a b) end; easy.
Qed.

Lemma steps_nonneg (n : Z) (r pmt : double) (ks : list nat) (s : LoopState double) :
  nonneg_or_nan (st_remainingBalance s) = true -> Forall row_nonneg (st_schedule s) ->
  Forall row_nonneg (st_schedule (fold_left (payment_step num_max num_min n r pmt) ks s)).
Proof.
  revert s; induction ks as [|k ks IH]; intros s Hb Hs; [exact Hs|].
  cbn [fold_left]. apply IH; [apply max_zero_nonneg|].
  unfold payment_step; cbn [st_schedule]. apply Forall_app; split; [exact Hs|].
  constructor; [|constructor]. unfold row_nonneg; cbn [interestPaid principalPaid remainingBalance].
  split; [apply max_zero_nonneg|]. split; [|apply max_zero_nonneg].
  destruct (Z.of_nat k =? n)%Z; [exact Hb|]. exact (min_nonneg _ _ (max_zero_nonneg _) Hb).
Qed.

(** C36 (invariant): the floating-point counterpart of the spec's "no
    negative amounts": on IEEE doubles, for every [pow] and every input,
    every row of the TS engine's schedule has an interest portion, a
    principal portion and a remaining balance that are [>= 0] or NaN, never
    a negative number, because each is a [Math.max(_, 0)], a [Math.min] of
    two such values, or the balance itself. *)
Theorem schedule_nonneg_or_nan (p : LoanParameters double) :
  Forall row_nonneg (schedule (calculate p)).
Proof.
  unfold_calculate p; [constructor|]. cbn [schedule].
  apply steps_nonneg; [apply max_zero_nonneg|constructor].
Qed.

End Engine.

Lemma final_balance_zero_or_nan_witness :
  (0 < @payment_count double (binary64_number cr_pow) (double_config vehicle))%Z /\
  exists row, last (map Some (schedule (@calculate double (binary64_number cr_pow)
                                          (double_config vehicle)))) None = Some row
    /\ (remainingBalance row = S754_zero false \/ remainingBalance row = S754_nan).
Proof.
  split; [vm_compute; reflexivity |].
  apply (final_balance_zero_or_nan cr_pow); vm_compute; reflexivity.
Defined.

Lemma nan_payment_poisons_witness :
  let c := @calculate double (binary64_number cr_pow) runaway_rate in
  periodicPayment c = S754_nan /\ totalPaid c = S754_nan /\ totalInterest c = S754_nan
  /\ Forall (fun row => paymentAmount row = S754_nan /\ remainingBalance row = S754_nan)
            (schedule c).
Proof.
  cbv zeta.
  assert (Hp : periodicPayment (@calculate double (binary64_number cr_pow) runaway_rate)
               = S754_nan) by (vm_compute; reflexivity).
  split; [exact Hp |].
  apply (nan_payment_poisons cr_pow); [exact Hp | vm_compute; discriminate].
Defined.

(** With IEEE doubles and a correctly rounded [pow], the
    vehicle loan (45000 at 7.25 % over 6 years, monthly) quotes a periodic
    payment of 6796026634358461 * 2^-43 (772.6187...) while the last row of
    its schedule pays 6796026634362731 * 2^-43: the final-row override of
    calculateLoanDetails pays the rounding residue of 72 float steps, so the
    quoted payment and the last payment differ in the double model, where
    the exact model makes them equal (C27). Both values agree bit for bit
    with the TypeScript engine run on a binary64 runtime. *)
Theorem vehicle_last_payment_differs :
  let c := @calculate double (binary64_number cr_pow) (double_config vehicle) in
  periodicPayment c = S754_finite false 6796026634358461 (-43)
  /\ option_map paymentAmount (last (map Some (schedule c)) None)
     = Some (S754_finite false 6796026634362731 (-43)).
Proof. vm_compute; split; reflexivity. Qed.

(** The vehicle loan: 6 years of 12 payments, a count of 72. *)
Lemma calculate_swift_bitwise_witness :
  (exists q, to_Q (dmul (termYears (double_config vehicle))
                        (of_Z (rawValue (paymentsPerYear (double_config vehicle))))) = Some q
             /\ (Qabs q < inject_Z (2 ^ 63))%Q)
  /\ @calculate double (binary64_number cr_pow) (double_config vehicle)
     = @calculate_swift double (binary64_number cr_pow) (double_config vehicle).
Proof.
  assert (H : exists q, to_Q (dmul (termYears (double_config vehicle))
                        (of_Z (rawValue (paymentsPerYear (double_config vehicle))))) = Some q
             /\ (Qabs q < inject_Z (2 ^ 63))%Q)
    by (eexists; split; [vm_compute; reflexivity|vm_compute; reflexivity]).
  split; [exact H|]. exact (calculate_swift_bitwise cr_pow _ H).
Defined.

End Binary64.
