(* ===== verification/Formatters.v ===== *)
(** Text to numbers and back: [src/mobile/src/utils/formatters.ts].

    The React Native form shows the loan amount with [formatCurrency]
    ([Intl.NumberFormat('en-US', currency USD, 2 fraction digits)]) and the
    rate with [toFixed(3)], and reads what the user types back with
    [parseCurrency] and [parsePercentage], both built on JavaScript's
    [parseFloat] and [|| 0].

    A JavaScript number is modelled by [JsParsed]: NaN, an infinity, or a
    finite value given exactly as a rational (the double nearest to it is
    what the runtime stores; the exact value is what the theorems speak
    of).  Strings are Stdlib [string]s (8-bit characters); the whitespace
    [parseFloat] skips is the ASCII part of ECMAScript's [StrWhiteSpaceChar]
    (tab, line feed, vertical tab, form feed, carriage return, space). *)

From Stdlib Require Import QArith Qpower Qround Qabs ZArith String Ascii List Lia Lqa.
From S2P Require Import Prelude Number ExactNumber.
Import ListNotations.

Local Open Scope Q_scope.

Module Formatters.

(** ** JavaScript numbers as [parseFloat] produces them *)

Inductive JsParsed : Type :=
| PNaN
| PInf (negative : bool)
| PFin (q : Q).

Definition js_negate (v : JsParsed) : JsParsed :=
  match v with
  | PNaN => PNaN
  | PInf b => PInf (negb b)
  | PFin q => PFin (- q)
  end.

(** [x || 0]: NaN, 0 and -0 are falsy and give 0. *)
Definition js_or_zero (v : JsParsed) : JsParsed :=
  match v with
  | PNaN => PFin 0
  | PFin q => if Qeq_bool q 0 then PFin 0 else PFin q
  | PInf b => PInf b
  end.

(** ** Characters and digit strings *)

Definition is_digit (c : ascii) : bool :=
  (48 <=? nat_of_ascii c)%nat && (nat_of_ascii c <=? 57)%nat.

Definition digit_value (c : ascii) : Z := Z.of_nat (nat_of_ascii c) - 48.

Definition ascii_of_digit (d : Z) : ascii := ascii_of_nat (48 + Z.to_nat d).

(** ECMAScript [StrWhiteSpaceChar], ASCII part. *)
Definition is_js_space (c : ascii) : bool :=
  let n := nat_of_ascii c in
  ((9 <=? n)%nat && (n <=? 13)%nat) || (n =? 32)%nat.

(** The longest prefix of decimal digits, and the rest. *)
Fixpoint take_digits (s : string) : string * string :=
  match s with
  | EmptyString => (EmptyString, EmptyString)
  | String c s' =>
      if is_digit c then let (d, r) := take_digits s' in (String c d, r)
      else (EmptyString, s)
  end.

(** The value of a digit string, read left to right. *)
Fixpoint digits_value_acc (d : string) (acc : Z) : Z :=
  match d with
  | EmptyString => acc
  | String c d' => digits_value_acc d' (acc * 10 + digit_value c)
  end.

Definition digits_value (d : string) : Z := digits_value_acc d 0.

(** The decimal digits of [n >= 0], most significant first, no leading
    zero ("0" for 0); [fuel] bounds the number of digits. *)
Fixpoint Z_digits_acc (fuel : nat) (n : Z) (acc : string) : string :=
  match fuel with
  | O => String (ascii_of_digit n) acc
  | S fuel' =>
      if (n <? 10)%Z then String (ascii_of_digit n) acc
      else Z_digits_acc fuel' (n / 10) (String (ascii_of_digit (n mod 10)) acc)
  end.

Definition Z_digits (n : Z) : string :=
  Z_digits_acc (Z.to_nat (Z.log2 n)) n EmptyString.

(** ** [parseFloat] (ECMAScript 21.1.2.12) *)

(** The exponent part [(e|E) [+|-] digits] after a decimal literal; 0 if
    there is none (an [e] without digits is not part of the literal). *)
Definition parse_exponent (s : string) : Z :=
  match s with
  | String c s' =>
      if (c =? "e")%char || (c =? "E")%char then
        let '(neg, s'') :=
          match s' with
          | String c' r =>
              if (c' =? "+")%char then (false, r)
              else if (c' =? "-")%char then (true, r) else (false, s')
          | EmptyString => (false, s')
          end in
        let (ds, _) := take_digits s'' in
        if (ds =? EmptyString)%string then 0%Z
        else if neg then (- digits_value ds)%Z else digits_value ds
      else 0%Z
  | EmptyString => 0%Z
  end.

(** [int] digits, [frac] digits, exponent [e]: [int.frac * 10^e]. *)
Definition decimal_value (int frac : string) (e : Z) : Q :=
  inject_Z (digits_value (int ++ frac)) * Qpower 10 (e - Z.of_nat (String.length frac)).

(** The longest prefix of [s] that is a [StrUnsignedDecimalLiteral]. *)
Definition parse_unsigned (s : string) : JsParsed :=
  if String.prefix "Infinity" s then PInf false
  else
    let (int, r1) := take_digits s in
    match r1 with
    | String c r2 =>
        if (c =? ".")%char then
          let (frac, r3) := take_digits r2 in
          if (int =? EmptyString)%string && (frac =? EmptyString)%string then PNaN
          else PFin (decimal_value int frac (parse_exponent r3))
        else if (int =? EmptyString)%string then PNaN
        else PFin (decimal_value int EmptyString (parse_exponent r1))
    | EmptyString =>
        if (int =? EmptyString)%string then PNaN
        else PFin (decimal_value int EmptyString (parse_exponent r1))
    end.

Fixpoint trim_start (s : string) : string :=
  match s with
  | String c s' => if is_js_space c then trim_start s' else s
  | EmptyString => EmptyString
  end.

Definition parseFloat (s : string) : JsParsed :=
  match trim_start s with
  | String c r =>
      if (c =? "-")%char then js_negate (parse_unsigned r)
      else if (c =? "+")%char then parse_unsigned r
      else parse_unsigned (String c r)
  | EmptyString => parse_unsigned EmptyString
  end.

(** ** formatters.ts *)

(** [value.replace(/[^\d.]/g, '')] *)
Fixpoint keep_digits_and_dots (s : string) : string :=
  match s with
  | EmptyString => EmptyString
  | String c s' =>
      if is_digit c || (c =? ".")%char then String c (keep_digits_and_dots s')
      else keep_digits_and_dots s'
  end.

(** [value.replace('%', '')]: a string pattern replaces its first
    occurrence only. *)
Fixpoint remove_first_percent (s : string) : string :=
  match s with
  | EmptyString => EmptyString
  | String c s' => if (c =? "%")%char then s' else String c (remove_first_percent s')
  end.

(** [parseCurrency] (lines 14-18). *)
Definition parseCurrency (value : string) : JsParsed :=
  js_or_zero (parseFloat (keep_digits_and_dots value)).

(** [parsePercentage] (lines 20-24). *)
Definition parsePercentage (value : string) : JsParsed :=
  js_or_zero (parseFloat (remove_first_percent value)).

Fixpoint zeros (k : nat) : string :=
  match k with
  | O => EmptyString
  | S k' => String "0" (zeros k')
  end.

(** Step 10.b.ii of [toFixed]: if [k <= f], [m] gets [f+1-k] leading
    zeros, so that one digit precedes the point. *)
Definition pad_int_digit (f : nat) (m : string) : string :=
  if (String.length m <=? f)%nat then (zeros (f + 1 - String.length m) ++ m)%string else m.

(** [Number.prototype.toFixed(f)] (ECMAScript 21.1.3.3) on a finite value:
    the integer [n] nearest to [|x| * 10^f], the larger one on a tie,
    printed with at least [f + 1] digits and a point before the last [f]
    (no point when [f = 0]); [None] for [|x| >= 10^21], where [toFixed]
    falls back to [ToString].  The form calls it with [f = 3]
    ([formatPercentage], the rate field), the results panel with [f = 1]. *)
Definition toFixed (f : nat) (x : Q) : option string :=
  let '(sign, a) := if Qlt_le_dec x 0 then ("-"%string, - x) else (EmptyString, x) in
  if Qle_bool (inject_Z (10 ^ 21)) a then None
  else
    let n := Qfloor (a * inject_Z (10 ^ Z.of_nat f) + (1 # 2)) in
    if (f =? 0)%nat then Some (sign ++ Z_digits n)%string
    else
      let m := pad_int_digit f (Z_digits n) in
      let k := String.length m in
      Some (sign ++ substring 0 (k - f) m ++ "." ++ substring (k - f) f m)%string.

(** [`${value.toFixed(3)}%`]: [formatPercentage] (lines 10-12). *)
Definition formatPercentage (value : Q) : option string :=
  option_map (fun s => (s ++ "%")%string) (toFixed 3 value).

(** Digits grouped by three from the right with [","] (en-US grouping),
    computed on the reversed digit list. *)
Fixpoint commas_rev (l : list ascii) (i : nat) : list ascii :=
  match l with
  | [] => []
  | c :: l' =>
      (if (0 <? i)%nat && (Nat.modulo i 3 =? 0)%nat then [","%char; c] else [c])
      ++ commas_rev l' (S i)
  end.

Definition group3 (d : string) : string :=
  string_of_list_ascii (rev (commas_rev (rev (list_ascii_of_string d)) 0)).

Definition pad2 (d : string) : string :=
  if (String.length d <? 2)%nat then String "0" d else d.

(** [formatCurrency] (lines 1-8): [Intl.NumberFormat('en-US', { style:
    'currency', currency: 'USD', minimumFractionDigits: 2,
    maximumFractionDigits: 2 })]: cents rounded half away from zero
    ([halfExpand]), a minus sign for negative values, [$], grouped dollars,
    two-digit cents. *)
Definition formatCurrency (value : Q) : string :=
  let c := Qfloor (Qabs value * 100 + (1 # 2)) in
  ((if Qlt_le_dec value 0 then "-" else "") ++ "$" ++ group3 (Z_digits (c / 100))
   ++ "." ++ pad2 (Z_digits (c mod 100)))%string.

(** ** Digit strings *)

Fixpoint all_digits (s : string) : bool :=
  match s with
  | EmptyString => true
  | String c s' => is_digit c && all_digits s'
  end.

Lemma all_digits_app (a b : string) :
  all_digits (a ++ b) = all_digits a && all_digits b.
Proof.
  induction a as [|c a IH]; simpl; [reflexivity|].
  rewrite IH. apply andb_assoc.
Qed.

Lemma ascii_of_digit_spec (d : Z) :
  (0 <= d < 10)%Z -> is_digit (ascii_of_digit d) = true /\ digit_value (ascii_of_digit d) = d.
Proof.
  intros Hd.
  assert (d = 0 \/ d = 1 \/ d = 2 \/ d = 3 \/ d = 4 \/ d = 5 \/ d = 6 \/ d = 7
          \/ d = 8 \/ d = 9)%Z as Hc by lia.
  repeat destruct Hc as [->|Hc]; [..|subst]; split; reflexivity.
Qed.

Lemma digits_value_acc_app (d e : string) (a : Z) :
  digits_value_acc (d ++ e) a = digits_value_acc e (digits_value_acc d a).
Proof. revert a; induction d as [|c d IH]; intros a; simpl; auto. Qed.

(** Reading digits after an accumulator shifts it by the length read. *)
Lemma digits_value_acc_shift (e : string) (a : Z) :
  digits_value_acc e a = (a * 10 ^ Z.of_nat (String.length e) + digits_value e)%Z.
Proof.
  unfold digits_value. revert a; induction e as [|c e IH]; intros a;
    cbn [digits_value_acc String.length].
  - change (Z.of_nat 0) with 0%Z. rewrite Z.pow_0_r. lia.
  - rewrite (IH (a * 10 + digit_value c)%Z), (IH (0 * 10 + digit_value c)%Z),
      Nat2Z.inj_succ, Z.pow_succ_r by lia.
    ring.
Qed.

Lemma digits_value_app (d e : string) :
  digits_value (d ++ e)
  = (digits_value d * 10 ^ Z.of_nat (String.length e) + digits_value e)%Z.
Proof. unfold digits_value at 1. now rewrite digits_value_acc_app, digits_value_acc_shift. Qed.

Lemma Z_digits_acc_app (fuel : nat) (n : Z) (acc : string) :
  Z_digits_acc fuel n acc = (Z_digits_acc fuel n EmptyString ++ acc)%string.
Proof.
  revert n acc; induction fuel as [|fuel IH]; intros n acc; simpl; [reflexivity|].
  destruct (n <? 10)%Z; [reflexivity|].
  rewrite IH, (IH _ (String _ EmptyString)), <- string_app_assoc. reflexivity.
Qed.

Lemma Z_digits_acc_spec (fuel : nat) (n : Z) :
  (0 <= n < 10 ^ Z.of_nat (S fuel))%Z ->
  all_digits (Z_digits_acc fuel n EmptyString) = true
  /\ digits_value (Z_digits_acc fuel n EmptyString) = n
  /\ Z_digits_acc fuel n EmptyString <> EmptyString.
Proof.
  unfold digits_value.
  revert n; induction fuel as [|fuel IH]; intros n Hn.
  - change (10 ^ Z.of_nat 1)%Z with 10%Z in Hn.
    destruct (ascii_of_digit_spec n ltac:(lia)) as [D V].
    cbn [Z_digits_acc all_digits digits_value_acc]. rewrite D, V.
    split; [reflexivity|]. split; [lia|discriminate].
  - cbn [Z_digits_acc]. destruct (Z.ltb_spec n 10) as [Hl|Hl].
    + destruct (ascii_of_digit_spec n ltac:(lia)) as [D V].
      cbn [all_digits digits_value_acc]. rewrite D, V.
      split; [reflexivity|]. split; [lia|discriminate].
    + destruct (ascii_of_digit_spec (n mod 10) (Z.mod_pos_bound n 10 eq_refl)) as [D V].
      rewrite Nat2Z.inj_succ, Z.pow_succ_r in Hn by lia.
      destruct (IH (n / 10)%Z) as (A & Val & Ne).
      { split; [apply Z.div_pos; lia|]. apply Z.div_lt_upper_bound; lia. }
      rewrite Z_digits_acc_app, all_digits_app, digits_value_acc_app, A, Val.
      cbn [all_digits digits_value_acc]. rewrite D, V.
      split; [reflexivity|]. split; [pose proof (Z.div_mod n 10); lia|].
      destruct (Z_digits_acc fuel (n / 10) EmptyString); [contradiction|discriminate].
Qed.

(** [Z_digits n] is a non-empty digit string denoting [n]. *)
Lemma Z_digits_spec (n : Z) :
  (0 <= n)%Z ->
  all_digits (Z_digits n) = true /\ digits_value (Z_digits n) = n /\ Z_digits n <> EmptyString.
Proof.
  intros Hn. apply Z_digits_acc_spec. split; [exact Hn|].
  destruct (Z.eq_dec n 0) as [->|Hn0]; [vm_compute; reflexivity|].
  destruct (Z.log2_spec n ltac:(lia)) as [_ Hup].
  rewrite Nat2Z.inj_succ, Z2Nat.id by apply Z.log2_nonneg.
  eapply Z.lt_le_trans; [exact Hup|].
  apply Z.pow_le_mono_l. lia.
Qed.

(** ** Reading digits back *)

Lemma take_digits_app (d e : string) :
  all_digits d = true ->
  take_digits (d ++ e) = ((d ++ fst (take_digits e))%string, snd (take_digits e)).
Proof.
  induction d as [|c d IH]; simpl; intros A.
  - now destruct (take_digits e).
  - apply andb_true_iff in A as [A1 A2]. rewrite A1, IH by exact A2. reflexivity.
Qed.

Lemma take_digits_stop (c : ascii) (e : string) :
  is_digit c = false -> take_digits (String c e) = (EmptyString, String c e).
Proof. intros H. simpl. now rewrite H. Qed.

Lemma take_digits_all (d : string) :
  all_digits d = true -> take_digits d = (d, EmptyString).
Proof.
  intros A. rewrite <- (string_app_nil_r d) at 1.
  rewrite take_digits_app by exact A. simpl. now rewrite string_app_nil_r.
Qed.

Lemma Z_digits_acc_lt10 (fuel : nat) (n : Z) (acc : string) :
  (n < 10)%Z -> Z_digits_acc fuel n acc = String (ascii_of_digit n) acc.
Proof.
  intros Hn. destruct fuel; cbn [Z_digits_acc]; [reflexivity|].
  now rewrite (proj2 (Z.ltb_lt n 10) Hn).
Qed.

(** Cents: [pad2] of the digits of [0 <= m < 100] is two digits denoting [m]. *)
Lemma pad2_cents (m : Z) :
  (0 <= m < 100)%Z ->
  all_digits (pad2 (Z_digits m)) = true
  /\ digits_value (pad2 (Z_digits m)) = m
  /\ String.length (pad2 (Z_digits m)) = 2%nat.
Proof.
  intros Hm. destruct (Z_digits_spec m ltac:(lia)) as (A & V & _).
  unfold pad2. destruct (Z.ltb_spec m 10) as [Hl|Hl].
  - unfold Z_digits in *. rewrite Z_digits_acc_lt10 in * by exact Hl.
    cbn [String.length Nat.ltb Nat.leb]. cbn [all_digits] in A |- *.
    rewrite A. split; [reflexivity|]. split; [|reflexivity].
    unfold digits_value in *. cbn [digits_value_acc] in V |- *. exact V.
  - assert (Hlog : Z.to_nat (Z.log2 m) = S (Z.to_nat (Z.log2 m - 1))).
    { assert (3 <= Z.log2 m)%Z by (apply Z.log2_le_mono with (a := 10%Z) (b := m) in Hl; exact Hl). lia. }
    unfold Z_digits in *. rewrite Hlog in *. cbn [Z_digits_acc] in *.
    rewrite (proj2 (Z.ltb_ge m 10) Hl) in *.
    rewrite Z_digits_acc_lt10 in * by (apply Z.div_lt_upper_bound; lia).
    cbn [String.length Nat.ltb Nat.leb]. auto.
Qed.

(** ** What [parseCurrency] keeps of a formatted amount *)

Definition keep_char (c : ascii) : bool := is_digit c || (c =? ".")%char.

Lemma keep_list (s : string) :
  list_ascii_of_string (keep_digits_and_dots s) = filter keep_char (list_ascii_of_string s).
Proof.
  induction s as [|c s IH]; simpl; [reflexivity|].
  unfold keep_char. destruct (is_digit c || (c =? ".")%char); simpl; now rewrite IH.
Qed.

Lemma keep_app (a b : string) :
  keep_digits_and_dots (a ++ b) = (keep_digits_and_dots a ++ keep_digits_and_dots b)%string.
Proof.
  induction a as [|c a IH]; simpl; [reflexivity|].
  destruct (is_digit c || (c =? ".")%char); simpl; now rewrite IH.
Qed.

Lemma keep_all_digits (d : string) :
  all_digits d = true -> keep_digits_and_dots d = d.
Proof.
  induction d as [|c d IH]; simpl; [reflexivity|].
  intros A. apply andb_true_iff in A as [A1 A2]. rewrite A1. simpl. now rewrite IH.
Qed.

Lemma filter_commas_rev (l : list ascii) (i : nat) :
  filter keep_char (commas_rev l i) = filter keep_char l.
Proof.
  revert i; induction l as [|c l IH]; intros i; [reflexivity|].
  cbn [commas_rev]. rewrite filter_app, IH.
  destruct ((0 <? i)%nat && (Nat.modulo i 3 =? 0)%nat); cbn [filter];
    [change (keep_char ",") with false|]; now destruct (keep_char c).
Qed.

(** Grouping only inserts commas, which [parseCurrency] drops again. *)
Lemma keep_group3 (d : string) :
  all_digits d = true -> keep_digits_and_dots (group3 d) = d.
Proof.
  intros A. rewrite <- (string_of_list_ascii_of_string (keep_digits_and_dots _)).
  rewrite keep_list. unfold group3.
  rewrite list_ascii_of_string_of_list_ascii, filter_rev, filter_commas_rev,
    filter_rev, rev_involutive, <- keep_list, keep_all_digits by exact A.
  apply string_of_list_ascii_of_string.
Qed.

(** ** [parseFloat] on a fixed-point literal *)

Lemma digit_code (c : ascii) :
  is_digit c = true -> (48 <= nat_of_ascii c <= 57)%nat.
Proof.
  unfold is_digit. intros H. apply andb_true_iff in H as [H1 H2].
  apply Nat.leb_le in H1, H2. lia.
Qed.

Lemma eqb_digit_nondigit (c d : ascii) :
  is_digit c = true -> is_digit d = false -> (c =? d)%char = false.
Proof. intros Hc Hd. destruct (Ascii.eqb_spec c d) as [->|]; congruence. Qed.

Lemma digit_not_space (c : ascii) : is_digit c = true -> is_js_space c = false.
Proof.
  intros Hc. apply digit_code in Hc. unfold is_js_space.
  destruct (Nat.leb_spec 9 (nat_of_ascii c)), (Nat.leb_spec (nat_of_ascii c) 13),
    (Nat.eqb_spec (nat_of_ascii c) 32); simpl; lia || reflexivity.
Qed.

Lemma parseFloat_digit (c : ascii) (r : string) :
  is_digit c = true -> parseFloat (String c r) = parse_unsigned (String c r).
Proof.
  intros Hc. unfold parseFloat. cbn [trim_start]. rewrite digit_not_space by exact Hc.
  now rewrite !eqb_digit_nondigit by (exact Hc || reflexivity).
Qed.

Lemma prefix_Infinity (c : ascii) (r : string) :
  c <> "I"%char -> String.prefix "Infinity" (String c r) = false.
Proof. intros Hc. cbn [String.prefix]. now destruct (ascii_dec "I" c) as [<-|]. Qed.

Lemma digit_not_I (c : ascii) : is_digit c = true -> c <> "I"%char.
Proof. now intros Hc ->. Qed.

(** [D.P], with [D] a non-empty digit string and [P] a digit string, reads
    as [D + P / 10^|P|]. *)
Lemma parse_unsigned_fixed (D P : string) :
  all_digits D = true -> D <> EmptyString -> all_digits P = true ->
  parse_unsigned (D ++ String "." P) = PFin (decimal_value D P 0).
Proof.
  intros AD ND AP. destruct D as [|c D']; [contradiction|].
  pose proof AD as AD'. cbn [all_digits] in AD'. apply andb_true_iff in AD' as [Hc _].
  unfold parse_unsigned.
  replace (String.prefix "Infinity" _) with false
    by (symmetry; apply (prefix_Infinity c (D' ++ String "." P)), digit_not_I, Hc).
  rewrite take_digits_app, take_digits_stop by (exact AD || reflexivity).
  cbn [fst snd]. rewrite take_digits_all by exact AP.
  rewrite string_app_nil_r. reflexivity.
Qed.

Lemma parseFloat_fixed (D P : string) :
  all_digits D = true -> D <> EmptyString -> all_digits P = true ->
  parseFloat (D ++ String "." P) = PFin (decimal_value D P 0).
Proof.
  intros AD ND AP. rewrite <- parse_unsigned_fixed by assumption.
  destruct D as [|c D']; [contradiction|].
  cbn [all_digits] in AD. apply andb_true_iff in AD as [Hc _].
  apply parseFloat_digit, Hc.
Qed.

Lemma parseFloat_neg_fixed (D P : string) :
  all_digits D = true -> D <> EmptyString -> all_digits P = true ->
  parseFloat (String "-" (D ++ String "." P)) = PFin (- decimal_value D P 0).
Proof.
  intros AD ND AP. unfold parseFloat. cbn [trim_start].
  change (is_js_space "-") with false. change ("-" =? "-")%char with true. cbv iota.
  now rewrite parse_unsigned_fixed.
Qed.

(** ** Values of the parsed literals *)

Lemma digits_value_acc_nonneg (d : string) (acc : Z) :
  all_digits d = true -> (0 <= acc)%Z -> (0 <= digits_value_acc d acc)%Z.
Proof.
  revert acc; induction d as [|c d IH]; intros acc A Hacc; cbn [digits_value_acc]; [exact Hacc|].
  cbn [all_digits] in A. apply andb_true_iff in A as [Hc A].
  apply IH; [exact A|]. apply digit_code in Hc. unfold digit_value. lia.
Qed.

Lemma decimal_value_nonneg (int frac : string) (e : Z) :
  all_digits int = true -> all_digits frac = true -> 0 <= decimal_value int frac e.
Proof.
  intros A1 A2. unfold decimal_value. apply Qmult_le_0_compat.
  - change 0 with (inject_Z 0). rewrite <- Zle_Qle.
    apply digits_value_acc_nonneg; [rewrite all_digits_app, A1, A2|]; reflexivity.
  - apply Qpower_0_le. discriminate.
Qed.

Lemma take_digits_digits (s : string) : all_digits (fst (take_digits s)) = true.
Proof.
  induction s as [|c s IH]; cbn [take_digits]; [reflexivity|].
  destruct (is_digit c) eqn:E; [|reflexivity].
  destruct (take_digits s) as [d r]. cbn [fst all_digits] in *. now rewrite E, IH.
Qed.

(** A result of [parseFloat] that is NaN or a finite non-negative number. *)
Definition nan_or_nonneg (v : JsParsed) : Prop :=
  match v with
  | PNaN => True
  | PFin q => 0 <= q
  | PInf _ => False
  end.

Lemma parse_unsigned_nonneg (s : string) :
  String.prefix "Infinity" s = false -> nan_or_nonneg (parse_unsigned s).
Proof.
  intros Hp. unfold parse_unsigned. rewrite Hp.
  pose proof (take_digits_digits s) as A1.
  destruct (take_digits s) as [int r1]. cbn [fst] in A1.
  assert (E : forall r, nan_or_nonneg (if (int =? "")%string then PNaN
                                        else PFin (decimal_value int "" (parse_exponent r)))).
  { intros r. destruct (int =? "")%string; [exact I|]. now apply decimal_value_nonneg. }
  destruct r1 as [|c r2]; [apply E|].
  destruct (c =? ".")%char; [|apply E].
  pose proof (take_digits_digits r2) as A2.
  destruct (take_digits r2) as [frac r3]. cbn [fst] in A2.
  destruct ((int =? "")%string && (frac =? "")%string); [exact I|].
  now apply decimal_value_nonneg.
Qed.

Lemma js_or_zero_nonneg (v : JsParsed) :
  nan_or_nonneg v -> exists q, js_or_zero v = PFin q /\ 0 <= q.
Proof.
  destruct v as [|b|q]; cbn; intros H; [|contradiction|].
  - exists 0. split; [reflexivity|discriminate].
  - destruct (Qeq_bool q 0); eexists; split; [reflexivity| |reflexivity|exact H]; discriminate.
Qed.

Lemma js_or_zero_fin (q : Q) : exists q', js_or_zero (PFin q) = PFin q' /\ q' == q.
Proof.
  cbn. destruct (Qeq_bool q 0) eqn:E; eexists; (split; [reflexivity|]); [|reflexivity].
  apply Qeq_bool_iff in E. now rewrite E.
Qed.

(** Every character [keep_digits_and_dots] keeps starts neither a sign,
    white space nor ["Infinity"]. *)
Lemma keep_head (s : string) :
  keep_digits_and_dots s = EmptyString
  \/ exists c r, keep_digits_and_dots s = String c r
                 /\ parseFloat (String c r) = parse_unsigned (String c r)
                 /\ c <> "I"%char.
Proof.
  induction s as [|c s IH]; cbn [keep_digits_and_dots]; [now left|].
  destruct (is_digit c) eqn:Hd; cbn [orb].
  - right. exists c, (keep_digits_and_dots s). split; [reflexivity|].
    split; [now apply parseFloat_digit|now apply digit_not_I].
  - destruct (Ascii.eqb_spec c ".") as [->|]; [|exact IH].
    right. eexists _, _. split; [reflexivity|]. split; [reflexivity|discriminate].
Qed.

Lemma keep_dot (s : string) :
  keep_digits_and_dots (String "." s) = String "." (keep_digits_and_dots s).
Proof. reflexivity. Qed.

Lemma decimal_value_fixed (D F : string) :
  decimal_value D F 0
  == inject_Z (digits_value (D ++ F)) / inject_Z (10 ^ Z.of_nat (String.length F)).
Proof.
  unfold decimal_value, Qdiv. rewrite Z.sub_0_l, Qpower_opp, Zpower_Qpower by lia.
  reflexivity.
Qed.

(** ** [toFixed(f)] *)

Lemma substring_0_full (s : string) : substring 0 (String.length s) s = s.
Proof. induction s as [|c s IH]; cbn; [reflexivity|now rewrite IH]. Qed.

Lemma substring_split (s : string) (j : nat) :
  (j <= String.length s)%nat ->
  (substring 0 j s ++ substring j (String.length s - j) s)%string = s.
Proof.
  revert j; induction s as [|c s IH]; intros j Hj.
  - cbn in Hj. assert (j = 0%nat) as -> by lia. reflexivity.
  - destruct j as [|j]; cbn [substring append String.length Nat.sub].
    + apply (substring_0_full (String c s)).
    + cbn [String.length] in Hj. f_equal. apply IH. lia.
Qed.

Lemma substring_length (n l : nat) (s : string) :
  (n + l <= String.length s)%nat -> String.length (substring n l s) = l.
Proof.
  revert n l; induction s as [|c s IH]; intros n l H.
  - cbn in H. assert (n = 0%nat /\ l = 0%nat) as [-> ->] by lia. reflexivity.
  - cbn [String.length] in H. destruct n as [|n], l as [|l]; cbn [substring String.length];
      [reflexivity| f_equal; apply IH; lia | apply IH; lia | apply IH; lia].
Qed.

Lemma zeros_spec (k : nat) :
  all_digits (zeros k) = true /\ digits_value (zeros k) = 0%Z
  /\ String.length (zeros k) = k.
Proof.
  induction k as [|k (A & V & L)]; [repeat split|].
  cbn [zeros all_digits String.length]. unfold digits_value in *.
  cbn [digits_value_acc]. change (0 * 10 + digit_value "0")%Z with 0%Z.
  change (is_digit "0") with true. now rewrite A, V, L.
Qed.

Lemma pad_int_digit_spec (f : nat) (d : string) :
  all_digits d = true ->
  all_digits (pad_int_digit f d) = true /\ digits_value (pad_int_digit f d) = digits_value d
  /\ (f + 1 <= String.length (pad_int_digit f d))%nat.
Proof.
  intros A. unfold pad_int_digit. destruct (Nat.leb_spec (String.length d) f).
  - destruct (zeros_spec (f + 1 - String.length d)) as (Az & Vz & Lz).
    rewrite all_digits_app, digits_value_app, string_length_app, Az, Vz, Lz, A.
    split; [reflexivity|]. split; lia.
  - split; [exact A|]. split; [reflexivity|lia].
Qed.

(** Splitting a digit string of at least [f + 1] digits before its last
    [f] gives the integer and fraction parts of its [10^-f]ths. *)
Lemma fixed_parts (f : nat) (m : string) :
  all_digits m = true -> (f + 1 <= String.length m)%nat ->
  all_digits (substring 0 (String.length m - f) m) = true
  /\ substring 0 (String.length m - f) m <> EmptyString
  /\ all_digits (substring (String.length m - f) f m) = true
  /\ decimal_value (substring 0 (String.length m - f) m)
                   (substring (String.length m - f) f m) 0
     == inject_Z (digits_value m) / inject_Z (10 ^ Z.of_nat f).
Proof.
  intros A L. pose proof (substring_split m (String.length m - f) ltac:(lia)) as S.
  replace (String.length m - (String.length m - f))%nat with f in S by lia.
  pose proof (substring_length 0 (String.length m - f) m ltac:(lia)) as LD.
  pose proof (substring_length (String.length m - f) f m ltac:(lia)) as LF.
  rewrite <- S, all_digits_app in A. apply andb_true_iff in A as [AD AF].
  split; [exact AD|]. split; [intros E; rewrite E in LD; cbn in LD; lia|].
  split; [exact AF|]. rewrite decimal_value_fixed, S, LF. reflexivity.
Qed.

Lemma toFixed_value (f : nat) (x : Q) (t : string) :
  (1 <= f)%nat -> toFixed f x = Some t ->
  exists D F, all_digits D = true /\ D <> EmptyString /\ all_digits F = true
    /\ decimal_value D F 0
       == inject_Z (Qfloor (Qabs x * inject_Z (10 ^ Z.of_nat f) + (1 # 2)))
          / inject_Z (10 ^ Z.of_nat f)
    /\ t = ((if Qlt_le_dec x 0 then "-" else "") ++ D ++ String "." F)%string.
Proof.
  intros Hf. unfold toFixed. replace (f =? 0)%nat with false by (symmetry; apply Nat.eqb_neq; lia).
  assert (Hk : 0 <= inject_Z (10 ^ Z.of_nat f))
    by (change 0 with (inject_Z 0); rewrite <- Zle_Qle; apply Z.pow_nonneg; lia).
  destruct (Qlt_le_dec x 0) as [Hx|Hx];
    destruct (Qle_bool _ _); try discriminate; intros E; apply Some_inj in E; subst t;
    [ rewrite (Qfloor_comp (Qabs x * inject_Z (10 ^ Z.of_nat f) + (1 # 2))
                 (- x * inject_Z (10 ^ Z.of_nat f) + (1 # 2)))
      | rewrite (Qfloor_comp (Qabs x * inject_Z (10 ^ Z.of_nat f) + (1 # 2))
                 (x * inject_Z (10 ^ Z.of_nat f) + (1 # 2))) ];
    try (rewrite ?Qabs_neg, ?Qabs_pos by lra; reflexivity);
    match goal with |- context [Z_digits (Qfloor ?y)] =>
      destruct (Z_digits_spec (Qfloor y)) as (A & V & _);
        [apply Qfloor_half_nonneg, Qmult_le_0_compat; lra|] end;
    destruct (pad_int_digit_spec f _ A) as (Am & Vm & Lm);
    destruct (fixed_parts _ _ Am Lm) as (AD & ND & AF & VDF);
    (eexists _, _; split; [exact AD|split; [exact ND|split; [exact AF|split]]]);
    try reflexivity; now rewrite VDF, Vm, V.
Qed.

Lemma remove_first_percent_digits (d s : string) :
  all_digits d = true -> remove_first_percent (d ++ s) = (d ++ remove_first_percent s)%string.
Proof.
  induction d as [|c d IH]; intros A; [reflexivity|].
  cbn [all_digits] in A. apply andb_true_iff in A as [Hc A].
  cbn [append remove_first_percent].
  now rewrite eqb_digit_nondigit, IH by (exact Hc || exact A || reflexivity).
Qed.

(** What [toFixed(3)] prints has no ["%"], so [replace('%', '')] removes
    the one [formatPercentage] appends. *)
Lemma remove_first_percent_fixed (D F : string) :
  all_digits D = true -> all_digits F = true ->
  remove_first_percent ((D ++ String "." F) ++ "%") = (D ++ String "." F)%string.
Proof.
  intros AD AF. rewrite <- string_app_assoc, remove_first_percent_digits by exact AD.
  cbn [append remove_first_percent]. change ("." =? "%")%char with false. cbv iota.
  rewrite remove_first_percent_digits by exact AF.
  change (remove_first_percent "%") with EmptyString. now rewrite string_app_nil_r.
Qed.

(** What [toFixed] prints has no ["%"] at all: [replace('%', '')] leaves
    the rate field's text alone. *)
Lemma remove_first_percent_none (D F : string) :
  all_digits D = true -> all_digits F = true ->
  remove_first_percent (D ++ String "." F) = (D ++ String "." F)%string.
Proof.
  intros AD AF. rewrite remove_first_percent_digits by exact AD.
  cbn [remove_first_percent]. change ("." =? "%")%char with false. cbv iota.
  rewrite <- (string_app_nil_r F) at 1. rewrite remove_first_percent_digits by exact AF.
  change (remove_first_percent "") with EmptyString. now rewrite string_app_nil_r.
Qed.

(** [toFixed] prints every value below [10^21] in absolute value. *)
Lemma toFixed_defined (f : nat) (x : Q) :
  Qabs x < inject_Z (10 ^ 21) -> exists t, toFixed f x = Some t.
Proof.
  intros H. unfold toFixed. destruct (Qlt_le_dec x 0) as [Hx|Hx];
    [rewrite Qabs_neg in H by lra|rewrite Qabs_pos in H by lra];
    destruct (Qle_bool (inject_Z (10 ^ 21)) _) eqn:B;
    try (apply Qle_bool_iff in B; lra);
    destruct (f =? 0)%nat; eexists; reflexivity.
Qed.

(** A value with at most three decimals, [m / 1000], is printed by
    [toFixed(3)] and read back exactly by [parsePercentage]: the rate
    field holds any such rate, negative ones included. *)
Lemma parsePercentage_toFixed3_exact (m : Z) :
  (Z.abs m < 10 ^ 24)%Z ->
  exists t q, toFixed 3 (inject_Z m / 1000) = Some t /\ parsePercentage t = PFin q
    /\ q == inject_Z m / 1000.
Proof.
  intros Hm. set (x := inject_Z m / 1000).
  assert (Hx : x * 1000 == inject_Z m) by (unfold x; field).
  destruct (toFixed_defined 3 x) as (t & T).
  { unfold x. apply Qabs_Qlt_condition. rewrite Z.abs_lt in Hm.
    destruct Hm as [Hl Hu]. rewrite Zlt_Qlt in Hl, Hu.
    change (inject_Z (- 10 ^ 24)) with (-(inject_Z (10 ^ 24))) in Hl.
    change (inject_Z (10 ^ 24)) with (inject_Z (10 ^ 21) * 1000) in Hl, Hu.
    unfold Qdiv. change (/ 1000) with (1 # 1000). split; lra. }
  destruct (toFixed_value 3 x t ltac:(lia) T) as (D & F & AD & ND & AF & V & Et).
  change (inject_Z (10 ^ Z.of_nat 3)) with 1000 in V. rewrite Et in T.
  assert (Habs : Qabs x * 1000 == inject_Z (Z.abs m)).
  { destruct (Z.lt_ge_cases m 0) as [Hs|Hs];
      [rewrite Z.abs_neq, inject_Z_opp by lia|rewrite Z.abs_eq by lia];
      rewrite Zlt_Qlt in Hs || rewrite Zle_Qle in Hs; change (inject_Z 0) with 0 in Hs;
      [rewrite Qabs_neg by lra|rewrite Qabs_pos by lra]; lra. }
  assert (Hfl : inject_Z (Qfloor (Qabs x * 1000 + (1 # 2))) == Qabs x * 1000).
  { rewrite (Qfloor_unique _ (Z.abs m)); [symmetry; exact Habs|]. rewrite Habs. split; lra. }
  destruct (Qlt_le_dec x 0) as [Hn|Hn]; cbn [append] in T.
  - exists (String "-" (D ++ String "." F)).
    unfold parsePercentage. cbn [remove_first_percent]. change ("-" =? "%")%char with false.
    cbv iota. rewrite remove_first_percent_none, parseFloat_neg_fixed by assumption.
    destruct (js_or_zero_fin (- decimal_value D F 0)) as (q & Eq & Hq).
    exists q. split; [exact T|]. split; [exact Eq|].
    rewrite Hq, V, Hfl, Qabs_neg by lra. fold x. field.
  - exists (D ++ String "." F)%string.
    unfold parsePercentage. rewrite remove_first_percent_none, parseFloat_fixed by assumption.
    destruct (js_or_zero_fin (decimal_value D F 0)) as (q & Eq & Hq).
    exists q. split; [exact T|]. split; [exact Eq|].
    rewrite Hq, V, Hfl, Qabs_pos by lra. fold x. field.
Qed.

(** [formatCurrency] depends only on the value, not on its representation. *)
Lemma formatCurrency_Qeq (x y : Q) : x == y -> formatCurrency x = formatCurrency y.
Proof.
  intros E. unfold formatCurrency.
  rewrite (Qfloor_comp (Qabs x * 100 + (1 # 2)) (Qabs y * 100 + (1 # 2)))
    by (rewrite E; reflexivity).
  destruct (Qlt_le_dec x 0), (Qlt_le_dec y 0); try reflexivity; exfalso; lra.
Qed.

(** ** Properties of the formatters *)

(** [parseCurrency] never yields NaN, an infinity or a
    negative number: whatever the input, it returns a finite value [>= 0]
    (a minus sign is among the characters it drops). *)
Theorem parseCurrency_nonneg (s : string) :
  exists q, parseCurrency s = PFin q /\ 0 <= q.
Proof.
  unfold parseCurrency. apply js_or_zero_nonneg.
  destruct (keep_head s) as [E | (c & r & E & Hp & HI)]; rewrite E.
  - apply parse_unsigned_nonneg. reflexivity.
  - rewrite Hp. apply parse_unsigned_nonneg, prefix_Infinity, HI.
Qed.

(** The cents [formatCurrency] prints: [|x|] rounded to the cent, half up. *)
Lemma formatCurrency_nonneg (x : Q) :
  0 <= x ->
  formatCurrency x
  = ("$" ++ group3 (Z_digits (Qfloor (x * 100 + (1 # 2)) / 100)) ++ "."
     ++ pad2 (Z_digits (Qfloor (x * 100 + (1 # 2)) mod 100)))%string.
Proof.
  intros Hx. unfold formatCurrency. destruct (Qlt_le_dec x 0) as [H|_]; [lra|].
  rewrite (Qfloor_comp (Qabs x * 100 + (1 # 2)) (x * 100 + (1 # 2)))
    by (rewrite Qabs_pos by exact Hx; reflexivity).
  reflexivity.
Qed.

(** What [parseCurrency] reads from a formatted amount followed by more
    digits [P] (what the amount field holds after a keystroke at its end):
    the cents of [|x|] followed by the digits of [P]. *)
Lemma parseCurrency_formatCurrency_app (x : Q) (P : string) :
  all_digits P = true ->
  exists q, parseCurrency (formatCurrency x ++ P) = PFin q
    /\ q == inject_Z (Qfloor (Qabs x * 100 + (1 # 2)) * 10 ^ Z.of_nat (String.length P)
                      + digits_value P)
            / inject_Z (100 * 10 ^ Z.of_nat (String.length P)).
Proof.
  intros AP. pose proof (Qabs_nonneg x) as Ha.
  set (c := Qfloor (Qabs x * 100 + (1 # 2))).
  assert (Hc : (0 <= c)%Z) by (apply Qfloor_half_nonneg; lra).
  destruct (Z_digits_spec (c / 100)) as (AD & VD & ND); [apply Z.div_pos; lia|].
  destruct (pad2_cents (c mod 100)) as (AC & VC & LC); [apply Z.mod_pos_bound; lia|].
  unfold parseCurrency, formatCurrency. fold c.
  rewrite !keep_app, (keep_all_digits P AP).
  replace (keep_digits_and_dots (if Qlt_le_dec x 0 then "-" else ""))
    with EmptyString by (now destruct (Qlt_le_dec x 0)).
  rewrite keep_group3, keep_dot, (keep_all_digits (pad2 _)) by assumption.
  change (keep_digits_and_dots "$") with EmptyString. cbn [append].
  rewrite <- string_app_assoc. cbn [append].
  rewrite parseFloat_fixed by (rewrite ?all_digits_app, ?AC, ?AP; auto).
  destruct (js_or_zero_fin (decimal_value (Z_digits (c / 100)) (pad2 (Z_digits (c mod 100)) ++ P) 0))
    as (q & Eq & Hq).
  exists q. split; [exact Eq|].
  rewrite Hq, decimal_value_fixed, !digits_value_app, VD, VC, string_length_app, LC.
  replace (c / 100 * 10 ^ Z.of_nat (2 + String.length P) + (c mod 100 * 10 ^ Z.of_nat (String.length P)
           + digits_value P))%Z
    with (c * 10 ^ Z.of_nat (String.length P) + digits_value P)%Z.
  - now rewrite Nat2Z.inj_add, Z.pow_add_r by lia.
  - rewrite Nat2Z.inj_add, Z.pow_add_r by lia. change (10 ^ Z.of_nat 2)%Z with 100%Z.
    pose proof (Z.div_mod c 100). nia.
Qed.

(** C14 (roundtrip): parsing a formatted amount gives back the amount's
    absolute value rounded to the cent: [parseCurrency (formatCurrency x)]
    is [round(|x| * 100) / 100], within half a cent of [|x|]. *)
Theorem parseCurrency_formatCurrency (x : Q) :
  exists q, parseCurrency (formatCurrency x) = PFin q
    /\ q == inject_Z (Qfloor (Qabs x * 100 + (1 # 2))) / 100
    /\ Qabs (q - Qabs x) <= 1 # 200.
Proof.
  destruct (parseCurrency_formatCurrency_app x "" eq_refl) as (q & Eq & V).
  rewrite string_app_nil_r in Eq. exists q. split; [exact Eq|].
  change (digits_value "") with 0%Z in V. change (Z.of_nat (String.length "")) with 0%Z in V.
  rewrite Z.pow_0_r, Z.mul_1_r, Z.add_0_r, Z.mul_1_r in V.
  split; [exact V|].
  rewrite V. change (inject_Z (Qfloor (Qabs x * 100 + (1 # 2))) / inject_Z 100)
    with (inject_Z (Qfloor (Qabs x * 100 + (1 # 2))) * (1 # 100)).
  destruct (Qfloor_half_bounds (Qabs x * 100)).
  apply Qabs_Qle_condition. split; lra.
Qed.

(** C15 (roundtrip): a percentage formatted by [formatPercentage] parses
    back with [parsePercentage] to a finite value within [0.0005] of the
    original (three decimals, sign included). *)
Theorem parsePercentage_formatPercentage (x : Q) (s : string) :
  formatPercentage x = Some s ->
  exists q, parsePercentage s = PFin q /\ Qabs (q - x) <= 1 # 2000.
Proof.
  unfold formatPercentage. destruct (toFixed 3 x) as [t|] eqn:T; [|discriminate].
  intros E. apply Some_inj in E. subst s.
  destruct (toFixed_value 3 x t ltac:(lia) T) as (D & F & AD & ND & AF & V & ->).
  change (inject_Z (10 ^ Z.of_nat 3)) with 1000 in V.
  destruct (Qfloor_half_bounds (Qabs x * 1000)).
  unfold parsePercentage. destruct (Qlt_le_dec x 0) as [Hx|Hx]; cbn [append].
  - cbn [remove_first_percent]. change ("-" =? "%")%char with false. cbv iota.
    rewrite remove_first_percent_fixed, parseFloat_neg_fixed by assumption.
    destruct (js_or_zero_fin (- decimal_value D F 0)) as (q & Eq & Hq).
    exists q. split; [exact Eq|]. rewrite Hq, V. unfold Qdiv; change (/ 1000) with (1 # 1000).
    assert (Qabs x == - x) by (apply Qabs_neg; lra). apply Qabs_Qle_condition. split; lra.
  - rewrite remove_first_percent_fixed, parseFloat_fixed by assumption.
    destruct (js_or_zero_fin (decimal_value D F 0)) as (q & Eq & Hq).
    exists q. split; [exact Eq|]. rewrite Hq, V. unfold Qdiv; change (/ 1000) with (1 # 1000).
    assert (Qabs x == x) by (apply Qabs_pos; lra). apply Qabs_Qle_condition. split; lra.
Qed.

(** A negative rate, [-7.25], prints as ["-7.250%"] and reads back within
    the bound. *)
Lemma parsePercentage_formatPercentage_witness :
  formatPercentage (-725 # 100) = Some "-7.250%"%string
  /\ exists q, parsePercentage "-7.250%" = PFin q /\ Qabs (q - (-725 # 100)) <= 1 # 2000.
Proof.
  split; [vm_compute; reflexivity|].
  apply (parsePercentage_formatPercentage (-725 # 100)). vm_compute. reflexivity.
Defined.

End Formatters.
