(* ===== verification/Results.v ===== *)
(** The results panel: [LoanResults] of [src/src/components/LoanResults.tsx]
    (React Native) and [LoanBreakdownView] of
    [src/LoanCalculator/Views/LoanBreakdownView.swift] (SwiftUI).

    Both derive the same values from a [LoanResult]: the interest share
    [totalInterest / totalPaid] (0 when nothing is paid), the first three
    rows of the schedule and its last row.  The React component keeps two
    booleans that open and close the two disclosure sections; the SwiftUI
    view draws a progress bar of [min(totalInterest, max(totalPaid, 1))]
    out of [max(totalPaid, 1)].  What is shown is modelled as data: the
    rows the open sections display, and the progress values.  The SwiftUI
    breakdown's "Principal" is the raw [loanAmount] ([totalPrincipal]),
    while the engine repays [max(loanAmount, 0)]: its three figures add up
    exactly when the amount is not negative. *)

From Stdlib Require Import QArith Qminmax Lqa Lia String List ZArith.
From S2P Require Import Prelude Number ExactNumber LoanParameters LoanCalculator AmortizationSpec Platforms Formatters.
Import ListNotations LoanParameters LoanCalculator AmortizationSpec Platforms Formatters.

Module Results.

(** JavaScript's [a[i]] on an array: [undefined] outside [0 .. length-1]. *)
Definition js_index {T : Type} (l : list T) (i : Z) : option T :=
  if (i <? 0)%Z then None else nth_error l (Z.to_nat i).

Section View.
Context {A : Type} `{Number A}.
Local Open Scope num_scope.

(** The component state: [useState(false)] twice (LoanResults.tsx 18-19). *)
Record ResultsState : Type := {
  showFirstPayments : bool;
  showFinalPayment : bool
}.

Definition initial_results_state : ResultsState :=
  {| showFirstPayments := false; showFinalPayment := false |}.

(** The two [onPress] handlers of the section headers. *)
Inductive ResultsEvent : Type :=
| ToggleFirstPayments
| ToggleFinalPayment.

Definition results_step (st : ResultsState) (ev : ResultsEvent) : ResultsState :=
  match ev with
  | ToggleFirstPayments =>
      {| showFirstPayments := negb (showFirstPayments st);
         showFinalPayment := showFinalPayment st |}
  | ToggleFinalPayment =>
      {| showFirstPayments := showFirstPayments st;
         showFinalPayment := negb (showFinalPayment st) |}
  end.

(** [result.totalPaid > 0 ? result.totalInterest / result.totalPaid : 0];
    the SwiftUI [interestShare] has the same guard. *)
Definition interestShare (r : LoanResult A) : A :=
  if num_ltb (num_of_Z 0) (totalPaid r) then totalInterest r /! totalPaid r
  else num_of_Z 0.

(** [result.schedule.slice(0, 3)] / [Array(result.schedule.prefix(3))] *)
Definition firstPayments (r : LoanResult A) : list (AmortizationPayment A) :=
  firstn 3 (schedule r).

(** [result.schedule[result.schedule.length - 1]] *)
Definition finalPayment (r : LoanResult A) : option (AmortizationPayment A) :=
  js_index (schedule r) (Z.of_nat (length (schedule r)) - 1).

(** Swift's [result.schedule.last] *)
Definition swift_finalPayment (r : LoanResult A) : option (AmortizationPayment A) :=
  last (map Some (schedule r)) None.

(** The rows rendered by the two sections (lines 64-105): the first
    payments when there are some and the section is open, then the final
    payment when there is one and its section is open. *)
Definition displayed_rows (st : ResultsState) (r : LoanResult A)
    : list (AmortizationPayment A) :=
  (if (0 <? length (firstPayments r))%nat && showFirstPayments st
   then firstPayments r else [])
  ++ match finalPayment r with
     | Some p => if showFinalPayment st then [p] else []
     | None => []
     end.

(** [private var totalPrincipal: Double { parameters.loanAmount }]
    (LoanBreakdownView.swift 7), shown as "Principal" beside "Interest"
    and "Total paid" (lines 40-42). *)
Definition totalPrincipal (p : LoanParameters A) : A := loanAmount p.

(** [totalPaidForProgress] and [interestProgress] (LoanBreakdownView.swift
    21-27). *)
Definition totalPaidForProgress (r : LoanResult A) : A :=
  swift_max (totalPaid r) (num_of_Z 1).

Definition interestProgress (r : LoanResult A) : A :=
  swift_min (totalInterest r) (totalPaidForProgress r).

End View.

Arguments ResultsState : clear implicits.

(** [PaymentRow] (lines 114-135): the payment number of its title and the
    three amounts it prints, each through [formatCurrency]. *)
Record PaymentRowView : Type := {
  title_number : nat;
  principal_text : string;
  interest_text : string;
  balance_text : string
}.

Definition PaymentRow (payment : AmortizationPayment Q) : PaymentRowView :=
  {| title_number := paymentNumber payment;
     principal_text := formatCurrency (principalPaid payment);
     interest_text := formatCurrency (interestPaid payment);
     balance_text := formatCurrency (remainingBalance payment) |}.

(** The three key metrics (lines 30-45). *)
Definition metric_texts (r : LoanResult Q) : list string :=
  [formatCurrency (periodicPayment r); formatCurrency (totalInterest r);
   formatCurrency (totalPaid r)].

(** ** Indexing the last row *)

Lemma js_index_last {T : Type} (l : list T) :
  js_index l (Z.of_nat (length l) - 1) = last (map Some l) None.
Proof.
  induction l as [|x l _] using rev_ind; [reflexivity|].
  rewrite length_app, map_snoc, last_snoc. unfold js_index. cbn [length].
  replace (Z.of_nat (length l + 1) - 1)%Z with (Z.of_nat (length l)) by lia.
  rewrite (proj2 (Z.ltb_ge _ 0)) by lia. rewrite Nat2Z.id, nth_error_app2 by lia.
  now rewrite Nat.sub_diag.
Qed.

(** ** Rows numbered [1 .. n] *)

Section Numbered.
Context {T : Type} (num : T -> nat) (rows : list T) (n : nat).
Hypothesis Hnum : map num rows = seq 1 n.

Lemma first3_numbers : map num (firstn 3 rows) = seq 1 (Nat.min 3 n).
Proof. now rewrite <- firstn_map, Hnum, firstn_seq. Qed.

Lemma last_numbered :
  match last (map Some rows) None with
  | Some row => num row = n /\ (0 < n)%nat
  | None => n = 0%nat
  end.
Proof.
  destruct rows as [|r rs] using rev_ind.
  - cbn in Hnum. now destruct n.
  - clear IHrs. rewrite map_snoc, last_snoc. rewrite map_app in Hnum.
    destruct n as [|m]; [now destruct rs|].
    rewrite seq_snoc in Hnum. apply app_inj_tail in Hnum as [_ Hr]. split; [exact Hr|lia].
Qed.
End Numbered.

(** ** What the panel shows of a computed schedule *)

Section Shown.
Context {A : Type} `{Number A}.

Lemma schedule_numbers (p : LoanParameters A) :
  map paymentNumber (schedule (calculate p)) = seq 1 (Z.to_nat (payment_count p)).
Proof.
  unfold_calculate p.
  - unfold payment_count. now replace (Z.to_nat _) with 0%nat by lia.
  - edestruct payment_steps_shape as (rows & Hs & Hn & _). cbn [schedule]. now rewrite Hs.
Qed.

(** C16 (functional): with both sections open, the React panel shows
    payments [#1 .. #min(3, n)] and then payment [#n]: the first three
    rows and the last one, which is absent (with its section) when the
    schedule is empty.  For [n <= 3] the last row is shown twice. *)
Theorem displayed_rows_open (p : LoanParameters A) :
  map paymentNumber
    (displayed_rows {| showFirstPayments := true; showFinalPayment := true |} (calculate p))
  = seq 1 (Nat.min 3 (Z.to_nat (payment_count p)))
    ++ (if (0 <? payment_count p)%Z then [Z.to_nat (payment_count p)] else []).
Proof.
  pose proof (schedule_numbers p) as Hs.
  pose proof (first3_numbers _ _ _ Hs) as H3. pose proof (last_numbered _ _ _ Hs) as HL.
  unfold displayed_rows, finalPayment, firstPayments. rewrite js_index_last, map_app.
  rewrite <- (length_map paymentNumber (firstn 3 _)), H3, length_seq.
  destruct (last (map Some (schedule (calculate p))) None) as [row|].
  - destruct HL as [Hr Hn].
    rewrite (proj2 (Nat.ltb_lt 0 _)), (proj2 (Z.ltb_lt 0 _)) by lia.
    cbn [andb map app showFirstPayments showFinalPayment]. now rewrite H3, Hr.
  - rewrite HL, (proj2 (Z.ltb_ge 0 _)) by lia. reflexivity.
Qed.

End Shown.

(** ** The interest share, over exact arithmetic *)

Local Open Scope Q_scope.

Lemma calculate_totals_ordered (p : LoanParameters Q) :
  0 <= totalInterest (calculate p) <= totalPaid (calculate p).
Proof.
  destruct (Z.lt_ge_cases 0 (payment_count p)) as [Hn|Hn].
  - destruct (calculate_run p Hn) as (Ha & Hi & Hp).
    rewrite Hi, Hp, (amortizes_payment_sum _ _ _ _ Ha), (amortizes_principal_sum _ _ _ _ Ha).
    pose proof (amortizes_interest_nonneg _ _ _ _ Ha).
    pose proof (Q.le_max_r (loanAmount p) 0).
    unfold principal_of; cbn [num_max num_of_Z Q_Number]. change (inject_Z 0) with 0. lra.
  - empty_run Hn.
    split; apply Qle_refl.
Qed.

Lemma interestShare_pos (r : LoanResult Q) :
  0 < totalPaid r -> interestShare r == totalInterest r / totalPaid r.
Proof.
  intros Ht. unfold interestShare. cbn [num_ltb num_div num_of_Z Q_Number].
  change (inject_Z 0) with 0. destruct (Qle_bool (totalPaid r) 0) eqn:E.
  - apply Qle_bool_iff in E. lra.
  - apply Qdiv'_correct.
Qed.

(** The share is a fraction: what the progress bar and its label rely on. *)
Lemma interestShare_unit (p : LoanParameters Q) :
  0 <= interestShare (calculate p) <= 1.
Proof.
  destruct (calculate_totals_ordered p) as [HI HT].
  destruct (Qlt_le_dec 0 (totalPaid (calculate p))) as [Ht|Ht].
  - rewrite interestShare_pos by exact Ht.
    split; [apply Qle_shift_div_l | apply Qle_shift_div_r]; lra.
  - unfold interestShare. cbn [num_ltb num_of_Z Q_Number]. change (inject_Z 0) with 0.
    replace (Qle_bool (totalPaid (calculate p)) 0) with true
      by (symmetry; now apply Qle_bool_iff).
    cbn. split; discriminate.
Qed.

(** C17 (bounds): the interest share of every computed result lies in
    [0, 1]: the React progress bar is never wider than 100% and the
    number its label formats, [interestShare * 100], is between 0 and 100
    (LoanResults.tsx 21, 54, 59). *)
Theorem interestShare_bounds (p : LoanParameters Q) :
  0 <= interestShare (calculate p) <= 1.
Proof. exact (interestShare_unit p). Qed.

(** C31 (functional): the SwiftUI breakdown lists "Principal"
    ([totalPrincipal], the raw [loanAmount]), "Interest" and "Total paid",
    the last two from the Swift engine ([calculate(for:)]); whenever there
    are payments, the first two add up to the third exactly
    when the amount is at least 0: the engine repays [max(loanAmount, 0)],
    so for a negative amount the view shows a principal that was never
    repaid and three figures that do not add up. *)
Theorem swift_breakdown_adds_up (p : LoanParameters Q) :
  (0 < payment_count p)%Z ->
  (totalPrincipal p + totalInterest (calculate_swift p) == totalPaid (calculate_swift p)
   <-> 0 <= loanAmount p).
Proof.
  intros Hn. destruct (engines_agree p) as (_ & Hi & Hp & _).
  rewrite <- Hi, <- Hp, (total_paid_split p Hn). unfold totalPrincipal, principal_of.
  cbn [num_max num_of_Z Q_Number]. change (inject_Z 0) with 0.
  destruct (Q.max_spec (loanAmount p) 0) as [[Hlt E]|[Hle E]]; rewrite E; split; intros; lra.
Qed.

(** C18 (equivalence): once at least 1 is paid in total, the SwiftUI
    progress bar ([interestProgress] out of [totalPaidForProgress]) shows
    the same fraction as the React bar's [interestShare]. *)
Theorem swift_progress_agrees (p : LoanParameters Q) :
  1 <= totalPaid (calculate p) ->
  interestProgress (calculate p) / totalPaidForProgress (calculate p)
  == interestShare (calculate p).
Proof.
  intros Ht. destruct (calculate_totals_ordered p) as [HI HT].
  unfold interestProgress, totalPaidForProgress.
  rewrite interestShare_pos by lra. rewrite swift_min_Q, !swift_max_Q.
  cbn [num_of_Z Q_Number]. change (inject_Z 1) with 1.
  rewrite Q.max_l, Q.min_l by (rewrite ?Q.max_l; lra). reflexivity.
Qed.


(** C24 (functional): whenever the schedule is not empty, the React
    panel's final payment is payment [#n] and its balance prints as
    ["$0.00"]. *)
Theorem final_row_prints_zero (p : LoanParameters Q) :
  (0 < payment_count p)%Z ->
  exists row, finalPayment (calculate p) = Some row
    /\ title_number (PaymentRow row) = Z.to_nat (payment_count p)
    /\ balance_text (PaymentRow row) = "$0.00"%string.
Proof.
  intros Hn. destruct (calculate_run p Hn) as (Hrun & _).
  destruct (amortizes_final_row _ _ _ _ Hrun) as (row & Hf & Hb).
  pose proof (last_numbered _ _ _ (schedule_numbers p)) as HL.
  unfold final_row in Hf. rewrite Hf in HL. destruct HL as [Hr _].
  exists row. unfold finalPayment. rewrite js_index_last.
  split; [exact Hf|]. split; [exact Hr|].
  cbn [PaymentRow balance_text]. rewrite (formatCurrency_Qeq _ 0 Hb). reflexivity.
Qed.

End Results.

(** The quarter-year loan of [AmortizationSpec] pays more than 1 in total. *)
Lemma swift_progress_agrees_witness :
  1 <= totalPaid (LoanCalculator.calculate quarter_loan)
  /\ Results.interestProgress (LoanCalculator.calculate quarter_loan)
     / Results.totalPaidForProgress (LoanCalculator.calculate quarter_loan)
     == Results.interestShare (LoanCalculator.calculate quarter_loan).
Proof.
  assert (H1 : 1 <= totalPaid (LoanCalculator.calculate quarter_loan))
    by (vm_compute; discriminate).
  split; [exact H1|]. exact (Results.swift_progress_agrees quarter_loan H1).
Defined.

(** The quarter-year loan has three payments; the last prints a zero balance. *)
Lemma final_row_prints_zero_witness :
  (0 < payment_count quarter_loan)%Z
  /\ exists row, Results.finalPayment (LoanCalculator.calculate quarter_loan) = Some row
    /\ Results.title_number (Results.PaymentRow row) = Z.to_nat (payment_count quarter_loan)
    /\ Results.balance_text (Results.PaymentRow row) = "$0.00"%string.
Proof.
  assert (Hn : (0 < payment_count quarter_loan)%Z) by (vm_compute; reflexivity).
  split; [exact Hn|]. exact (Results.final_row_prints_zero quarter_loan Hn).
Defined.

(** A quarter-year loan typed with an amount of -1000 in the SwiftUI
    field: the breakdown's figures do not add up. *)
Definition quarter_loan_negative_amount : LoanParameters Q :=
  {| loanAmount := -1000; interestRate := 12; termYears := 1 # 4;
     paymentsPerYear := MONTHLY |}.

Lemma swift_breakdown_adds_up_witness :
  (0 < payment_count quarter_loan_negative_amount)%Z
  /\ ~ (Results.totalPrincipal quarter_loan_negative_amount
        + totalInterest (LoanCalculator.calculate_swift quarter_loan_negative_amount)
        == totalPaid (LoanCalculator.calculate_swift quarter_loan_negative_amount))%Q.
Proof.
  assert (Hn : (0 < payment_count quarter_loan_negative_amount)%Z) by (vm_compute; reflexivity).
  split; [exact Hn|]. intros E.
  apply (Results.swift_breakdown_adds_up quarter_loan_negative_amount Hn) in E.
  exact (E eq_refl).
Defined.
