(* ===== verification/InputForm.v ===== *)
(** The loan input form and the screen that owns its state.

    [LoanInputForm] ([src/mobile/src/components/LoanInputForm.tsx]) turns
    each user action into a new [LoanParameters] through
    [updateParameter]: the amount text goes through [parseCurrency], the
    rate text through [parsePercentage], the term buttons add [-1] or [+1]
    clamped to [1 .. 40], the picker stores one of the three frequencies.
    [LoanCalculatorScreen] ([src/src/components/LoanCalculatorScreen.tsx])
    keeps the parameters in [useState(initialParameters)], hands
    [setParameters] to the form as [onParametersChange] and recomputes
    [LoanCalculator.calculate(parameters)] on every render.

    The form is a step function [form_step] on the screen state, the
    screen's states are those [reachable] from its initial parameters, and
    the invariant [form_ok] (amount at least 0, term in [1, 40]) holds in
    all of them when it holds initially.  Every amount text is accepted
    and stored as a finite amount of at least 0; the rate field accepts
    any decimal, negative or above 100 %, from every reachable state.  A
    parsed value that is not a
    finite number (the text ["Infinity"] in the rate field) would be stored
    as [Infinity] by the source; the exact model cannot hold it, and
    [form_step] returns [None] there. *)

From Stdlib Require Import QArith Qminmax Qreduction Lqa Lia List ZArith String.
From S2P Require Import Prelude Number ExactNumber LoanParameters LoanCalculator AmortizationSpec App Formatters.
Import ListNotations LoanParameters LoanCalculator AmortizationSpec App Formatters.

Module InputForm.

Local Open Scope Q_scope.

Abbreviation Params := (LoanParameters Q).

(** [updateParameter(key, value)]: [{ ...parameters, [key]: value }]
    (lines 27-32), one constructor per key of [LoanParameters]. *)
Inductive Update : Type :=
| set_loanAmount (v : Q)
| set_interestRate (v : Q)
| set_termYears (v : Q)
| set_paymentsPerYear (f : PaymentFrequency).

Definition updateParameter (parameters : Params) (u : Update) : Params :=
  match u with
  | set_loanAmount v =>
      {| loanAmount := v; interestRate := interestRate parameters;
         termYears := termYears parameters; paymentsPerYear := paymentsPerYear parameters |}
  | set_interestRate v =>
      {| loanAmount := loanAmount parameters; interestRate := v;
         termYears := termYears parameters; paymentsPerYear := paymentsPerYear parameters |}
  | set_termYears v =>
      {| loanAmount := loanAmount parameters; interestRate := interestRate parameters;
         termYears := v; paymentsPerYear := paymentsPerYear parameters |}
  | set_paymentsPerYear f =>
      {| loanAmount := loanAmount parameters; interestRate := interestRate parameters;
         termYears := termYears parameters; paymentsPerYear := f |}
  end.

(** The finite values of a parse; see the file header for the others. *)
Definition finite (v : JsParsed) : option Q :=
  match v with
  | PFin q => Some q
  | _ => None
  end.

(** [handleLoanAmountChange] (lines 34-37). *)
Definition handleLoanAmountChange (text : string) (parameters : Params) : option Params :=
  option_map (fun value => updateParameter parameters (set_loanAmount value))
    (finite (parseCurrency text)).

(** [handleInterestRateChange] (lines 39-42). *)
Definition handleInterestRateChange (text : string) (parameters : Params) : option Params :=
  option_map (fun value => updateParameter parameters (set_interestRate value))
    (finite (parsePercentage text)).

(** [adjustTermYears] (lines 44-47):
    [Math.max(1, Math.min(40, parameters.termYears + increment))]. *)
Definition adjustTermYears (increment : Z) (parameters : Params) : Params :=
  let newValue := num_max (num_of_Z 1)
                    (num_min (num_of_Z 40) (num_add (termYears parameters) (num_of_Z increment))) in
  updateParameter parameters (set_termYears newValue).

(** The user's actions on the form: typing in the two text inputs, the
    [-] and [+] buttons of the term stepper (lines 81-93), and the picker
    (lines 99-111), whose items are [getAllPaymentFrequencies()]. *)
Inductive FormEvent : Type :=
| AmountText (text : string)
| RateText (text : string)
| TermMinus
| TermPlus
| FrequencyPicked (f : PaymentFrequency).

(** One action, followed by [onParametersChange] = [setParameters]. *)
Definition form_step (ev : FormEvent) (parameters : Params) : option Params :=
  match ev with
  | AmountText text => handleLoanAmountChange text parameters
  | RateText text => handleInterestRateChange text parameters
  | TermMinus => Some (adjustTermYears (-1) parameters)
  | TermPlus => Some (adjustTermYears 1 parameters)
  | FrequencyPicked f => Some (updateParameter parameters (set_paymentsPerYear f))
  end.

(** A sequence of actions, in order. *)
Fixpoint run_form (evs : list FormEvent) (parameters : Params) : option Params :=
  match evs with
  | [] => Some parameters
  | ev :: evs' =>
      match form_step ev parameters with
      | Some parameters' => run_form evs' parameters'
      | None => None
      end
  end.

(** [LoanCalculatorScreen]: its state starts at [initialParameters]
    (line 25) and the result it renders is [calculate parameters]
    (line 27). *)
Definition screen_result (parameters : Params) : LoanResult Q := calculate parameters.

Inductive reachable (initialParameters : Params) : Params -> Prop :=
| reach_init : reachable initialParameters initialParameters
| reach_step p ev p' :
    reachable initialParameters p -> form_step ev p = Some p' ->
    reachable initialParameters p'.

(** The invariant: what the spec says the presentation layer guarantees
    of the amount and the term. *)
Definition form_ok (p : Params) : Prop :=
  0 <= loanAmount p /\ 1 <= termYears p <= 40.

(** ** Runs and reachability *)

Lemma run_form_reachable (init : Params) (evs : list FormEvent) (p p' : Params) :
  reachable init p -> run_form evs p = Some p' -> reachable init p'.
Proof.
  revert p; induction evs as [|ev evs IH]; intros p Hr E; cbn [run_form] in E.
  - now injection E as <-.
  - destruct (form_step ev p) as [q|] eqn:S; [|discriminate].
    exact (IH q (reach_step init p ev q Hr S) E).
Qed.

(** ** The invariant *)

Lemma adjustTermYears_range (inc : Z) (p : Params) :
  1 <= termYears (adjustTermYears inc p) <= 40.
Proof.
  cbn [adjustTermYears updateParameter termYears num_max num_min num_of_Z Q_Number].
  change (inject_Z 1) with 1. change (inject_Z 40) with 40. split.
  - apply Q.le_max_l.
  - apply Q.max_lub; [discriminate|apply Q.le_min_l].
Qed.

Lemma form_step_ok (ev : FormEvent) (p p' : Params) :
  form_ok p -> form_step ev p = Some p' -> form_ok p'.
Proof.
  intros [Ha Ht] E. destruct ev as [text|text| | |f]; cbn [form_step] in E.
  - unfold handleLoanAmountChange in E.
    destruct (parseCurrency_nonneg text) as (q & Eq & Hq). rewrite Eq in E.
    injection E as <-. split; [exact Hq|exact Ht].
  - unfold handleInterestRateChange in E.
    destruct (finite (parsePercentage text)); [|discriminate].
    injection E as <-. split; [exact Ha|exact Ht].
  - injection E as <-. split; [exact Ha|apply adjustTermYears_range].
  - injection E as <-. split; [exact Ha|apply adjustTermYears_range].
  - injection E as <-. split; [exact Ha|exact Ht].
Qed.

Lemma reachable_ok (init p : Params) : form_ok init -> reachable init p -> form_ok p.
Proof.
  intros H0. induction 1 as [|p ev p' _ IH E]; [exact H0|].
  exact (form_step_ok ev p p' IH E).
Qed.

(** A term in [1, 40] years gives between 12 and 2080 payments. *)
Lemma payment_count_range (p : Params) :
  1 <= termYears p <= 40 -> (12 <= payment_count p <= 2080)%Z.
Proof.
  intros Ht. unfold payment_count. cbn [num_round num_mul num_of_Z Q_Number].
  apply js_round_between. rewrite Qmult'_correct.
  destruct (paymentsPerYear p); cbn [rawValue]; unfold inject_Z; lra.
Qed.

(** What the engine does with parameters that satisfy [form_ok]. *)
Lemma ok_schedule (p : Params) :
  form_ok p ->
  (12 <= payment_count p <= 2080)%Z
  /\ (exists row, final_row (schedule (screen_result p)) = Some row
                  /\ remainingBalance row == 0)
  /\ fold_left Qplus (map principalPaid (schedule (screen_result p))) 0 == loanAmount p.
Proof.
  intros [Ha Ht]. pose proof (payment_count_range p Ht) as Hn.
  destruct (calculate_run p ltac:(lia)) as (Hrun & _).
  split; [exact Hn|]. unfold screen_result.
  split; [exact (amortizes_final_row _ _ _ _ Hrun)|].
  rewrite (amortizes_principal_sum _ _ _ _ Hrun). unfold principal_of.
  cbn [num_max num_of_Z Q_Number]. now apply Q.max_l.
Qed.

(** ** The term stepper *)

Lemma run_form_app (evs1 evs2 : list FormEvent) (p : Params) :
  run_form (evs1 ++ evs2) p
  = match run_form evs1 p with Some q => run_form evs2 q | None => None end.
Proof.
  revert p; induction evs1 as [|ev evs1 IH]; intros p; [reflexivity|].
  cbn [app run_form]. destruct (form_step ev p); [apply IH|reflexivity].
Qed.

Lemma run_form_repeat (ev : FormEvent) (g : Params -> Params) :
  (forall p, form_step ev p = Some (g p)) ->
  forall k p, run_form (repeat ev k) p = Some (Nat.iter k g p).
Proof.
  intros Hg k; induction k as [|k IH]; intros p; [reflexivity|].
  cbn [repeat run_form]. rewrite Hg, IH. now rewrite <- Nat.iter_succ_r.
Qed.

Lemma adjust_term (inc : Z) (p : Params) :
  termYears (adjustTermYears inc p) == Qmax 1 (Qmin 40 (termYears p + inject_Z inc)).
Proof.
  cbn [adjustTermYears updateParameter termYears num_max num_min num_add num_of_Z Q_Number].
  now rewrite Qplus'_correct.
Qed.

(** The stepper leaves the other fields alone, however often it is pressed. *)
Lemma iter_adjust_fields (k : nat) (inc : Z) (p : Params) :
  let p' := Nat.iter k (adjustTermYears inc) p in
  loanAmount p' = loanAmount p /\ interestRate p' = interestRate p
  /\ paymentsPerYear p' = paymentsPerYear p.
Proof. induction k as [|k IH]; [auto|]. rewrite Nat.iter_succ. exact IH. Qed.

(** [-] pressed [k + 1] times leaves a term of at most [40 - k] (and at
    least 1), whatever the term was. *)
(** Closes [a <= b] between integer literals and [inject_Z] terms. *)
Local Ltac as_inject_Z t :=
  match t with inject_Z _ => idtac | _ => change t with (inject_Z (Qnum t)) end.
Local Ltac zq_le :=
  match goal with |- ?a <= ?b => as_inject_Z a; as_inject_Z b end;
  rewrite <- Zle_Qle; cbn [Qnum]; lia.

Lemma iter_minus_le (k : nat) (p : Params) :
  (k <= 39)%nat ->
  termYears (Nat.iter (S k) (adjustTermYears (-1)) p) <= inject_Z (40 - Z.of_nat k).
Proof.
  induction k as [|k IH]; intros Hk.
  - apply adjustTermYears_range.
  - rewrite Nat.iter_succ, adjust_term. apply Q.max_lub.
    + zq_le.
    + eapply Qle_trans; [apply Q.le_min_r|].
      replace (40 - Z.of_nat (S k))%Z with (40 - Z.of_nat k + -1)%Z by lia.
      rewrite inject_Z_plus. apply Qplus_le_compat; [exact (IH ltac:(lia))|apply Qle_refl].
Qed.

(** [+] pressed [k] times from a term of 1 gives [1 + k], up to 40. *)
Lemma iter_plus_from_one (k : nat) (p : Params) :
  termYears p == 1 -> (k <= 39)%nat ->
  termYears (Nat.iter k (adjustTermYears 1) p) == inject_Z (1 + Z.of_nat k).
Proof.
  intros H1; induction k as [|k IH]; intros Hk; [exact H1|].
  rewrite Nat.iter_succ, adjust_term, (IH ltac:(lia)), <- inject_Z_plus.
  rewrite Q.min_r by zq_le. rewrite Q.max_r by zq_le.
  now replace (1 + Z.of_nat (S k))%Z with (1 + Z.of_nat k + 1)%Z by lia.
Qed.

(** Forty presses of [-] and then [n - 1] presses of [+] set the term to
    [n], from any state, and change nothing else. *)
Lemma stepper_run (p : Params) (n : Z) :
  (1 <= n <= 40)%Z ->
  exists p', run_form (repeat TermMinus 40 ++ repeat TermPlus (Z.to_nat (n - 1))) p = Some p'
    /\ termYears p' == inject_Z n
    /\ loanAmount p' = loanAmount p /\ interestRate p' = interestRate p
    /\ paymentsPerYear p' = paymentsPerYear p.
Proof.
  intros Hn. set (q := Nat.iter 40 (adjustTermYears (-1)) p).
  exists (Nat.iter (Z.to_nat (n - 1)) (adjustTermYears 1) q).
  rewrite run_form_app, (run_form_repeat TermMinus _ (fun _ => eq_refl)),
    (run_form_repeat TermPlus _ (fun _ => eq_refl)).
  assert (Hq : termYears q == 1).
  { apply Qle_antisym; [exact (iter_minus_le 39 p ltac:(lia))|apply adjustTermYears_range]. }
  destruct (iter_adjust_fields (Z.to_nat (n - 1)) 1 q) as (Ha & Hr & Hf).
  destruct (iter_adjust_fields 40 (-1) p) as (Ha' & Hr' & Hf'); fold q in Ha', Hr', Hf'.
  split; [reflexivity|]. split; [|split; [|split]]; try congruence.
  rewrite (iter_plus_from_one (Z.to_nat (n - 1)) q Hq ltac:(lia)).
  now replace (1 + Z.of_nat (Z.to_nat (n - 1)))%Z with n by lia.
Qed.

(** ** Properties of the screen *)

(** C19 (safety): starting from parameters the spec's presentation layer
    would accept (amount at least 0, term in [1, 40]), every state the
    screen can reach through the form still has them; its payment count
    is between 12 and 2080, and the schedule it renders ends at a balance
    of exactly 0 after repaying exactly the loan amount. *)
Theorem reachable_schedule_safe (init p : Params) :
  form_ok init -> reachable init p ->
  form_ok p /\ (12 <= payment_count p <= 2080)%Z
  /\ (exists row, final_row (schedule (screen_result p)) = Some row
                  /\ remainingBalance row == 0)
  /\ fold_left Qplus (map principalPaid (schedule (screen_result p))) 0 == loanAmount p.
Proof.
  intros H0 Hr. pose proof (reachable_ok init p H0 Hr) as Hok.
  split; [exact Hok|]. exact (ok_schedule p Hok).
Qed.

(** C13 (safety, negative): the rate field validates nothing: from every
    state of the screen, typing the text [toFixed(3)] prints for any rate
    with at most three decimals, [m / 1000] (negative, zero or above 100%
    alike), stores exactly that rate and leaves the rest of the
    parameters alone; the spec's presentation layer is to supply rates of
    at least 0. *)
Theorem any_decimal_rate_reachable (init p : Params) (m : Z) :
  reachable init p -> (Z.abs m < 10 ^ 24)%Z ->
  exists t p', toFixed 3 (inject_Z m / 1000) = Some t
    /\ form_step (RateText t) p = Some p' /\ reachable init p'
    /\ interestRate p' == inject_Z m / 1000
    /\ loanAmount p' = loanAmount p /\ termYears p' = termYears p
    /\ paymentsPerYear p' = paymentsPerYear p.
Proof.
  intros Hr Hm. destruct (parsePercentage_toFixed3_exact m Hm) as (t & q & T & E & Hq).
  assert (S : form_step (RateText t) p = Some (updateParameter p (set_interestRate q)))
    by (cbn [form_step]; unfold handleInterestRateChange; rewrite E; reflexivity).
  exists t, (updateParameter p (set_interestRate q)).
  split; [exact T|]. split; [exact S|]. split; [exact (reach_step _ _ _ _ Hr S)|].
  split; [exact Hq|]. repeat split.
Qed.


(** The rate field accepts a negative rate: the
    text ["-5"] takes the residential screen to a state with interest
    rate [-5], which the spec says the presentation layer excludes. *)
Theorem negative_rate_reachable :
  exists p, reachable (config_parameters residential) p /\ interestRate p < 0
            /\ run_form [RateText "-5"] (config_parameters residential) = Some p.
Proof.
  exists (updateParameter (config_parameters residential) (set_interestRate (-5))).
  assert (E : run_form [RateText "-5"] (config_parameters residential)
              = Some (updateParameter (config_parameters residential) (set_interestRate (-5))))
    by (vm_compute; reflexivity).
  split; [exact (run_form_reachable _ _ _ _ (reach_init _) E)|].
  split; [reflexivity|exact E].
Qed.

(** C33 (liveness): the term stepper can always reach every term the
    form allows: from any state of the screen and for any [n] in [1, 40],
    at most 79 presses of the [-] and [+] buttons lead to a state whose
    term is [n], with the amount, the rate and the frequency unchanged. *)
Theorem term_reachable_from_any (p : Params) (n : Z) :
  (1 <= n <= 40)%Z ->
  exists evs p', run_form evs p = Some p' /\ (List.length evs <= 79)%nat
    /\ Forall (fun ev => ev = TermMinus \/ ev = TermPlus) evs
    /\ termYears p' == inject_Z n
    /\ loanAmount p' = loanAmount p /\ interestRate p' = interestRate p
    /\ paymentsPerYear p' = paymentsPerYear p.
Proof.
  intros Hn. destruct (stepper_run p n Hn) as (p' & E & Ht & Hrest).
  exists (repeat TermMinus 40 ++ repeat TermPlus (Z.to_nat (n - 1))), p'.
  split; [exact E|]. split; [rewrite length_app, !repeat_length; lia|].
  split; [|exact (conj Ht Hrest)].
  apply Forall_app; split; apply Forall_forall; intros ev Hin;
    apply repeat_spec in Hin; auto.
Qed.

(** The residential screen's term set to 7 years. *)
Lemma term_reachable_from_any_witness :
  (1 <= 7 <= 40)%Z /\
  exists evs p', run_form evs (config_parameters residential) = Some p'
    /\ (List.length evs <= 79)%nat /\ Forall (fun ev => ev = TermMinus \/ ev = TermPlus) evs
    /\ termYears p' == inject_Z 7
    /\ loanAmount p' = loanAmount (config_parameters residential)
    /\ interestRate p' = interestRate (config_parameters residential)
    /\ paymentsPerYear p' = paymentsPerYear (config_parameters residential).
Proof. split; [lia|]. apply term_reachable_from_any; lia. Defined.

(** A rate of -5.000% typed on the residential screen. *)
Lemma any_decimal_rate_reachable_witness :
  reachable (config_parameters residential) (config_parameters residential)
  /\ (Z.abs (-5000) < 10 ^ 24)%Z
  /\ exists t p', toFixed 3 (inject_Z (-5000) / 1000) = Some t
       /\ form_step (RateText t) (config_parameters residential) = Some p'
       /\ interestRate p' == inject_Z (-5000) / 1000.
Proof.
  assert (Hr : reachable (config_parameters residential) (config_parameters residential))
    by apply reach_init.
  assert (Hm : (Z.abs (-5000) < 10 ^ 24)%Z) by (vm_compute; reflexivity).
  split; [exact Hr|]. split; [exact Hm|].
  destruct (any_decimal_rate_reachable _ _ (-5000) Hr Hm) as (t & p' & T & S & _ & Hq & _).
  exists t, p'. split; [exact T|]. split; [exact S|exact Hq].
Defined.

(** The residential screen after one press of [+] (31 years). *)
Lemma reachable_schedule_safe_witness :
  form_ok (config_parameters residential)
  /\ reachable (config_parameters residential) (adjustTermYears 1 (config_parameters residential))
  /\ (12 <= payment_count (adjustTermYears 1 (config_parameters residential)) <= 2080)%Z.
Proof.
  assert (H0 : form_ok (config_parameters residential))
    by (unfold form_ok; vm_compute; split; [discriminate|split; discriminate]).
  assert (Hr : reachable (config_parameters residential)
                 (adjustTermYears 1 (config_parameters residential)))
    by (apply (reach_step _ _ TermPlus _ (reach_init _)); reflexivity).
  split; [exact H0|]. split; [exact Hr|].
  exact (proj1 (proj2 (reachable_schedule_safe _ _ H0 Hr))).
Defined.

End InputForm.
