(* ===== verification/Navigation.v ===== *)
(** Navigation between the three loan types, on both platforms.

    React Native ([src/App.tsx]): [App] keeps [selectedLoanType] in
    [useState('residential')]; the three tab buttons call
    [setSelectedLoanType]; the screen is rendered as
    [<LoanCalculatorScreen key={selectedLoanType} .../>], so selecting
    another tab mounts a fresh screen (and a fresh results panel) whose
    state starts again at that tab's configuration.  Selecting the tab
    already selected sets the same state and changes nothing.

    SwiftUI ([src/LoanCalculator/ContentView.swift]): [ContentView] owns
    three [@State] parameter values, one per tab, and passes each tab's
    [LoanCalculatorView] a binding to its own.  Switching tabs changes only
    the selection; what was entered on a tab is still there when the user
    comes back.  The controls of [LoanCalculatorView] write through the
    binding; the values Foundation's [NumberFormatter] and SwiftUI's
    [Stepper] produce are not modelled, so a Swift edit carries the value
    it writes.

    [AppState]/[app_step] and [SwiftAppState]/[swift_step] are the two
    state machines; [app_reachable] is the React one's reachable set. *)

From Stdlib Require Import QArith Qminmax Lqa Lia List ZArith String EquivDec.
From S2P Require Import Prelude Number ExactNumber LoanParameters LoanCalculator AmortizationSpec App Results InputForm.
Import ListNotations LoanParameters LoanCalculator AmortizationSpec App Results InputForm.

Module Navigation.

Local Open Scope Q_scope.

(** ** React Native *)

(** The state of [App] and of the screen mounted under it. *)
Record AppState : Type := {
  selectedLoanType : LoanType;
  screenParameters : Params;
  resultsState : ResultsState
}.

(** Mounting [LoanCalculatorScreen] for the tab [t]:
    [useState(initialParameters)] with [currentConfig.parameters], and the
    results panel's two [useState(false)]. *)
Definition mount (t : LoanType) : AppState :=
  {| selectedLoanType := t; screenParameters := config_parameters t;
     resultsState := initial_results_state |}.

(** [useState<LoanType>('residential')] (App.tsx line 10). *)
Definition app_init : AppState := mount residential.

(** [const currentConfig = loanConfigs[selectedLoanType]] (line 30). *)
Definition currentConfig (st : AppState) : LoanConfig Q := loanConfigs (selectedLoanType st).

(** [selectedLoanType === t && styles.activeTab] (lines 39-60). *)
Definition tab_active (st : AppState) (t : LoanType) : bool :=
  if equiv_dec (selectedLoanType st) t then true else false.

(** The result the mounted screen renders. *)
Definition app_result (st : AppState) : LoanResult Q := screen_result (screenParameters st).

Inductive AppEvent : Type :=
| SelectTab (t : LoanType)
| FormEv (ev : FormEvent)
| ResultsEv (ev : ResultsEvent).

(** [onPress={() => setSelectedLoanType(t)}]: a new key remounts the
    screen; the same key keeps it.  The form and the results panel update
    the mounted screen's state. *)
Definition app_step (ev : AppEvent) (st : AppState) : option AppState :=
  match ev with
  | SelectTab t => Some (if equiv_dec t (selectedLoanType st) then st else mount t)
  | FormEv e =>
      option_map (fun p => {| selectedLoanType := selectedLoanType st;
                              screenParameters := p;
                              resultsState := resultsState st |})
        (form_step e (screenParameters st))
  | ResultsEv e =>
      Some {| selectedLoanType := selectedLoanType st;
              screenParameters := screenParameters st;
              resultsState := results_step (resultsState st) e |}
  end.

Fixpoint run_app (evs : list AppEvent) (st : AppState) : option AppState :=
  match evs with
  | [] => Some st
  | ev :: evs' =>
      match app_step ev st with
      | Some st' => run_app evs' st'
      | None => None
      end
  end.

Inductive app_reachable : AppState -> Prop :=
| ar_init : app_reachable app_init
| ar_step st ev st' : app_reachable st -> app_step ev st = Some st' -> app_reachable st'.

(** ** SwiftUI *)

(** The [@State] values of [ContentView] (lines 4-21) and the selected tab
    of its [TabView]. *)
Record SwiftAppState : Type := {
  selectedTab : LoanType;
  residentialParameters : Params;
  commercialParameters : Params;
  vehicleParameters : Params
}.

(** The initial values written in ContentView.swift. *)
Definition contentView_parameters (t : LoanType) : Params :=
  match t with
  | residential =>
      {| loanAmount := 450000; interestRate := num_lit 575 2; termYears := 30;
         paymentsPerYear := MONTHLY |}
  | commercial =>
      {| loanAmount := 750000; interestRate := num_lit 65 1; termYears := 20;
         paymentsPerYear := MONTHLY |}
  | vehicle =>
      {| loanAmount := 45000; interestRate := num_lit 725 2; termYears := 6;
         paymentsPerYear := MONTHLY |}
  end.

(** The first tab of the [TabView] is shown first. *)
Definition swift_init : SwiftAppState :=
  {| selectedTab := residential;
     residentialParameters := contentView_parameters residential;
     commercialParameters := contentView_parameters commercial;
     vehicleParameters := contentView_parameters vehicle |}.

(** The binding [$residentialParameters] etc. that the tab's view gets. *)
Definition swift_params (st : SwiftAppState) (t : LoanType) : Params :=
  match t with
  | residential => residentialParameters st
  | commercial => commercialParameters st
  | vehicle => vehicleParameters st
  end.

Definition swift_set (st : SwiftAppState) (t : LoanType) (p : Params) : SwiftAppState :=
  match t with
  | residential =>
      {| selectedTab := selectedTab st; residentialParameters := p;
         commercialParameters := commercialParameters st; vehicleParameters := vehicleParameters st |}
  | commercial =>
      {| selectedTab := selectedTab st; residentialParameters := residentialParameters st;
         commercialParameters := p; vehicleParameters := vehicleParameters st |}
  | vehicle =>
      {| selectedTab := selectedTab st; residentialParameters := residentialParameters st;
         commercialParameters := commercialParameters st; vehicleParameters := p |}
  end.

Inductive SwiftEvent : Type :=
| SwiftSelectTab (t : LoanType)
| SwiftEdit (u : Update).

(** Selecting a tab; a control of the selected [LoanCalculatorView]
    writing one field through its binding. *)
Definition swift_step (ev : SwiftEvent) (st : SwiftAppState) : SwiftAppState :=
  match ev with
  | SwiftSelectTab t =>
      {| selectedTab := t; residentialParameters := residentialParameters st;
         commercialParameters := commercialParameters st; vehicleParameters := vehicleParameters st |}
  | SwiftEdit u =>
      swift_set st (selectedTab st) (updateParameter (swift_params st (selectedTab st)) u)
  end.

Definition run_swift (evs : list SwiftEvent) (st : SwiftAppState) : SwiftAppState :=
  fold_left (fun st ev => swift_step ev st) evs st.

(** [LoanCalculatorView.result]: [LoanCalculator.calculate(for: parameters)]. *)
Definition swift_result (st : SwiftAppState) : LoanResult Q :=
  calculate_swift (swift_params st (selectedTab st)).

(** The updates made while tab [t] is selected, in order, when the run
    [evs] starts with [sel] selected: what the SwiftUI tab [t] is
    expected to accumulate. *)
Fixpoint edits_on (t : LoanType) (evs : list SwiftEvent) (sel : LoanType) : list Update :=
  match evs with
  | [] => []
  | SwiftSelectTab u :: evs' => edits_on t evs' u
  | SwiftEdit u :: evs' =>
      (if equiv_dec sel t then [u] else []) ++ edits_on t evs' sel
  end.

(** ** The React state machine *)

Lemma app_reachable_form (st : AppState) :
  app_reachable st ->
  reachable (config_parameters (selectedLoanType st)) (screenParameters st).
Proof.
  induction 1 as [|st ev st' _ IH E]; [apply reach_init|].
  destruct ev as [t|e|e]; cbn [app_step] in E.
  - injection E as <-. destruct (equiv_dec t (selectedLoanType st)); [exact IH|].
    apply reach_init.
  - destruct (form_step e (screenParameters st)) as [p|] eqn:S; [|discriminate].
    injection E as <-. exact (reach_step _ _ e p IH S).
  - injection E as <-. exact IH.
Qed.

Lemma run_app_reachable (evs : list AppEvent) (st st' : AppState) :
  app_reachable st -> run_app evs st = Some st' -> app_reachable st'.
Proof.
  revert st; induction evs as [|ev evs IH]; intros st Hr E; cbn [run_app] in E.
  - now injection E as <-.
  - destruct (app_step ev st) as [st1|] eqn:S; [|discriminate].
    exact (IH st1 (ar_step st ev st1 Hr S) E).
Qed.

Lemma config_ok (t : LoanType) : form_ok (config_parameters t).
Proof. unfold form_ok; destruct t; vm_compute; repeat split; discriminate. Qed.

(** C21 (safety): in every state the React app can reach, through any
    interleaving of tab switches, form input and section toggles, the
    mounted screen's parameters have an amount of at least 0 and a term
    in [1, 40]; its schedule has 12 to 2080 rows, ends at a balance of
    exactly 0 and repays exactly the amount. *)
Theorem app_reachable_safe (st : AppState) :
  app_reachable st ->
  form_ok (screenParameters st) /\ (12 <= payment_count (screenParameters st) <= 2080)%Z
  /\ (exists row, final_row (schedule (app_result st)) = Some row /\ remainingBalance row == 0)
  /\ fold_left Qplus (map principalPaid (schedule (app_result st))) 0
     == loanAmount (screenParameters st).
Proof.
  intros H. pose proof (reachable_ok _ _ (config_ok _) (app_reachable_form st H)) as Hok.
  split; [exact Hok|]. exact (ok_schedule _ Hok).
Qed.

(** ** Switching away and back *)

(** C22 (functional): leaving a tab and coming back discards what was
    entered on the React side (the screen is mounted again with the tab's
    configuration and both result sections closed) and keeps everything
    on the SwiftUI side. *)
Theorem tab_switch_roundtrip (st : AppState) (sw : SwiftAppState) (u : LoanType) :
  u <> selectedLoanType st ->
  run_app [SelectTab u; SelectTab (selectedLoanType st)] st = Some (mount (selectedLoanType st))
  /\ run_swift [SwiftSelectTab u; SwiftSelectTab (selectedTab sw)] sw = sw.
Proof.
  intros Hu. split.
  - cbn [run_app app_step]. destruct (equiv_dec u (selectedLoanType st)) as [E|_];
      [contradiction|].
    cbn [mount selectedLoanType]. destruct (equiv_dec (selectedLoanType st) u) as [E|_];
      [symmetry in E; contradiction|reflexivity].
  - now destruct sw.
Qed.

Lemma swift_params_set (st : SwiftAppState) (t t' : LoanType) (p : Params) :
  swift_params (swift_set st t p) t' = if equiv_dec t t' then p else swift_params st t'.
Proof.
  destruct t, t'; cbn [swift_set swift_params residentialParameters
    commercialParameters vehicleParameters]; destruct (equiv_dec _ _); congruence.
Qed.

Lemma selectedTab_set (st : SwiftAppState) (t : LoanType) (p : Params) :
  selectedTab (swift_set st t p) = selectedTab st.
Proof. now destruct t. Qed.

(** C23 (functional): each SwiftUI tab keeps its own parameters: after
    any run of tab switches and edits, a tab's parameters are its initial
    ones with exactly the edits made while it was selected applied, in
    order; edits on other tabs and switching leave it alone. *)
Theorem swift_tab_isolation (evs : list SwiftEvent) (sw : SwiftAppState) (t : LoanType) :
  swift_params (run_swift evs sw) t
  = fold_left updateParameter (edits_on t evs (selectedTab sw)) (swift_params sw t).
Proof.
  unfold run_swift. revert sw; induction evs as [|[u|u] evs IH]; intros sw; [reflexivity| |].
  - cbn [fold_left edits_on]. rewrite IH. now destruct sw, t.
  - cbn [fold_left edits_on]. rewrite IH. unfold swift_step.
    rewrite selectedTab_set, swift_params_set, fold_left_app.
    destruct (equiv_dec (selectedTab sw) t) as [E|E]; [|reflexivity].
    rewrite <- E. reflexivity.
Qed.

(** ** Reaching any tab and any term *)

Lemma run_app_app (evs1 evs2 : list AppEvent) (st : AppState) :
  run_app (evs1 ++ evs2) st
  = match run_app evs1 st with Some st1 => run_app evs2 st1 | None => None end.
Proof.
  revert st; induction evs1 as [|ev evs1 IH]; intros st; [reflexivity|].
  cbn [app run_app]. destruct (app_step ev st); [apply IH|reflexivity].
Qed.

(** Form actions act on the mounted screen's parameters only. *)
Lemma run_app_form (evs : list FormEvent) (st : AppState) :
  run_app (map FormEv evs) st
  = option_map (fun p => {| selectedLoanType := selectedLoanType st; screenParameters := p;
                            resultsState := resultsState st |})
      (run_form evs (screenParameters st)).
Proof.
  revert st; induction evs as [|e evs IH]; intros st; [now destruct st|].
  cbn [map run_app run_form app_step].
  destruct (form_step e (screenParameters st)) as [p|]; [|reflexivity].
  cbn [option_map]. now rewrite IH.
Qed.

(** A fresh screen for any tab is at most two presses away: the tab
    itself, or another tab and then it when it is already selected. *)
Lemma select_mount (st : AppState) (t : LoanType) :
  exists evs, run_app evs st = Some (mount t).
Proof.
  destruct (equiv_dec t (selectedLoanType st)) as [E|N].
  - set (u := match t with residential => vehicle | _ => residential end).
    assert (Hu : u <> t) by (destruct t; discriminate).
    exists [SelectTab u; SelectTab t]. cbn [run_app app_step].
    destruct (equiv_dec u (selectedLoanType st)) as [E'|_];
      [exfalso; apply Hu; unfold equiv in *; congruence|].
    cbn [mount selectedLoanType]. destruct (equiv_dec t u) as [E''|_];
      [exfalso; apply Hu; unfold equiv in *; congruence|reflexivity].
  - exists [SelectTab t]. cbn [run_app app_step].
    destruct (equiv_dec t (selectedLoanType st)); [contradiction|reflexivity].
Qed.

(** C34 (liveness): nothing the user does on the React side shuts them
    out of any configuration the form allows: from every reachable state,
    for every loan type [t] and every term [n] in [1, 40], some run of tab
    presses and stepper presses reaches a reachable state showing tab [t]
    with [t]'s configured amount, rate and frequency and a term of [n]. *)
Theorem every_tab_and_term_reachable (st : AppState) (t : LoanType) (n : Z) :
  app_reachable st -> (1 <= n <= 40)%Z ->
  exists evs st', run_app evs st = Some st' /\ app_reachable st'
    /\ selectedLoanType st' = t /\ termYears (screenParameters st') == inject_Z n
    /\ loanAmount (screenParameters st') = loanAmount (config_parameters t)
    /\ interestRate (screenParameters st') = interestRate (config_parameters t)
    /\ paymentsPerYear (screenParameters st') = paymentsPerYear (config_parameters t).
Proof.
  intros Hr Hn. destruct (select_mount st t) as (evs1 & E1).
  destruct (stepper_run (config_parameters t) n Hn) as (p' & E2 & Hrest).
  exists (evs1 ++ map FormEv (repeat TermMinus 40 ++ repeat TermPlus (Z.to_nat (n - 1)))),
    {| selectedLoanType := t; screenParameters := p'; resultsState := initial_results_state |}.
  assert (E : run_app (evs1 ++ map FormEv (repeat TermMinus 40 ++ repeat TermPlus (Z.to_nat (n - 1)))) st
              = Some {| selectedLoanType := t; screenParameters := p';
                        resultsState := initial_results_state |})
    by (rewrite run_app_app, E1, run_app_form; cbn [mount screenParameters]; now rewrite E2).
  split; [exact E|]. split; [exact (run_app_reachable _ _ _ Hr E)|].
  split; [reflexivity|exact Hrest].
Qed.

End Navigation.

(** Typing an amount of 1000 on the residential tab, then visiting the
    vehicle tab and coming back. *)
Lemma tab_switch_roundtrip_witness :
  exists st, Navigation.run_app [Navigation.FormEv (AmountText "$1,000.00")] Navigation.app_init
             = Some st
  /\ (loanAmount (Navigation.screenParameters st) == 1000)%Q
  /\ Navigation.run_app [Navigation.SelectTab vehicle;
                         Navigation.SelectTab (Navigation.selectedLoanType st)] st
     = Some (Navigation.mount (Navigation.selectedLoanType st))
  /\ Navigation.run_swift [Navigation.SwiftSelectTab vehicle;
                           Navigation.SwiftSelectTab (Navigation.selectedTab Navigation.swift_init)]
       Navigation.swift_init = Navigation.swift_init.
Proof.
  eexists. split; [vm_compute; reflexivity|]. split; [vm_compute; reflexivity|].
  apply Navigation.tab_switch_roundtrip. discriminate.
Defined.

(** The commercial screen after the term was raised on the residential
    screen and the commercial tab was selected. *)
Lemma app_reachable_safe_witness :
  exists st, Navigation.run_app [Navigation.FormEv TermPlus; Navigation.SelectTab commercial]
               Navigation.app_init = Some st
  /\ Navigation.app_reachable st
  /\ (12 <= payment_count (Navigation.screenParameters st) <= 2080)%Z.
Proof.
  eexists. assert (E : Navigation.run_app [Navigation.FormEv TermPlus; Navigation.SelectTab commercial]
                         Navigation.app_init = Some (Navigation.mount commercial))
    by (vm_compute; reflexivity).
  split; [exact E|].
  pose proof (Navigation.run_app_reachable _ _ _ Navigation.ar_init E) as Hr.
  split; [exact Hr|]. exact (proj1 (proj2 (Navigation.app_reachable_safe _ Hr))).
Defined.

(** From the initial state, the vehicle tab with a 10-year term. *)
Lemma every_tab_and_term_reachable_witness :
  Navigation.app_reachable Navigation.app_init /\ (1 <= 10 <= 40)%Z /\
  exists evs st', Navigation.run_app evs Navigation.app_init = Some st'
    /\ Navigation.app_reachable st' /\ Navigation.selectedLoanType st' = vehicle
    /\ (termYears (Navigation.screenParameters st') == inject_Z 10)%Q
    /\ loanAmount (Navigation.screenParameters st') = loanAmount (config_parameters vehicle)
    /\ interestRate (Navigation.screenParameters st') = interestRate (config_parameters vehicle)
    /\ paymentsPerYear (Navigation.screenParameters st') = paymentsPerYear (config_parameters vehicle).
Proof.
  split; [exact Navigation.ar_init|]. split; [lia|].
  apply Navigation.every_tab_and_term_reachable; [exact Navigation.ar_init|lia].
Defined.
