(* ===== verification/Render.v ===== *)
(** What the React Native screens render: the JSX of [LoanInputForm.tsx],
    [LoanResults.tsx], [LoanCalculatorScreen.tsx] and [App.tsx] as a view
    tree.

    A [Node] is one React Native element: [View]/[ScrollView], [Text] with
    its string, [TextInput] with the [value] it shows and its
    [onChangeText], [TouchableOpacity] with its [onPress] (and whether the
    [activeTab] style applies), the [Picker] with its items, and the width
    of the progress fill.  The handlers carry the event they dispatch
    (Elm-style): the form's are [InputForm.FormEvent]s, whose meaning is
    [form_step]; the results panel's are [Results.ResultsEvent]s; the
    screen lifts both into [Navigation.AppEvent]s, whose meaning is
    [app_step].  A text the model cannot produce (a number printed by
    JavaScript's [ToString] outside the integers, [toFixed] at [10^21] or
    more) is [None].  Strings are UTF-8 byte strings; styles are not
    modelled.

    The theorems connect what is drawn with the state: a digit typed at
    the end of the amount field changes the amount but not the screen; the
    term label always prints a whole number of years; typing back the
    displayed amount rounds it to the cent without changing the screen;
    the progress label
    reads between 0.0 and 100.0; pressing a tab highlights exactly that
    tab and shows its configuration. *)

From Stdlib Require Import QArith Qround Qabs Qminmax Lqa Lia List ZArith String Ascii EquivDec.
From S2P Require Import Prelude Number ExactNumber LoanParameters LoanCalculator AmortizationSpec App Formatters Results InputForm Navigation.
Import ListNotations LoanParameters LoanCalculator AmortizationSpec App Formatters Results InputForm Navigation.

Module Render.

Local Open Scope string_scope.
Local Open Scope Q_scope.
Local Set Warnings "-register-all".

Section Tree.
Variable M : Type.

Inductive Node : Type :=
| View (children : list Node)
| Text (text : option string)
| TextInput (value : option string) (onChangeText : string -> M)
| Touchable (active : bool) (onPress : M) (children : list Node)
| Picker (selectedValue : PaymentFrequency) (items : list (string * PaymentFrequency))
    (onValueChange : PaymentFrequency -> M)
| Fill (widthPercent : Q).

End Tree.

Arguments View {M} children.
Arguments Text {M} text.
Arguments TextInput {M} value onChangeText.
Arguments Touchable {M} active onPress children.
Arguments Picker {M} selectedValue items onValueChange.
Arguments Fill {M} widthPercent.

(** A parent component passing its own handler to a child. *)
Fixpoint map_node {M M' : Type} (f : M -> M') (n : Node M) : Node M' :=
  match n with
  | View cs => View (map (map_node f) cs)
  | Text t => Text t
  | TextInput v h => TextInput v (fun s => f (h s))
  | Touchable a m cs => Touchable a (f m) (map (map_node f) cs)
  | Picker s items h => Picker s items (fun x => f (h x))
  | Fill w => Fill w
  end.

(** The [Text] strings, in document order. *)
Fixpoint texts {M : Type} (n : Node M) : list (option string) :=
  match n with
  | View cs | Touchable _ _ cs => flat_map texts cs
  | Text t => [t]
  | _ => []
  end.

(** The values shown by the [TextInput]s, in document order. *)
Fixpoint input_values {M : Type} (n : Node M) : list (option string) :=
  match n with
  | View cs | Touchable _ _ cs => flat_map input_values cs
  | TextInput v _ => [v]
  | _ => []
  end.

(** The texts of the touchables drawn with the [activeTab] style. *)
Fixpoint active_texts {M : Type} (n : Node M) : list (option string) :=
  match n with
  | View cs => flat_map active_texts cs
  | Touchable a _ cs => ((if a then flat_map texts cs else []) ++ flat_map active_texts cs)%list
  | _ => []
  end.

(** The handler of the first touchable showing [label]: what a tap on it
    dispatches. *)
Fixpoint find_press {M : Type} (label : string) (n : Node M) : option M :=
  let fix first (cs : list (Node M)) : option M :=
    match cs with
    | [] => None
    | c :: cs' => match find_press label c with Some m => Some m | None => first cs' end
    end in
  match n with
  | View cs => first cs
  | Touchable _ m cs =>
      if existsb (fun t => match t with Some s => String.eqb s label | None => false end)
           (flat_map texts cs)
      then Some m else first cs
  | _ => None
  end.

(** [String(x)] for a number, on the integers below [10^21], where
    ECMAScript's [Number::toString] prints the decimal digits. *)
Definition js_number_toString (q : Q) : option string :=
  let n := Qfloor q in
  if Qeq_bool (inject_Z n) q && (Z.abs n <? 10 ^ 21)%Z
  then Some ((if (n <? 0)%Z then "-" else "") ++ Z_digits (Z.abs n))%string
  else None.

(** ** [LoanInputForm] (lines 49-114) *)

(** [Term: {parameters.termYears} years] (line 79). *)
Definition term_label (p : Params) : option string :=
  option_map (fun s => ("Term: " ++ s ++ " years")%string) (js_number_toString (termYears p)).

Definition render_form (p : Params) : Node FormEvent :=
  View
    [ Text (Some "Loan Details");
      View [ Text (Some "Loan Amount");
             TextInput (Some (formatCurrency (loanAmount p))) AmountText ];
      View [ Text (Some "Interest Rate");
             View [ TextInput (toFixed 3 (interestRate p)) RateText; Text (Some "%") ] ];
      View [ Text (term_label p);
             View [ Touchable false TermMinus [Text (Some "-")];
                    Text (js_number_toString (termYears p));
                    Touchable false TermPlus [Text (Some "+")] ] ];
      View [ Text (Some "Payment Frequency");
             Picker (paymentsPerYear p)
               (map (fun f => (getPaymentFrequencyLabel (rawValue f), f)) getAllPaymentFrequencies)
               FrequencyPicked ] ].

(** ** [LoanResults] (lines 17-135) *)

(** [PaymentRow] (lines 114-135). *)
Definition render_payment_row {M : Type} (payment : AmortizationPayment Q) : Node M :=
  View
    [ Text (Some ("Payment #" ++ Z_digits (Z.of_nat (paymentNumber payment)))%string);
      View [ Text (Some "💰 Principal"); Text (Some (formatCurrency (principalPaid payment))) ];
      View [ Text (Some "% Interest"); Text (Some (formatCurrency (interestPaid payment))) ];
      View [ Text (Some "📉 Balance"); Text (Some (formatCurrency (remainingBalance payment))) ] ].

(** [{(interestShare * 100).toFixed(1)}% Interest] (lines 58-60). *)
Definition progress_label (r : LoanResult Q) : option string :=
  option_map (fun s => (s ++ "% Interest")%string) (toFixed 1 (interestShare r * 100)).

(** A disclosure header (lines 66-74 and 89-97). *)
Definition section_header (title : string) (open : bool) (ev : ResultsEvent)
    : Node ResultsEvent :=
  Touchable false ev [Text (Some title); Text (Some (if open then "▼" else "▶"))].

Definition render_results (st : ResultsState) (r : LoanResult Q) : Node ResultsEvent :=
  View
    ([ Text (Some "Loan Summary");
       View [ View [ Text (Some "💳 Payment"); Text (Some (formatCurrency (periodicPayment r))) ];
              View [ Text (Some "📈 Total Interest");
                     Text (Some (formatCurrency (totalInterest r))) ];
              View [ Text (Some "💰 Total Paid"); Text (Some (formatCurrency (totalPaid r))) ] ];
       View [ Text (Some "Interest vs Principal");
              View [ Fill (interestShare r * 100) ];
              Text (progress_label r) ] ]
     ++ (if (0 <? List.length (firstPayments r))%nat
         then [ View (section_header "First Payments" (showFirstPayments st) ToggleFirstPayments
                      :: (if showFirstPayments st
                          then [View (map render_payment_row (firstPayments r))] else [])) ]
         else [])%list
     ++ match finalPayment r with
        | Some payment =>
            [ View (section_header "Final Payment" (showFinalPayment st) ToggleFinalPayment
                    :: (if showFinalPayment st then [View [render_payment_row payment]] else [])) ]
        | None => []
        end)%list.

(** ** [LoanCalculatorScreen] (lines 29-43) *)

Definition render_screen (title description : string) (p : Params) (st : ResultsState)
    : Node AppEvent :=
  View
    [ View [ Text (Some title); Text (Some description) ];
      map_node FormEv (render_form p);
      map_node ResultsEv (render_results st (screen_result p)) ].

(** ** [App] (lines 32-75) *)

Definition tab_label (t : LoanType) : string :=
  match t with
  | residential => "🏠 Residential"
  | commercial => "🏢 Commercial"
  | vehicle => "🚗 Vehicle"
  end.

Definition render_tab (st : AppState) (t : LoanType) : Node AppEvent :=
  Touchable (tab_active st t) (SelectTab t) [Text (Some (tab_label t))].

Definition render_app (st : AppState) : Node AppEvent :=
  View
    [ View [ render_tab st residential; render_tab st commercial; render_tab st vehicle ];
      render_screen (title (currentConfig st)) (description (currentConfig st))
        (screenParameters st) (resultsState st) ].

(** ** The view tree *)

(** Induction on a tree nested in lists, with [Forall] on the children. *)
Section NodeInd.
Context {M : Type} (P : Node M -> Prop).
Hypotheses
  (HView : forall cs, Forall P cs -> P (View cs))
  (HText : forall t, P (Text t))
  (HInput : forall v h, P (TextInput v h))
  (HTouch : forall a m cs, Forall P cs -> P (Touchable a m cs))
  (HPicker : forall s items h, P (Picker s items h))
  (HFill : forall w, P (Fill w)).

Fixpoint Node_ind' (n : Node M) : P n :=
  let fix children (cs : list (Node M)) : Forall P cs :=
    match cs with
    | [] => Forall_nil P
    | c :: cs' => Forall_cons c (Node_ind' c) (children cs')
    end in
  match n with
  | View cs => HView cs (children cs)
  | Text t => HText t
  | TextInput v h => HInput v h
  | Touchable a m cs => HTouch a m cs (children cs)
  | Picker s items h => HPicker s items h
  | Fill w => HFill w
  end.
End NodeInd.

Lemma flat_map_map_eq {X Y Z : Type} (f : Y -> list Z) (g : X -> Y) (h : X -> list Z)
    (l : list X) :
  Forall (fun x => f (g x) = h x) l -> flat_map f (map g l) = flat_map h l.
Proof. induction 1 as [|x l Hx _ IH]; cbn; [reflexivity|now rewrite Hx, IH]. Qed.

(** A parent passing its handlers to a child changes neither what is
    written nor what is highlighted. *)
Lemma texts_map_node {M M' : Type} (f : M -> M') (n : Node M) :
  texts (map_node f n) = texts n /\ active_texts (map_node f n) = active_texts n.
Proof.
  induction n as [cs IH|t|v h|a m cs IH|sv items h|w] using Node_ind'; try (split; reflexivity);
    cbn [map_node texts active_texts];
    (split; [|try destruct a]; rewrite ?(flat_map_map_eq texts _ texts),
      ?(flat_map_map_eq active_texts _ active_texts); try reflexivity;
     eapply Forall_impl; try eassumption; intros c [H1 H2]; assumption).
Qed.

(** No element of the form or of the results panel has the [activeTab]
    style. *)
Lemma render_form_active (p : Params) : active_texts (render_form p) = [].
Proof. reflexivity. Qed.

Lemma payment_rows_active {M : Type} (l : list (AmortizationPayment Q)) :
  flat_map active_texts (map (@render_payment_row M) l) = [].
Proof. induction l as [|x l IH]; [reflexivity|exact IH]. Qed.

Lemma render_results_active (st : ResultsState) (r : LoanResult Q) :
  active_texts (render_results st r) = [].
Proof.
  unfold render_results.
  destruct (0 <? List.length (firstPayments r))%nat, (showFirstPayments st),
    (finalPayment r), (showFinalPayment st);
    cbn [app active_texts flat_map section_header];
    rewrite ?payment_rows_active; reflexivity.
Qed.

Lemma render_app_active (st : AppState) :
  active_texts (render_app st) = [Some (tab_label (selectedLoanType st))].
Proof.
  unfold render_app, render_screen. cbn [active_texts flat_map app].
  rewrite (proj2 (texts_map_node _ _)), (proj2 (texts_map_node _ _)),
    render_form_active, render_results_active.
  unfold render_tab, tab_active. destruct (selectedLoanType st); reflexivity.
Qed.

Lemma render_app_header (st : AppState) :
  exists rest, texts (render_app st)
    = Some (tab_label residential) :: Some (tab_label commercial) :: Some (tab_label vehicle)
      :: Some (title (currentConfig st)) :: Some (description (currentConfig st)) :: rest.
Proof. eexists. reflexivity. Qed.

Lemma find_press_tab (st : AppState) (t : LoanType) :
  find_press (tab_label t) (render_app st) = Some (SelectTab t).
Proof. destruct t; reflexivity. Qed.

(** ** Numbers as the screens print them *)

Lemma js_number_toString_Qeq (x y : Q) :
  x == y -> js_number_toString x = js_number_toString y.
Proof.
  intros H. unfold js_number_toString. rewrite (Qfloor_comp x y H).
  replace (Qeq_bool (inject_Z (Qfloor y)) x) with (Qeq_bool (inject_Z (Qfloor y)) y);
    [reflexivity|].
  destruct (Qeq_bool (inject_Z (Qfloor y)) x) eqn:E1.
  - apply Qeq_bool_iff in E1. apply Qeq_bool_iff. exact (Qeq_trans _ _ _ E1 H).
  - apply not_true_iff_false. intros E2. apply Qeq_bool_iff in E2.
    pose proof (Qeq_trans _ _ _ E2 (Qeq_sym _ _ H)) as E3.
    apply Qeq_bool_iff in E3. congruence.
Qed.

Lemma js_number_toString_Z (n : Z) :
  (0 <= n < 10 ^ 21)%Z -> js_number_toString (inject_Z n) = Some (Z_digits n).
Proof.
  intros Hn. unfold js_number_toString. rewrite Qfloor_Z, Qeq_bool_refl, Z.abs_eq by lia.
  rewrite (proj2 (Z.ltb_lt n (10 ^ 21)) (proj2 Hn)), (proj2 (Z.ltb_ge n 0)) by lia.
  reflexivity.
Qed.

(** ** The term stays a whole number *)

(** [Math.max(1, Math.min(40, n + inc))] on whole numbers. *)
Lemma clamp_whole (n inc : Z) :
  Qmax 1 (Qmin 40 (inject_Z n + inject_Z inc)) == inject_Z (Z.max 1 (Z.min 40 (n + inc))).
Proof.
  rewrite <- inject_Z_plus. change 1 with (inject_Z 1). change 40 with (inject_Z 40).
  destruct (Z.le_ge_cases (n + inc) 40) as [H|H];
    [rewrite Z.min_r, Q.min_r by (rewrite <- ?Zle_Qle; lia)
    |rewrite Z.min_l, Q.min_l by (rewrite <- ?Zle_Qle; lia)];
    (destruct (Z.le_ge_cases 1 (Z.min 40 (n + inc))) as [H'|H'];
     [rewrite Z.max_r, Q.max_r by (rewrite <- ?Zle_Qle; lia)
     |rewrite Z.max_l, Q.max_l by (rewrite <- ?Zle_Qle; lia)]); reflexivity.
Qed.

Lemma form_step_whole (ev : FormEvent) (p p' : Params) (n : Z) :
  termYears p == inject_Z n -> form_step ev p = Some p' ->
  exists m, termYears p' == inject_Z m.
Proof.
  intros Hn E. destruct ev as [text|text| | |f]; cbn [form_step] in E.
  - unfold handleLoanAmountChange in E. destruct (finite (parseCurrency text)); [|discriminate].
    injection E as <-. now exists n.
  - unfold handleInterestRateChange in E. destruct (finite (parsePercentage text)); [|discriminate].
    injection E as <-. now exists n.
  - injection E as <-. exists (Z.max 1 (Z.min 40 (n + -1))).
    now rewrite adjust_term, Hn, clamp_whole.
  - injection E as <-. exists (Z.max 1 (Z.min 40 (n + 1))).
    now rewrite adjust_term, Hn, clamp_whole.
  - injection E as <-. now exists n.
Qed.

Lemma reachable_whole (init p : Params) (n0 : Z) :
  termYears init == inject_Z n0 -> reachable init p -> exists n, termYears p == inject_Z n.
Proof.
  intros H0. induction 1 as [|p ev p' _ IH E]; [now exists n0|].
  destruct IH as (n & Hn). exact (form_step_whole ev p p' n Hn E).
Qed.

(** ** Properties of what is drawn *)

(** An amount with the same cents renders the same form. *)
Lemma render_form_same_cents (p : Params) (q : Q) :
  0 <= loanAmount p -> 0 <= q ->
  Qfloor (q * 100 + (1 # 2)) = Qfloor (loanAmount p * 100 + (1 # 2)) ->
  render_form (updateParameter p (set_loanAmount q)) = render_form p.
Proof.
  intros Ha Hq Hf. unfold render_form.
  cbn [updateParameter loanAmount interestRate termYears paymentsPerYear].
  unfold term_label. cbn [termYears].
  rewrite (formatCurrency_nonneg q Hq), (formatCurrency_nonneg (loanAmount p) Ha), Hf.
  reflexivity.
Qed.

(** C37 (functional): the amount field cannot show what it stores.  The
    field displays [formatCurrency(amount)]; a digit from 0 to 4 typed at
    its end makes [parseCurrency] read the cents followed by that digit,
    which [handleLoanAmountChange] stores, and the form re-renders exactly
    as before: the keystroke is invisible while the amount behind the
    payment has changed by up to 0.004. *)
Theorem amount_digit_hidden (p : Params) (d : ascii) :
  0 <= loanAmount p -> is_digit d = true -> (digit_value d <= 4)%Z ->
  input_values (render_form p) = [Some (formatCurrency (loanAmount p)); toFixed 3 (interestRate p)]
  /\ exists p', form_step (AmountText (formatCurrency (loanAmount p) ++ String d "")) p = Some p'
    /\ render_form p' = render_form p
    /\ loanAmount p' == inject_Z (Qfloor (loanAmount p * 100 + (1 # 2))) / 100
                        + inject_Z (digit_value d) / 1000.
Proof.
  intros Ha Hd H4. split; [reflexivity|].
  pose proof (digit_code d Hd) as Hcode. unfold digit_value in *.
  destruct (parseCurrency_formatCurrency_app (loanAmount p) (String d ""))
    as (q & E & V); [cbn [all_digits]; now rewrite Hd|].
  rewrite (Qfloor_comp (Qabs (loanAmount p) * 100 + (1 # 2)) (loanAmount p * 100 + (1 # 2)))
    in V by (rewrite Qabs_pos by exact Ha; reflexivity).
  set (c := Qfloor (loanAmount p * 100 + (1 # 2))) in *.
  assert (Hc : (0 <= c)%Z) by (apply Qfloor_half_nonneg; lra).
  set (v := (Z.of_nat (nat_of_ascii d) - 48)%Z) in *.
  assert (Hv : (0 <= v <= 4)%Z) by lia.
  assert (Hq : q == inject_Z c / 100 + inject_Z v / 1000).
  { rewrite V. change (Z.of_nat (String.length (String d ""))) with 1%Z.
    change (digits_value (String d "")) with (0 * 10 + v)%Z. change (10 ^ 1)%Z with 10%Z.
    replace (c * 10 + (0 * 10 + v))%Z with (c * 10 + v)%Z by lia.
    rewrite inject_Z_plus, inject_Z_mult. change (inject_Z (100 * 10)) with 1000.
    change (inject_Z 10) with 10. field. }
  assert (Hq0 : 0 <= q).
  { rewrite Hq. apply (Qle_trans _ (0 + 0)); [discriminate|].
    apply Qplus_le_compat; apply Qle_shift_div_l; try reflexivity;
      rewrite Qmult_0_l; change 0 with (inject_Z 0); rewrite <- Zle_Qle; lia. }
  assert (Hf : Qfloor (q * 100 + (1 # 2)) = c).
  { apply Qfloor_unique. rewrite Hq.
    assert (0 <= inject_Z v <= 4) by (split; change 0 with (inject_Z 0) || change 4 with (inject_Z 4);
                                        rewrite <- Zle_Qle; lia).
    unfold Qdiv. change (/ 100) with (1 # 100). change (/ 1000) with (1 # 1000). split; lra. }
  exists (updateParameter p (set_loanAmount q)). split.
  - cbn [form_step]. unfold handleLoanAmountChange. rewrite E. reflexivity.
  - split; [|exact Hq]. exact (render_form_same_cents p q Ha Hq0 Hf).
Qed.

(** C32 (roundtrip): re-entering what the amount field shows is
    invisible but not a no-op: for an amount of at least 0, the text
    [formatCurrency(amount)] typed back through [handleLoanAmountChange]
    stores the amount rounded to the cent, and the form renders exactly as
    before. *)
Theorem amount_retype_rounds (p : Params) :
  0 <= loanAmount p ->
  exists p', form_step (AmountText (formatCurrency (loanAmount p))) p = Some p'
    /\ render_form p' = render_form p
    /\ loanAmount p' == inject_Z (Qfloor (loanAmount p * 100 + (1 # 2))) / 100.
Proof.
  intros Ha. destruct (parseCurrency_formatCurrency_app (loanAmount p) "" eq_refl)
    as (q & E & V).
  rewrite string_app_nil_r in E.
  rewrite (Qfloor_comp (Qabs (loanAmount p) * 100 + (1 # 2)) (loanAmount p * 100 + (1 # 2)))
    in V by (rewrite Qabs_pos by exact Ha; reflexivity).
  change (digits_value "") with 0%Z in V. change (Z.of_nat (String.length "")) with 0%Z in V.
  rewrite Z.pow_0_r, Z.mul_1_r, Z.add_0_r, Z.mul_1_r in V.
  set (c := Qfloor (loanAmount p * 100 + (1 # 2))) in *.
  assert (Hc : (0 <= c)%Z) by (apply Qfloor_half_nonneg; lra).
  assert (Hc' : 0 <= inject_Z c) by (change 0 with (inject_Z 0); rewrite <- Zle_Qle; exact Hc).
  assert (Hq100 : q * 100 == inject_Z c)
    by (rewrite V; change (inject_Z 100) with 100; field).
  assert (Hq0 : 0 <= q) by (assert (0 <= q * 100) by (rewrite Hq100; exact Hc'); nra).
  assert (Hf : Qfloor (q * 100 + (1 # 2)) = c) by (apply Qfloor_unique; rewrite Hq100; split; lra).
  exists (updateParameter p (set_loanAmount q)). split.
  - cbn [form_step]. unfold handleLoanAmountChange. rewrite E. reflexivity.
  - split; [exact (render_form_same_cents p q Ha Hq0 Hf)|exact V].
Qed.

(** C38 (invariant): starting from a configuration with a whole term in
    [1, 40], every state of the screen keeps a whole term [n] in
    [1, 40], so the form's texts are all defined: the label reads
    ["Term: n years"] and the stepper shows [n] (JavaScript prints a whole
    number without a fraction; a fractional term would print as, e.g.,
    "30.5"). *)
Theorem term_label_whole (init p : Params) (n0 : Z) :
  form_ok init -> termYears init == inject_Z n0 -> reachable init p ->
  exists n, (1 <= n <= 40)%Z /\ termYears p == inject_Z n
    /\ texts (render_form p)
       = [Some "Loan Details"; Some "Loan Amount"; Some "Interest Rate"; Some "%";
          Some ("Term: " ++ Z_digits n ++ " years"); Some "-"; Some (Z_digits n); Some "+";
          Some "Payment Frequency"].
Proof.
  intros Hok H0 Hr. destruct (reachable_whole init p n0 H0 Hr) as (n & Hn).
  destruct (reachable_ok init p Hok Hr) as [_ [Hl Hu]]. rewrite Hn in Hl, Hu.
  change 1 with (inject_Z 1) in Hl. change 40 with (inject_Z 40) in Hu.
  rewrite <- Zle_Qle in Hl, Hu.
  assert (Hs : js_number_toString (termYears p) = Some (Z_digits n))
    by (rewrite (js_number_toString_Qeq _ _ Hn); apply js_number_toString_Z; lia).
  exists n. split; [lia|]. split; [exact Hn|].
  unfold render_form, term_label. rewrite Hs. reflexivity.
Qed.

(** C39 (bounds): the progress label of the results panel,
    [(interestShare * 100).toFixed(1) + "% Interest"], is always printed
    (the share is far below [10^21]) and the number it shows reads back,
    with [parseFloat], as a value between 0 and 100: no label ever claims
    more than 100.0% interest. *)
Theorem progress_label_bounds (p : Params) :
  exists t v, progress_label (screen_result p) = Some (t ++ "% Interest")
    /\ parseFloat t = PFin v /\ 0 <= v <= 100.
Proof.
  destruct (interestShare_unit p) as [H0 H1].
  unfold progress_label, screen_result.
  set (s := interestShare (calculate p) * 100).
  assert (Hs : 0 <= s <= 100) by (unfold s; split; lra).
  destruct (toFixed 1 s) as [t|] eqn:T.
  - destruct (toFixed_value 1 s t (le_n 1) T) as (D & F & AD & ND & AF & V & Et).
    replace (if Qlt_le_dec s 0 then "-" else "") with "" in Et
      by (destruct (Qlt_le_dec s 0); [lra|reflexivity]).
    cbn [append] in Et. subst t.
    exists (D ++ String "." F), (decimal_value D F 0).
    split; [reflexivity|]. split; [apply parseFloat_fixed; assumption|].
    rewrite V. change (inject_Z (10 ^ Z.of_nat 1)) with 10.
    assert (Ha : 0 <= Qabs s <= 100) by (rewrite Qabs_pos by lra; lra).
    pose proof (Qfloor_le (Qabs s * 10 + (1 # 2))) as Hf.
    set (k := Qfloor (Qabs s * 10 + (1 # 2))) in *.
    assert (Hk0 : (0 <= k)%Z) by (apply Qfloor_half_nonneg; lra).
    assert (Hk : (k <= 1000)%Z).
    { assert (inject_Z k < inject_Z 1001) as H by (change (inject_Z 1001) with 1001; lra).
      rewrite <- Zlt_Qlt in H. lia. }
    rewrite Zle_Qle in Hk0, Hk. change (inject_Z 0) with 0 in Hk0.
    change (inject_Z 1000) with 1000 in Hk.
    unfold Qdiv. change (/ 10) with (1 # 10). split; lra.
  - exfalso. unfold toFixed in T. destruct (Qlt_le_dec s 0) as [Hn|_]; [lra|].
    destruct (Qle_bool (inject_Z (10 ^ 21)) s) eqn:B; [|discriminate].
    apply Qle_bool_iff in B. change (inject_Z (10 ^ 21)) with (1000000000000000000000 # 1) in B.
    lra.
Qed.

(** C40 (functional): the tabs as drawn drive navigation: in every state
    of the app, the touchable labelled with a loan type's tab dispatches
    [SelectTab] for it, and after that press exactly that tab carries the
    [activeTab] style and the screen's header shows the loan type's title
    and description. *)
Theorem tab_press_shows_tab (st : AppState) (t : LoanType) :
  find_press (tab_label t) (render_app st) = Some (SelectTab t)
  /\ exists st', app_step (SelectTab t) st = Some st'
    /\ active_texts (render_app st') = [Some (tab_label t)]
    /\ exists rest, texts (render_app st')
         = Some (tab_label residential) :: Some (tab_label commercial)
           :: Some (tab_label vehicle) :: Some (title (@loanConfigs Q _ t))
           :: Some (description (@loanConfigs Q _ t)) :: rest.
Proof.
  split; [apply find_press_tab|].
  set (st' := if equiv_dec t (selectedLoanType st) then st else mount t).
  assert (Hs : selectedLoanType st' = t)
    by (unfold st'; destruct (equiv_dec t (selectedLoanType st)) as [E|_];
        [symmetry; exact E|reflexivity]).
  exists st'. split; [reflexivity|].
  rewrite render_app_active, Hs. split; [reflexivity|].
  destruct (render_app_header st') as (rest & E). exists rest.
  rewrite E. unfold currentConfig. now rewrite Hs.
Qed.

End Render.

(** The residential screen (450000): a [4] typed after ["$450,000.00"]. *)
Lemma amount_digit_hidden_witness :
  (0 <= loanAmount (config_parameters residential))%Q /\ is_digit "4" = true
  /\ (digit_value "4" <= 4)%Z
  /\ formatCurrency (loanAmount (config_parameters residential)) = "$450,000.00"%string
  /\ exists p', form_step (AmountText ("$450,000.00" ++ "4")) (config_parameters residential)
                = Some p'
     /\ Render.render_form p' = Render.render_form (config_parameters residential).
Proof.
  assert (H1 : (0 <= loanAmount (config_parameters residential))%Q) by (vm_compute; discriminate).
  assert (H2 : is_digit "4" = true) by reflexivity.
  assert (H3 : (digit_value "4" <= 4)%Z) by (vm_compute; discriminate).
  assert (H4 : formatCurrency (loanAmount (config_parameters residential)) = "$450,000.00"%string)
    by (vm_compute; reflexivity).
  split; [exact H1|]. split; [exact H2|]. split; [exact H3|]. split; [exact H4|].
  destruct (Render.amount_digit_hidden _ "4" H1 H2 H3) as (_ & p' & E & R & _).
  rewrite H4 in E. exists p'. split; [exact E|exact R].
Defined.

(** The vehicle screen (45000) with its amount typed back. *)
Lemma amount_retype_rounds_witness :
  (0 <= loanAmount (config_parameters vehicle))%Q
  /\ exists p', form_step (AmountText (formatCurrency (loanAmount (config_parameters vehicle))))
                (config_parameters vehicle) = Some p'
     /\ Render.render_form p' = Render.render_form (config_parameters vehicle).
Proof.
  assert (H : (0 <= loanAmount (config_parameters vehicle))%Q) by (vm_compute; discriminate).
  split; [exact H|].
  destruct (Render.amount_retype_rounds _ H) as (p' & E & R & _).
  exists p'. split; [exact E|exact R].
Defined.

(** The residential screen after one press of [+]: 31 years. *)
Lemma term_label_whole_witness :
  form_ok (config_parameters residential)
  /\ (termYears (config_parameters residential) == inject_Z 30)%Q
  /\ reachable (config_parameters residential) (adjustTermYears 1 (config_parameters residential))
  /\ exists n, (1 <= n <= 40)%Z
     /\ (termYears (adjustTermYears 1 (config_parameters residential)) == inject_Z n)%Q
     /\ Render.texts (Render.render_form (adjustTermYears 1 (config_parameters residential)))
        = [Some "Loan Details"; Some "Loan Amount"; Some "Interest Rate"; Some "%";
           Some ("Term: " ++ Formatters.Z_digits n ++ " years"); Some "-";
           Some (Formatters.Z_digits n); Some "+"; Some "Payment Frequency"]%string.
Proof.
  assert (H1 : form_ok (config_parameters residential)) by apply config_ok.
  assert (H2 : (termYears (config_parameters residential) == inject_Z 30)%Q) by reflexivity.
  assert (H3 : reachable (config_parameters residential)
                 (adjustTermYears 1 (config_parameters residential)))
    by (apply (reach_step _ _ TermPlus _ (reach_init _)); reflexivity).
  split; [exact H1|]. split; [exact H2|]. split; [exact H3|].
  exact (Render.term_label_whole _ _ 30 H1 H2 H3).
Defined.
